(** * SFDP dashboard collectors: stake aggregation and decentralization metrics

    A shallow embedding of the analytics code of
    - [collect-network.js], whole-network collector ([main]),
    - [collect-network.js], second document, SFDP collector
      ([analyzeStakeAccounts], [collect]),
    - [collect-enhanced.js], enhanced SFDP collector ([main]).

    JavaScript numbers are IEEE 754 binary64 values.  Every function of the
    embedding is written once, over an interface [Number] of the arithmetic the
    source uses, and the interface has two instances:
    - [float_number]: Rocq's primitive binary64 floats, which compute what the
      JavaScript engine computes (rounding, NaN and infinities included);
    - [exact_number]: canonical rationals [Qc], the same operations without
      rounding.  Its division by zero is not the source's (it yields 0 where
      JavaScript yields NaN or an infinity), so results about it are stated
      only where no divisor is zero. *)

From Stdlib Require Import List ZArith QArith Qcanon Qround Qabs.
From Stdlib Require Import String Ascii DecimalString.
From Stdlib Require DecimalN DecimalPos.
From Stdlib Require Import Lia Lqa Permutation Sorted Bool.
From Stdlib Require Import Floats.PrimFloat Floats.FloatOps Floats.SpecFloat.
Import ListNotations.

Set Implicit Arguments.

(** ** JavaScript numbers *)

Module JS.

(** The mathematical value of a number: what [Number.prototype.toFixed],
    [ToBoolean] and [Math.floor] read. *)
Inductive value : Type :=
| Finite (q : Q)
| PosInfinity
| NegInfinity
| NotANumber.

(** What a field of a report holds. *)
Inductive jsval (N : Type) : Type :=
| Num (x : N)
| Str (s : string)
| StrOf (x : N)   (* the string [String(x)] of a number of magnitude [>= 10^21] *)
| Null
| Undefined.
Arguments Str {N} s.
Arguments Null {N}.
Arguments Undefined {N}.

Class Number (N : Type) : Type := {
  of_Z : Z -> N;                 (* an integer literal, [parseInt] of a digit string, a counter *)
  add : N -> N -> N;
  sub : N -> N -> N;
  mul : N -> N -> N;
  div : N -> N -> N;
  ltb : N -> N -> bool;          (* [a < b] *)
  leb : N -> N -> bool;          (* [a <= b] *)
  lt_Infinity : N -> bool;       (* [a < Infinity] *)
  decode : N -> value
}.

Section Derived.
Context {N : Type} `{Number N}.

Definition zero : N := of_Z 0.
Definition gtb (a b : N) : bool := ltb b a.   (* [a > b] *)
Definition geb (a b : N) : bool := leb b a.   (* [a >= b] *)

(** The decimal literal [n / 10^k] ([0.33], [0.1], [0.9]): numerator and
    power of ten are exact, one correctly rounded division gives the
    binary64 value nearest to the literal. *)
Definition decimal (n : Z) (k : nat) : N := div (of_Z n) (of_Z (10 ^ Z.of_nat k)).

(** [ToBoolean]: false for [+0], [-0] and NaN. *)
Definition truthy (x : N) : bool :=
  match decode x with
  | Finite q => negb (Qeq_bool q 0)
  | NotANumber => false
  | _ => true
  end.

(** [a[Math.floor(x)]] on an array: [undefined] out of range or when the
    index is not an integer. *)
Definition at_floor (a : list N) (x : N) : option N :=
  match decode x with
  | Finite q => let i := Qfloor q in
                if (i <? 0)%Z then None else nth_error a (Z.to_nat i)
  | _ => None
  end.

(** [v || 0] where [v] is a number or [undefined]. *)
Definition or_zero (v : option N) : N :=
  match v with
  | Some x => if truthy x then x else zero
  | None => zero
  end.

(** [a.reduce((s, v) => s + v, 0)]. *)
Definition sum (a : list N) : N := fold_left add a zero.
End Derived.

(** *** Binary64 *)

Definition float_of_Z (z : Z) : float :=
  SF2Prim (binary_normalize prec emax z 0 false).

Definition float_decode (x : float) : value :=
  match Prim2SF x with
  | S754_nan => NotANumber
  | S754_infinity false => PosInfinity
  | S754_infinity true => NegInfinity
  | S754_zero _ => Finite 0
  | S754_finite s m e =>
      let q := (inject_Z (Zpos m) * Qpower 2 e)%Q in
      Finite (if s then Qopp q else q)
  end.

#[export] Instance float_number : Number float := {
  of_Z := float_of_Z;
  add := PrimFloat.add;
  sub := PrimFloat.sub;
  mul := PrimFloat.mul;
  div := PrimFloat.div;
  ltb := PrimFloat.ltb;
  leb := PrimFloat.leb;
  lt_Infinity := fun x => PrimFloat.ltb x infinity;
  decode := float_decode
}.

(** *** Exact rationals *)

Definition Qc_ltb (a b : Qc) : bool :=
  match (a ?= b)%Qc with Lt => true | _ => false end.
Definition Qc_leb (a b : Qc) : bool :=
  match (a ?= b)%Qc with Gt => false | _ => true end.

#[export] Instance exact_number : Number Qc := {
  of_Z := fun z => Q2Qc (inject_Z z);
  add := Qcplus;
  sub := Qcminus;
  mul := Qcmult;
  div := Qcdiv;
  ltb := Qc_ltb;
  leb := Qc_leb;
  lt_Infinity := fun _ => true;
  decode := fun x => Finite (this x)
}.

End JS.

Import JS.

(** ** Arrays and number formatting *)

Module Arr.
Section Sort.
Context {N : Type} `{Number N} {A : Type}.
Variable cmp : A -> A -> N.

(** [Array.prototype.sort(cmp)] is a stable sort: [a] is placed after [b]
    exactly when [cmp(a, b) > 0].  For a comparator that orders its
    arguments consistently every stable sort returns the same array; this
    is the insertion sort that scans from the right end. *)
Fixpoint insert (x : A) (l : list A) : list A :=
  match l with
  | [] => [x]
  | y :: r => if gtb (cmp x y) zero then y :: insert x r else x :: l
  end.

Definition sort (l : list A) : list A := fold_right insert [] l.
End Sort.

(** [a.slice(0, n)]. *)
Definition slice0 {A : Type} (n : nat) (a : list A) : list A := firstn n a.
End Arr.

Module Fmt.
Open Scope string_scope.

Definition digits (n : Z) : string := NilZero.string_of_uint (N.to_uint (Z.to_N n)).

Fixpoint zeros (k : nat) : string :=
  match k with O => "" | S k' => "0" ++ zeros k' end.

(** Steps 9 to 12 of [Number.prototype.toFixed(f)] on a finite value below
    [10^21] in magnitude: [n] is the integer nearest to [x * 10^f], the
    larger one on a tie. *)
Definition fixed_digits (f : nat) (q : Q) : string :=
  let neg := Qlt_le_dec q 0 in
  let x := if neg then Qopp q else q in
  let n := Qfloor (x * inject_Z (10 ^ Z.of_nat f) + (1 # 2))%Q in
  let m := digits n in
  let m := if (0 <? f)%nat
           then let k := String.length m in
                let m := if (k <=? f)%nat then zeros (f + 1 - k) ++ m else m in
                let k := String.length m in
                substring 0 (k - f) m ++ "." ++ substring (k - f) f m
           else m in
  (if neg then "-" else "") ++ m.

(** [x.toFixed(f)]: always a string.  For [|x| >= 10^21] it is
    [String(x)], an exponent notation that is not spelled out here. *)
Definition toFixed {N : Type} `{Number N} (f : nat) (x : N) : jsval N :=
  match decode x with
  | NotANumber => Str "NaN"
  | PosInfinity => Str "Infinity"
  | NegInfinity => Str "-Infinity"
  | Finite q =>
      if Qle_bool (inject_Z (10 ^ 21)) (Qabs q) then StrOf x
      else Str (fixed_digits f q)
  end.
(** How [JSON.stringify] writes a number of the report: NaN and the
    infinities become [null]. *)
Definition json {N : Type} `{Number N} (x : N) : jsval N :=
  match decode x with
  | Finite _ => Num x
  | _ => Null
  end.
End Fmt.


(** ** Concentration metrics

    The three collectors contain the same loops, copied: the Nakamoto loop
    ([collect-enhanced.js] 148-149 and 268-269, [collect-network.js] 86-87,
    343-349 and 473-478), the superminority loop ([collect-network.js] 90-91
    and 352-358), HHI, Gini and the bucket scan.  They are embedded once. *)

Module Metrics.
Section Metrics.
Context {N : Type} `{Number N}.

(** [for (const s of stakes) { running += s; count++; if (running >= threshold) break; }] *)
Fixpoint prefix_loop (threshold running : N) (count : nat) (stakes : list N) : nat :=
  match stakes with
  | [] => count
  | s :: rest =>
      let running := add running s in
      let count := S count in
      if geb running threshold then count
      else prefix_loop threshold running count rest
  end.

(** Threshold [total / 3]. *)
Definition nakamoto33 (stakes : list N) (total : N) : nat :=
  prefix_loop (div total (of_Z 3)) zero 0 stakes.

(** Threshold [total * 0.33]. *)
Definition superminority (stakes : list N) (total : N) : nat :=
  prefix_loop (mul total (decimal 33 2)) zero 0 stakes.

(** [let hhi = 0; for (const s of stakes) { const share = s / total; hhi += share * share; }] *)
Definition hhi (stakes : list N) (total : N) : N :=
  fold_left (fun h s => let share := div s total in add h (mul share share)) stakes zero.

(** The weight [2 * (i + 1) - n - 1] of the entry at index [i]. *)
Definition gini_weight (n i : nat) : N :=
  of_Z (2 * (Z.of_nat i + 1) - Z.of_nat n - 1).

(** [for (let i = 0; i < n; i++) giniSum += (2 * (i + 1) - n - 1) * asc[i];]
    The index stays below [asc.length] (sorting keeps the length), so the
    default of [nth] is never read. *)
Definition gini_sum (n : nat) (asc : list N) : N :=
  fold_left (fun g i => add g (mul (gini_weight n i) (nth i asc zero))) (seq 0 n) zero.

(** [const asc = [...stakes].sort((a, b) => a - b);]
    [const gini = n > 0 ? giniSum / (n * asc.reduce((a, b) => a + b, 0)) : 0;] *)
Definition gini (stakes : list N) : N :=
  let n := List.length stakes in
  let asc := Arr.sort (fun a b => sub a b) stakes in
  let giniSum := gini_sum n asc in
  if (0 <? n)%nat then div giniSum (mul (of_Z (Z.of_nat n)) (sum asc)) else zero.

(** [stakes.slice(0, k).reduce((s, v) => s + v, 0)]. *)
Definition top_stake (k : nat) (stakes : list N) : N := sum (Arr.slice0 k stakes).

(** A stake bucket; [max = None] is [Infinity]. *)
Record bucket : Type := {
  label : string;
  min : N;
  max : option N;
  count : nat;
  stake : N
}.

(** [v >= b.min && v < b.max] *)
Definition in_bucket (v : N) (b : bucket) : bool :=
  geb v (min b) && match max b with Some m => ltb v m | None => lt_Infinity v end.

(** The inner loop: the first bucket that matches is updated, then [break]. *)
Fixpoint place (v : N) (bs : list bucket) : list bucket :=
  match bs with
  | [] => []
  | b :: rest =>
      if in_bucket v b
      then {| label := label b; min := min b; max := max b;
              count := S (count b); stake := add (stake b) v |} :: rest
      else b :: place v rest
  end.

(** The outer loop over the validators' stakes. *)
Definition fill (bs : list bucket) (stakes : list N) : list bucket :=
  fold_left (fun bs v => place v bs) stakes bs.

Definition empty_bucket (l : string) (lo : Z) (hi : option Z) : bucket :=
  {| label := l; min := of_Z lo; max := option_map of_Z hi; count := 0; stake := zero |}.

(** The table of [analyzeStakeAccounts] (and of [collect-enhanced.js], whose
    first label is ["<1K"]). *)
Definition sfdp_buckets : list bucket :=
  [ empty_bucket "<1K SOL" 0 (Some 1000);
    empty_bucket "1K-10K" 1000 (Some 10000);
    empty_bucket "10K-50K" 10000 (Some 50000);
    empty_bucket "50K-100K" 50000 (Some 100000);
    empty_bucket "100K-500K" 100000 (Some 500000);
    empty_bucket "500K+" 500000 None ]%Z.

Definition enhanced_buckets : list bucket :=
  [ empty_bucket "<1K" 0 (Some 1000);
    empty_bucket "1K-10K" 1000 (Some 10000);
    empty_bucket "10K-50K" 10000 (Some 50000);
    empty_bucket "50K-100K" 50000 (Some 100000);
    empty_bucket "100K-500K" 100000 (Some 500000);
    empty_bucket "500K+" 500000 None ]%Z.

(** The table of the whole-network collector. *)
Definition network_buckets : list bucket :=
  [ empty_bucket "<10K" 0 (Some 10000);
    empty_bucket "10K-50K" 10000 (Some 50000);
    empty_bucket "50K-100K" 50000 (Some 100000);
    empty_bucket "100K-500K" 100000 (Some 500000);
    empty_bucket "500K-1M" 500000 (Some 1000000);
    empty_bucket "1M-5M" 1000000 (Some 5000000);
    empty_bucket "5M+" 5000000 None ]%Z.
End Metrics.

Arguments bucket : clear implicits.
End Metrics.

(** ** Stake accounts as the RPC returns them *)

Module Rpc.
(** [acct.account.data.parsed.info.stake.delegation].  [stake] is the
    integer that [parseInt(del.stake)] reads (the RPC prints lamports, a
    [u64], in decimal); [deactivationEpoch] stays a string, as the source
    compares it.  [voter] is a vote account address, the base58 text of a
    32-byte key (32 to 44 characters): as a property name it is neither an
    array index nor a name that [Object.prototype] defines, so an object keyed
    by it behaves as a map that lists its entries in insertion order. *)
Record Delegation : Type := {
  stake : Z;
  voter : string;
  deactivationEpoch : string;
  activationEpoch : Z
}.

(** A stake account; [None] when the optional chain
    [acct.account?.data?.parsed?.info?.stake?.delegation] is falsy. *)
Definition Account : Type := option Delegation.

Definition NOT_DEACTIVATING : string := "18446744073709551615".

(** [del.deactivationEpoch !== "18446744073709551615"] *)
Definition deactivating (del : Delegation) : bool :=
  negb (String.eqb (deactivationEpoch del) NOT_DEACTIVATING).
End Rpc.

(** ** [collect-network.js], second document: the SFDP collector *)

Module Sfdp.
Section Sfdp.
Context {N : Type} `{Number N}.

(** An entry of the [validators] object.  The object is keyed by vote
    account address; [Object.values] lists such keys in insertion order, so
    the object is the list of its values in that order. *)
Record Validator : Type := {
  voter : string;
  stakeAccounts : nat;
  totalStake : N;
  activeStake : N;
  deactivatingStake : N;
  activationEpochs : list Z
}.

Record State : Type := {
  totalActive : N;
  totalDeactivating : N;
  totalEmpty : nat;
  validators : list Validator
}.

Definition init : State :=
  {| totalActive := zero; totalDeactivating := zero; totalEmpty := 0; validators := [] |}.

Definition fresh (k : string) : Validator :=
  {| voter := k; stakeAccounts := 0; totalStake := zero; activeStake := zero;
     deactivatingStake := zero; activationEpochs := [] |}.

(** Lines 326-330: the updates of [validators[voter]]. *)
Definition record (stake : N) (deactivating : bool) (epoch : Z) (v : Validator) : Validator :=
  {| voter := voter v;
     stakeAccounts := S (stakeAccounts v);
     totalStake := add (totalStake v) stake;
     activeStake := if deactivating then activeStake v else add (activeStake v) stake;
     deactivatingStake := if deactivating then add (deactivatingStake v) stake
                          else deactivatingStake v;
     activationEpochs := activationEpochs v ++ [epoch] |}.

(** [if (!validators[k]) validators[k] = fresh(k);] followed by the update
    [f] of [validators[k]]. *)
Fixpoint upsert (k : string) (f : Validator -> Validator) (vs : list Validator)
  : list Validator :=
  match vs with
  | [] => [f (fresh k)]
  | v :: rest => if String.eqb (voter v) k then f v :: rest else v :: upsert k f rest
  end.

(** One iteration of the loop of lines 296-331. *)
Definition step (st : State) (acct : Rpc.Account) : State :=
  match acct with
  | None =>
      {| totalActive := totalActive st; totalDeactivating := totalDeactivating st;
         totalEmpty := S (totalEmpty st); validators := validators st |}
  | Some del =>
      let stake := div (of_Z (Rpc.stake del)) (of_Z 1000000000) in
      let deactivating := Rpc.deactivating del in
      {| totalActive := if deactivating then totalActive st else add (totalActive st) stake;
         totalDeactivating := if deactivating then add (totalDeactivating st) stake
                              else totalDeactivating st;
         totalEmpty := totalEmpty st;
         validators := upsert (Rpc.voter del)
                         (record stake deactivating (Rpc.activationEpoch del))
                         (validators st) |}
  end.

Definition aggregate (accounts : list Rpc.Account) : State :=
  fold_left step accounts init.

(** [Object.values(validators).sort((a, b) => b.activeStake - a.activeStake)] *)
Definition sortValidators (vs : list Validator) : list Validator :=
  Arr.sort (fun a b => sub (activeStake b) (activeStake a)) vs.

(** [sortedValidators.filter((v) => v.activeStake > 0)] *)
Definition active (vs : list Validator) : list Validator :=
  filter (fun v => gtb (activeStake v) zero) vs.

Record Decentralization : Type := {
  nakamotoCoeff33 : nat;
  superminorityCount : nat;
  hhi : N;
  gini : N
}.

Record StakeStats : Type := {
  mean : N; median : N; max : N; min : N; p10 : N; p90 : N
}.

Record TopValidator : Type := {
  top_voter : string;
  top_activeStake : N;
  top_deactivatingStake : N;
  top_stakeAccounts : nat;
  pctOfTotal : jsval N
}.

Record Listed : Type := {
  l_voter : string;
  l_activeStake : N;
  l_deactivatingStake : N;
  l_stakeAccounts : nat
}.

Record Analysis : Type := {
  totalAccounts : nat;
  emptyAccounts : nat;
  a_totalActive : N;
  a_totalDeactivating : N;
  uniqueValidators : nat;
  activeValidators : nat;
  decentralization : Decentralization;
  stakeStats : StakeStats;
  stakeBuckets : list (Metrics.bucket N);
  topValidators : list TopValidator;
  allValidators : list Listed
}.

Definition of_nat (n : nat) : N := of_Z (Z.of_nat n).

Definition analyzeStakeAccounts (accounts : list Rpc.Account) : Analysis :=
  let st := aggregate accounts in
  let totalActive := totalActive st in
  let sortedValidators := sortValidators (validators st) in
  let activeValidators := active sortedValidators in
  let activeStakes := map activeStake activeValidators in
  let len := List.length activeStakes in
  {| totalAccounts := List.length accounts;
     emptyAccounts := totalEmpty st;
     a_totalActive := totalActive;
     a_totalDeactivating := totalDeactivating st;
     uniqueValidators := List.length (validators st);
     activeValidators := List.length activeValidators;
     decentralization :=
       {| nakamotoCoeff33 := Metrics.nakamoto33 activeStakes totalActive;
          superminorityCount := Metrics.superminority activeStakes totalActive;
          hhi := Metrics.hhi activeStakes totalActive;
          gini := Metrics.gini activeStakes |};
     stakeStats :=
       {| mean := div totalActive (of_nat (List.length activeValidators));
          median := or_zero (at_floor activeStakes (div (of_nat len) (of_Z 2)));
          max := or_zero (nth_error activeStakes 0);
          min := or_zero (if (0 <? len)%nat then nth_error activeStakes (len - 1) else None);
          p10 := or_zero (at_floor activeStakes (mul (of_nat len) (decimal 1 1)));
          p90 := or_zero (at_floor activeStakes (mul (of_nat len) (decimal 9 1))) |};
     stakeBuckets := Metrics.fill Metrics.sfdp_buckets (map activeStake activeValidators);
     topValidators :=
       map (fun v =>
              {| top_voter := voter v;
                 top_activeStake := activeStake v;
                 top_deactivatingStake := deactivatingStake v;
                 top_stakeAccounts := stakeAccounts v;
                 pctOfTotal :=
                   Fmt.toFixed 2 (mul (div (activeStake v) totalActive) (of_Z 100)) |})
           (Arr.slice0 25 sortedValidators);
     allValidators :=
       map (fun v =>
              {| l_voter := voter v;
                 l_activeStake := activeStake v;
                 l_deactivatingStake := deactivatingStake v;
                 l_stakeAccounts := stakeAccounts v |})
           sortedValidators |}.

(** *** [collect]: the combined section (lines 461-490) *)

Record Merged : Type := {
  m_voter : string;
  m_totalStake : N;
  sources : list (string * N)
}.

(** [o[key] = x] on an object kept as the list of its entries. *)
Fixpoint assign (key : string) (x : N) (o : list (string * N)) : list (string * N) :=
  match o with
  | [] => [(key, x)]
  | (k, y) :: rest => if String.eqb k key then (k, x) :: rest else (k, y) :: assign key x rest
  end.

(** Lines 465-467 for one listed validator [v] of the source [key]. *)
Fixpoint merge1 (key : string) (v : Listed) (all : list Merged) : list Merged :=
  let upd m := {| m_voter := m_voter m;
                  m_totalStake := add (m_totalStake m) (l_activeStake v);
                  sources := assign key (l_activeStake v) (sources m) |} in
  match all with
  | [] => [upd {| m_voter := l_voter v; m_totalStake := zero; sources := [] |}]
  | m :: rest => if String.eqb (m_voter m) (l_voter v) then upd m :: rest
                 else m :: merge1 key v rest
  end.

(** The two nested loops of lines 463-469. *)
Definition mergeAll (accounts : list (string * Analysis)) : list Merged :=
  fold_left (fun all kd => fold_left (fun all v => merge1 (fst kd) v all)
                                     (allValidators (snd kd)) all)
            accounts [].

Record CombinedTop : Type := {
  c_voter : string;
  c_totalStake : N;
  c_sources : list (string * N);
  c_pctOfTotal : jsval N
}.

Record Combined : Type := {
  totalActiveStake : N;
  c_uniqueValidators : nat;
  c_nakamotoCoeff33 : nat;
  c_topValidators : list CombinedTop
}.

Definition combinedSorted (accounts : list (string * Analysis)) : list Merged :=
  Arr.sort (fun a b => sub (m_totalStake b) (m_totalStake a)) (mergeAll accounts).

Definition combinedTotal (accounts : list (string * Analysis)) : N :=
  sum (map m_totalStake (mergeAll accounts)).

Definition combined (accounts : list (string * Analysis)) : Combined :=
  let total := combinedTotal accounts in
  let sorted := combinedSorted accounts in
  {| totalActiveStake := total;
     c_uniqueValidators := List.length sorted;
     c_nakamotoCoeff33 := Metrics.nakamoto33 (map m_totalStake sorted) total;
     c_topValidators :=
       map (fun v =>
              {| c_voter := m_voter v;
                 c_totalStake := m_totalStake v;
                 c_sources := sources v;
                 c_pctOfTotal :=
                   Fmt.toFixed 2 (mul (div (m_totalStake v) total) (of_Z 100)) |})
           (Arr.slice0 25 sorted) |}.

(** [collect], without the RPC calls: the stake accounts of each authority
    are given, in the order of [Object.entries(ACCOUNTS)]. *)
Definition collect (fetched : list (string * list Rpc.Account))
  : list (string * Analysis) * Combined :=
  let accounts := map (fun kf => (fst kf, analyzeStakeAccounts (snd kf))) fetched in
  (accounts, combined accounts).
End Sfdp.
End Sfdp.

(** ** Breakdown by category: the tallies and [sortObj] *)

Module Breakdown.
Open Scope string_scope.

(** An array index in the sense of [OrdinaryOwnPropertyKeys]: a canonical
    decimal numeral below [2^32 - 1].  A commission rate used as a key
    (["5"], ["10"]) is one; a country name is not. *)
Definition array_index (k : string) : option N :=
  match NilZero.uint_of_string k with
  | Some u => let n := N.of_uint u in
              if String.eqb (NilZero.string_of_uint (N.to_uint n)) k && (n <? 4294967295)%N
              then Some n else None
  | None => None
  end.

Section Entries.
Context {V : Type}.

Fixpoint insert_index (n : N) (kv : string * V) (l : list (N * (string * V)))
  : list (N * (string * V)) :=
  match l with
  | [] => [(n, kv)]
  | (m, kv') :: rest => if (n <? m)%N then (n, kv) :: l else (m, kv') :: insert_index n kv rest
  end.

(** [Object.entries(o)] for an object kept as the list of its entries in
    creation order: array indices first, ascending, then the other keys in
    creation order. *)
Definition entries (o : list (string * V)) : list (string * V) :=
  let idx := fold_left (fun acc kv => match array_index (fst kv) with
                                      | Some n => insert_index n kv acc
                                      | None => acc
                                      end) o [] in
  map snd idx ++ filter (fun kv => match array_index (fst kv) with
                                   | Some _ => false | None => true end) o.
End Entries.

Section Tally.
Context {N : Type} `{Number N}.

Record Tally : Type := { count : nat; stake : N }.

(** [if (!o[k]) o[k] = { count: 0, stake: 0 }; o[k].count++; o[k].stake += s;] *)
Fixpoint bump (k : string) (s : N) (o : list (string * Tally)) : list (string * Tally) :=
  match o with
  | [] => [(k, {| count := 1; stake := add zero s |})]
  | (k', t) :: rest =>
      if String.eqb k' k
      then (k', {| count := S (count t); stake := add (stake t) s |}) :: rest
      else (k', t) :: bump k s rest
  end.

Record Row : Type := { name : string; r_count : nat; r_stake : N; pct : jsval N }.

(** [Object.entries(obj).map(([k, v]) => ({ name: k, ...v,]
    [pct: (v.stake / total * 100).toFixed(2) })).sort((a, b) => b.stake - a.stake)] *)
Definition sortObj (total : N) (obj : list (string * Tally)) : list Row :=
  Arr.sort (fun a b => sub (r_stake b) (r_stake a))
    (map (fun kv =>
            {| name := fst kv;
               r_count := count (snd kv);
               r_stake := stake (snd kv);
               pct := Fmt.toFixed 2 (mul (div (stake (snd kv)) total) (of_Z 100)) |})
         (entries obj)).

(** [x || "Unknown"] on a string or [null]. *)
Definition or_unknown (x : option string) : string :=
  match x with
  | Some s => if String.eqb s "" then "Unknown" else s
  | None => "Unknown"
  end.

(** [a || b] on strings or [null]. *)
Definition or_else (a b : option string) : option string :=
  match a with
  | Some s => if String.eqb s "" then b else a
  | None => b
  end.
End Tally.
Arguments Tally : clear implicits.
Arguments Row : clear implicits.
End Breakdown.

(** ** [collect-enhanced.js]: the enhanced SFDP collector *)

Module Enhanced.
Open Scope string_scope.
Section Enhanced.
Context {N : Type} `{Number N}.

Record Validator : Type := {
  voter : string;
  activeStake : N;
  deactivatingStake : N;
  accounts : nat
}.

Record State : Type := {
  totalActive : N;
  totalDeactivating : N;
  totalEmpty : nat;
  validators : list Validator
}.

Definition init : State :=
  {| totalActive := zero; totalDeactivating := zero; totalEmpty := 0; validators := [] |}.

Definition fresh (k : string) : Validator :=
  {| voter := k; activeStake := zero; deactivatingStake := zero; accounts := 0 |}.

(** Lines 106-108. *)
Definition record (stake : N) (deactivating : bool) (v : Validator) : Validator :=
  {| voter := voter v;
     activeStake := if deactivating then activeStake v else add (activeStake v) stake;
     deactivatingStake := if deactivating then add (deactivatingStake v) stake
                          else deactivatingStake v;
     accounts := S (accounts v) |}.

Fixpoint upsert (k : string) (f : Validator -> Validator) (vs : list Validator)
  : list Validator :=
  match vs with
  | [] => [f (fresh k)]
  | v :: rest => if String.eqb (voter v) k then f v :: rest else v :: upsert k f rest
  end.

(** One iteration of the loop of lines 96-109. *)
Definition step (st : State) (acct : Rpc.Account) : State :=
  match acct with
  | None =>
      {| totalActive := totalActive st; totalDeactivating := totalDeactivating st;
         totalEmpty := S (totalEmpty st); validators := validators st |}
  | Some del =>
      let stake := div (of_Z (Rpc.stake del)) (of_Z 1000000000) in
      let deactivating := Rpc.deactivating del in
      {| totalActive := if deactivating then totalActive st else add (totalActive st) stake;
         totalDeactivating := if deactivating then add (totalDeactivating st) stake
                              else totalDeactivating st;
         totalEmpty := totalEmpty st;
         validators := upsert (Rpc.voter del) (record stake deactivating) (validators st) |}
  end.

Definition aggregate (stakeAccounts : list Rpc.Account) : State :=
  fold_left step stakeAccounts init.

(** What lines 116-139 read for a validator from the stakewiz map, the vote
    accounts and the block production, after their [||] and [??] defaults.
    The fields that no metric reads ([skipRate], [leaderSlots],
    [blocksProduced], [wizScore], [apy], [superminority], [asnConcentration],
    [cityConcentration]) are left out. *)
Record Metadata : Type := {
  name : option string;
  commission : option Z;
  totalNetworkStake : N;
  version : option string;
  delinquent : bool;
  country : option string;
  city : option string;
  asn : option string;
  asnOrg : option string;
  isJito : bool;
  jitoCommission : option Z
}.

Record Enriched : Type := {
  base : Validator;
  meta : Metadata;
  pctOfPool : N
}.

Definition e_active (v : Enriched) : N := activeStake (base v).

Definition of_nat (n : nat) : N := of_Z (Z.of_nat n).

(** The key of the commission tally: [String(v.commission)], or ["Unknown"]. *)
Definition commission_key (c : option Z) : string :=
  match c with
  | Some z => NilZero.string_of_int (Z.to_int z)
  | None => "Unknown"
  end.

Record Tallies : Type := {
  countries : list (string * Breakdown.Tally N);
  cities : list (string * Breakdown.Tally N);
  asns : list (string * Breakdown.Tally N);
  versions : list (string * Breakdown.Tally N);
  commissions : list (string * Breakdown.Tally N)
}.

(** One iteration of the loop of lines 164-186. *)
Definition tally1 (t : Tallies) (v : Enriched) : Tallies :=
  if leb (e_active v) zero then t
  else
    let s := e_active v in
    let m := meta v in
    {| countries := Breakdown.bump (Breakdown.or_unknown (country m)) s (countries t);
       cities := Breakdown.bump (Breakdown.or_unknown (city m)) s (cities t);
       asns := Breakdown.bump
                 (Breakdown.or_unknown (Breakdown.or_else (asnOrg m) (asn m))) s (asns t);
       versions := Breakdown.bump (Breakdown.or_unknown (version m)) s (versions t);
       commissions := Breakdown.bump (commission_key (commission m)) s (commissions t) |}.

Definition tallies (enriched : list Enriched) : Tallies :=
  fold_left tally1 enriched
    {| countries := []; cities := []; asns := []; versions := []; commissions := [] |}.

Record Decentralization : Type := {
  nakamotoCoeff33 : nat;
  hhi : N;
  gini : N;
  topValidatorPct : N;
  top10Pct : N
}.

Record StakeStats : Type := {
  mean : N; median : N; max : N; min : N; p10 : N; p90 : N
}.

Record JitoStats : Type := {
  j_validators : nat;
  j_stake : N;
  j_pct : jsval N
}.

Record AccountReport : Type := {
  totalAccounts : nat;
  emptyAccounts : nat;
  r_totalActive : N;
  r_totalDeactivating : N;
  activeValidators : nat;
  decentralization : Decentralization;
  stakeStats : StakeStats;
  stakeBuckets : list (Metrics.bucket N);
  geo_countries : list (Breakdown.Row N);
  geo_topCities : list (Breakdown.Row N);
  geo_topASNs : list (Breakdown.Row N);
  software_versions : list (Breakdown.Row N);
  commissionDistribution : list (Breakdown.Row N);
  jitoStats : JitoStats;
  delinquentCount : nat;
  r_validators : list Enriched
}.

(** The body of the loop over the authorities (lines 92-249) for the stake
    accounts of one authority. *)
Definition analyze (lookup : string -> Metadata) (stakeAccounts : list Rpc.Account)
  : AccountReport :=
  let st := aggregate stakeAccounts in
  let totalActive := totalActive st in
  let sorted := Arr.sort (fun a b => sub (activeStake b) (activeStake a)) (validators st) in
  let activeVals := filter (fun v => gtb (activeStake v) zero) sorted in
  let enriched :=
    map (fun v => {| base := v; meta := lookup (voter v);
                     pctOfPool := if gtb totalActive zero
                                  then mul (div (activeStake v) totalActive) (of_Z 100)
                                  else zero |}) sorted in
  let stakes := map activeStake activeVals in
  let n := List.length stakes in
  let t := tallies enriched in
  let jitoVals := filter (fun v => isJito (meta v) && gtb (e_active v) zero) enriched in
  let jitoStake := sum (map e_active jitoVals) in
  {| totalAccounts := List.length stakeAccounts;
     emptyAccounts := totalEmpty st;
     r_totalActive := totalActive;
     r_totalDeactivating := totalDeactivating st;
     activeValidators := List.length activeVals;
     decentralization :=
       {| nakamotoCoeff33 := Metrics.nakamoto33 stakes totalActive;
          hhi := Metrics.hhi stakes totalActive;
          gini := Metrics.gini stakes;
          topValidatorPct :=
            match nth_error stakes 0 with
            | Some s0 => if truthy s0 then mul (div s0 totalActive) (of_Z 100) else zero
            | None => zero
            end;
          top10Pct := mul (div (Metrics.top_stake 10 stakes) totalActive) (of_Z 100) |};
     stakeStats :=
       {| mean := div totalActive (of_nat (List.length activeVals));
          median := or_zero (at_floor stakes (div (of_nat n) (of_Z 2)));
          max := or_zero (nth_error stakes 0);
          min := or_zero (if (0 <? n)%nat then nth_error stakes (n - 1) else None);
          p10 := or_zero (at_floor stakes (mul (of_nat n) (decimal 1 1)));
          p90 := or_zero (at_floor stakes (mul (of_nat n) (decimal 9 1))) |};
     stakeBuckets := Metrics.fill Metrics.enhanced_buckets (map activeStake activeVals);
     geo_countries := Breakdown.sortObj totalActive (countries t);
     geo_topCities := Arr.slice0 20 (Breakdown.sortObj totalActive (cities t));
     geo_topASNs := Arr.slice0 20 (Breakdown.sortObj totalActive (asns t));
     software_versions := Breakdown.sortObj totalActive (versions t);
     commissionDistribution := Breakdown.sortObj totalActive (commissions t);
     jitoStats :=
       {| j_validators := List.length jitoVals;
          j_stake := jitoStake;
          j_pct := Fmt.toFixed 2 (mul (div jitoStake totalActive) (of_Z 100)) |};
     delinquentCount :=
       List.length (filter (fun v => delinquent (meta v) && gtb (e_active v) zero) enriched);
     r_validators := enriched |}.

(** *** The combined section (lines 257-341) *)

Record Merged : Type := {
  m_voter : string;
  m_totalStake : N;
  m_sources : list (string * N);
  m_name : option string;
  m_country : option string;
  m_asn : option string;          (* [asn: v.asnOrg] *)
  m_commission : option Z;
  m_version : option string;
  m_isJito : bool
}.

Fixpoint assign (key : string) (x : N) (o : list (string * N)) : list (string * N) :=
  match o with
  | [] => [(key, x)]
  | (k, y) :: rest => if String.eqb k key then (k, x) :: rest else (k, y) :: assign key x rest
  end.

(** Lines 261-263 for one validator [v] of the authority [key]. *)
Fixpoint merge1 (key : string) (v : Enriched) (all : list Merged) : list Merged :=
  let upd m := {| m_voter := m_voter m;
                  m_totalStake := add (m_totalStake m) (e_active v);
                  m_sources := assign key (e_active v) (m_sources m);
                  m_name := m_name m; m_country := m_country m; m_asn := m_asn m;
                  m_commission := m_commission m; m_version := m_version m;
                  m_isJito := m_isJito m |} in
  match all with
  | [] => [upd {| m_voter := voter (base v); m_totalStake := zero; m_sources := [];
                  m_name := name (meta v); m_country := country (meta v);
                  m_asn := asnOrg (meta v); m_commission := commission (meta v);
                  m_version := version (meta v); m_isJito := isJito (meta v) |}]
  | m :: rest => if String.eqb (m_voter m) (voter (base v)) then upd m :: rest
                 else m :: merge1 key v rest
  end.

Definition mergeAll (accounts : list (string * AccountReport)) : list Merged :=
  fold_left (fun all kd => fold_left (fun all v => merge1 (fst kd) v all)
                                     (r_validators (snd kd)) all)
            accounts [].

Definition combinedTotal (accounts : list (string * AccountReport)) : N :=
  sum (map m_totalStake (mergeAll accounts)).

Definition combinedSorted (accounts : list (string * AccountReport)) : list Merged :=
  Arr.sort (fun a b => sub (m_totalStake b) (m_totalStake a)) (mergeAll accounts).

(** Lines 272-279: the tally by [v.asn || 'Unknown'] and its values, sorted. *)
Definition asnSorted (sorted : list Merged) : list (string * Breakdown.Tally N) :=
  Arr.sort (fun a b => sub (Breakdown.stake (snd b)) (Breakdown.stake (snd a)))
    (Breakdown.entries
       (fold_left (fun o v => Breakdown.bump (Breakdown.or_unknown (m_asn v))
                                             (m_totalStake v) o) sorted [])).

(** [v.commission > 10]; [null > 10] is false. *)
Definition over (limit : Z) (c : option Z) : bool :=
  match c with Some z => (limit <? z)%Z | None => false end.

Record JitoOver : Type := {
  jo_voter : string; jo_name : option string; jo_jitoCommission : option Z; jo_stake : N
}.

(** Lines 286-293. *)
Definition jitoOverCap (accounts : list (string * AccountReport)) : list JitoOver :=
  flat_map (fun kd =>
    map (fun v => {| jo_voter := voter (base v); jo_name := name (meta v);
                     jo_jitoCommission := jitoCommission (meta v);
                     jo_stake := e_active v |})
        (filter (fun v => isJito (meta v) && over 1000 (jitoCommission (meta v))
                          && gtb (e_active v) zero)
                (r_validators (snd kd)))) accounts.

(** Lines 296-305: the network stake of the validators seen, each once. *)
Definition trackedNetworkStake (accounts : list (string * AccountReport)) : N :=
  fst (fold_left
         (fun acc v =>
            let '(total, seen) := acc in
            if negb (existsb (String.eqb (voter (base v))) seen)
               && gtb (totalNetworkStake (meta v)) zero
            then (add total (totalNetworkStake (meta v)), voter (base v) :: seen)
            else acc)
         (flat_map (fun kd => r_validators (snd kd)) accounts)
         (zero, [])).

Fixpoint get {V : Type} (key : string) (o : list (string * V)) : option V :=
  match o with
  | [] => None
  | (k, v) :: rest => if String.eqb k key then Some v else get key rest
  end.

Record CombinedTop : Type := { top : Merged; pctOfTotal : jsval N }.
Record AsnRow : Type := { asn_name : string; asn_count : nat; asn_stake : N; asn_pct : jsval N }.
Record HighCommission : Type := {
  hc_voter : string; hc_name : option string; hc_commission : option Z; hc_stake : N
}.

Record Combined : Type := {
  totalActiveStake : N;
  uniqueValidators : nat;
  c_nakamotoCoeff33 : nat;
  topValidators : list CombinedTop;
  topASNs : list AsnRow;
  top3ASNPct : jsval N;
  uniqueASNs : nat;
  highCommissionCount : nat;
  highCommission : list HighCommission;
  jitoOverCapCount : nat;
  c_jitoOverCap : list JitoOver;
  sfdpStake : N;
  c_trackedNetworkStake : N;
  sfdpPctOfTracked : jsval N;
  medianStakeSOL : N;
  estAnnualRewardSOL : N;
  validatorsInProgram : nat
}.

(** The combined report; [None] when [result.accounts.mpa4] is undefined,
    where line 308 throws. *)
Definition combined (accounts : list (string * AccountReport)) : option Combined :=
  let total := combinedTotal accounts in
  let sorted := combinedSorted accounts in
  let asnS := asnSorted sorted in
  let top3ASNStake := sum (map (fun a => Breakdown.stake (snd a)) (Arr.slice0 3 asnS)) in
  let allCombinedVals := filter (fun v => gtb (m_totalStake v) zero) sorted in
  let high := filter (fun v => over 10 (m_commission v)) allCombinedVals in
  let jito := jitoOverCap accounts in
  let tracked := trackedNetworkStake accounts in
  match get "mpa4" accounts with
  | None => None
  | Some mpa4 =>
      let medianStake := median (stakeStats mpa4) in
      Some
        {| totalActiveStake := total;
           uniqueValidators := List.length sorted;
           c_nakamotoCoeff33 := Metrics.nakamoto33 (map m_totalStake sorted) total;
           topValidators :=
             map (fun v => {| top := v;
                              pctOfTotal := Fmt.toFixed 2
                                 (mul (div (m_totalStake v) total) (of_Z 100)) |})
                 (Arr.slice0 50 sorted);
           topASNs :=
             map (fun a => {| asn_name := fst a;
                              asn_count := Breakdown.count (snd a);
                              asn_stake := Breakdown.stake (snd a);
                              asn_pct := Fmt.toFixed 2
                                 (mul (div (Breakdown.stake (snd a)) total) (of_Z 100)) |})
                 (Arr.slice0 15 asnS);
           top3ASNPct := Fmt.toFixed 1 (mul (div top3ASNStake total) (of_Z 100));
           uniqueASNs := List.length asnS;
           highCommissionCount := List.length high;
           highCommission :=
             map (fun v => {| hc_voter := m_voter v; hc_name := m_name v;
                              hc_commission := m_commission v;
                              hc_stake := m_totalStake v |}) high;
           jitoOverCapCount := List.length jito;
           c_jitoOverCap := jito;
           sfdpStake := total;
           c_trackedNetworkStake := tracked;
           sfdpPctOfTracked :=
             if gtb tracked zero then Fmt.toFixed 1 (mul (div total tracked) (of_Z 100))
             else Null;
           medianStakeSOL := medianStake;
           estAnnualRewardSOL := mul medianStake (decimal 65 3);
           validatorsInProgram :=
             List.length (filter (fun v => gtb (m_totalStake v) zero) sorted) |}
  end.

(** [main] without the network calls: [lookup] is the metadata fetched,
    [fetched] the stake accounts of each authority in the order of
    [Object.entries(AUTHORITIES)]. *)
Definition main (lookup : string -> Metadata) (fetched : list (string * list Rpc.Account))
  : list (string * AccountReport) * option Combined :=
  let accounts := map (fun kf => (fst kf, analyze lookup (snd kf))) fetched in
  (accounts, combined accounts).
End Enhanced.
End Enhanced.

(** ** [collect-network.js], first document: the whole-network collector *)

Module Network.
Open Scope string_scope.
Section Network.
Context {N : Type} `{Number N}.

(** An entry of [getVoteAccounts]. *)
Record VoteAccount : Type := {
  votePubkey : string;
  activatedStake : Z;
  va_commission : option Z
}.

(** What lines 52-75 read from the stakewiz map for a vote account, after
    their defaults; the fields that no metric reads are left out. *)
Record Metadata : Type := {
  version : option string;
  country : option string;
  city : option string;
  asn : option string;
  asnOrg : option string;
  isJito : bool
}.

Record Validator : Type := {
  voter : string;
  stake : N;
  commission : option Z;
  delinquent : bool;
  meta : Metadata
}.

(** Lines 49-77, over [[...current, ...delinquent]] ([delinquents] here). *)
Definition build (lookup : string -> Metadata) (current delinquents : list VoteAccount)
  : list Validator * N :=
  let mk (d : bool) (v : VoteAccount) :=
    {| voter := votePubkey v;
       stake := div (of_Z (activatedStake v)) (of_Z 1000000000);
       commission := va_commission v;
       delinquent := d;
       meta := lookup (votePubkey v) |} in
  let allVals := (map (mk false) current ++ map (mk true) delinquents)%list in
  (allVals, fold_left (fun total v => add total (stake v)) allVals zero).

Record Tallies : Type := {
  countries : list (string * Breakdown.Tally N);
  cities : list (string * Breakdown.Tally N);
  asns : list (string * Breakdown.Tally N);
  versions : list (string * Breakdown.Tally N);
  commissions : list (string * Breakdown.Tally N)
}.

Definition commission_key (c : option Z) : string :=
  match c with
  | Some z => NilZero.string_of_int (Z.to_int z)
  | None => "Unknown"
  end.

(** One iteration of the loop of lines 112-124. *)
Definition tally1 (t : Tallies) (v : Validator) : Tallies :=
  let s := stake v in
  let m := meta v in
  {| countries := Breakdown.bump (Breakdown.or_unknown (country m)) s (countries t);
     cities := Breakdown.bump (Breakdown.or_unknown (city m)) s (cities t);
     asns := Breakdown.bump
               (Breakdown.or_unknown (Breakdown.or_else (asnOrg m) (asn m))) s (asns t);
     versions := Breakdown.bump (Breakdown.or_unknown (version m)) s (versions t);
     commissions := Breakdown.bump (commission_key (commission v)) s (commissions t) |}.

Definition tallies (allVals : list Validator) : Tallies :=
  fold_left tally1 allVals
    {| countries := []; cities := []; asns := []; versions := []; commissions := [] |}.

(** Lines 173-179: the voters of the prefix that reaches [total * 0.33]. *)
Fixpoint superminorityVals (threshold running : N) (vals : list Validator) : list string :=
  match vals with
  | [] => []
  | v :: rest =>
      let running := add running (stake v) in
      if geb running threshold then [voter v]
      else voter v :: superminorityVals threshold running rest
  end.

(** [ToNumber(undefined)]: NaN, which binary64 computes as [0 / 0]. *)
Definition of_undefined : N := div zero zero.

Record Decentralization : Type := {
  nakamotoCoeff33 : nat;
  superminorityCount : nat;
  hhi : N;
  gini : N;
  topValidatorPct : N;
  top10Pct : N;
  top20Pct : N;
  top50Pct : N
}.

(** [max], [min], [p10] and [p90] are array reads without a default:
    [None] is [undefined]. *)
Record StakeStats : Type := {
  mean : N; median : N; max : option N; min : option N; p10 : option N; p90 : option N
}.

Record Listed : Type := {
  listed : Validator;
  pctOfTotal : jsval N;
  isSuperminority : bool
}.

Record Report : Type := {
  totalStake : N;
  totalValidators : nat;
  currentValidators : nat;
  delinquentValidators : nat;
  decentralization : Decentralization;
  stakeStats : StakeStats;
  stakeBuckets : list (Metrics.bucket N);
  geo_countries : list (Breakdown.Row N);
  geo_topCities : list (Breakdown.Row N);
  geo_topASNs : list (Breakdown.Row N);
  top3ASNPct : jsval N;
  uniqueASNs : nat;
  uniqueCountries : nat;
  uniqueCities : nat;
  software_versions : list (Breakdown.Row N);
  commissionDistribution : list (Breakdown.Row N);
  jito_validators : nat;
  jito_stake : N;
  jito_pct : jsval N;
  superminorityVoters : list string;
  validators : list Listed
}.

Definition of_nat (n : nat) : N := of_Z (Z.of_nat n).

(** [main] without the network calls and without the continent table
    (lines 131-150, one more tally of the same shape). *)
Definition main (lookup : string -> Metadata) (current delinquents : list VoteAccount)
  : Report :=
  let '(unsorted, totalStake) := build lookup current delinquents in
  let allVals := Arr.sort (fun a b => sub (stake b) (stake a)) unsorted in
  let stakes := map stake allVals in
  let n := List.length stakes in
  let t := tallies allVals in
  let jitoVals := filter (fun v => isJito (meta v)) allVals in
  let jitoStake := sum (map stake jitoVals) in
  let superVals := superminorityVals (mul totalStake (decimal 33 2)) zero allVals in
  let asnS := Breakdown.sortObj totalStake (asns t) in
  let top3ASNStake := sum (map (@Breakdown.r_stake N) (Arr.slice0 3 asnS)) in
  let pct x := mul (div x totalStake) (of_Z 100) in
  {| totalStake := totalStake;
     totalValidators := List.length allVals;
     currentValidators := List.length current;
     delinquentValidators := List.length delinquents;
     decentralization :=
       {| nakamotoCoeff33 := Metrics.nakamoto33 stakes totalStake;
          superminorityCount := Metrics.superminority stakes totalStake;
          hhi := Metrics.hhi stakes totalStake;
          gini := Metrics.gini stakes;
          topValidatorPct := pct (match nth_error stakes 0 with
                                  | Some s => s | None => of_undefined end);
          top10Pct := pct (Metrics.top_stake 10 stakes);
          top20Pct := pct (Metrics.top_stake 20 stakes);
          top50Pct := pct (Metrics.top_stake 50 stakes) |};
     stakeStats :=
       {| mean := div totalStake (of_nat (List.length allVals));
          median := or_zero (at_floor stakes (div (of_nat n) (of_Z 2)));
          max := nth_error stakes 0;
          min := if (0 <? n)%nat then nth_error stakes (n - 1) else None;
          p10 := at_floor stakes (mul (of_nat n) (decimal 1 1));
          p90 := at_floor stakes (mul (of_nat n) (decimal 9 1)) |};
     stakeBuckets := Metrics.fill Metrics.network_buckets stakes;
     geo_countries := Arr.slice0 30 (Breakdown.sortObj totalStake (countries t));
     geo_topCities := Arr.slice0 30 (Breakdown.sortObj totalStake (cities t));
     geo_topASNs := Arr.slice0 30 asnS;
     top3ASNPct := Fmt.toFixed 1 (pct top3ASNStake);
     uniqueASNs := List.length (asns t);
     uniqueCountries := List.length (countries t);
     uniqueCities := List.length (cities t);
     software_versions := Breakdown.sortObj totalStake (versions t);
     commissionDistribution := Breakdown.sortObj totalStake (commissions t);
     jito_validators := List.length jitoVals;
     jito_stake := jitoStake;
     jito_pct := Fmt.toFixed 2 (pct jitoStake);
     superminorityVoters := superVals;
     validators :=
       map (fun v => {| listed := v;
                        pctOfTotal := Fmt.toFixed 4 (pct (stake v));
                        isSuperminority := existsb (String.eqb (voter v)) superVals |})
           allVals |}.
End Network.
End Network.

(** ** The formulas of the specification

    Definitions that follow the words of the specification, to compare the
    loops of the source with. *)

Module Spec.
Section Spec.
Context {N : Type} `{Number N}.

(** "for [n] entries sorted ascending [a[0..n-1]],
    [gini = sum_i ((2*(i+1) - n - 1) * a[i]) / (n * sum a)]". *)
Definition gini_formula (a : list N) : N :=
  let n := List.length a in
  div (sum (map (fun i => mul (of_Z (2 * (Z.of_nat i + 1) - Z.of_nat n - 1)) (nth i a zero))
                (seq 0 n)))
      (mul (of_Z (Z.of_nat n)) (sum a)).

(** "plain ratios multiplied by 100": [x / total * 100]. *)
Definition percent (x total : N) : N := mul (div x total) (of_Z 100).

(** "StakeDistribution: an ordered sequence of active stakes, descending",
    of the "validators with [activeStake > 0]". *)
Definition distribution (stakes : list N) : list N :=
  Arr.sort (fun a b => sub b a) (filter (fun s => gtb s zero) stakes).

(** "ConcentrationMetrics ... All are pure functions of StakeDistribution
    and totalActiveStake": the metrics of the two SFDP collectors, as
    functions of a distribution and a total. *)
Definition sfdp_metrics (stakes : list N) (total : N) : @Sfdp.Decentralization N :=
  {| Sfdp.nakamotoCoeff33 := Metrics.nakamoto33 stakes total;
     Sfdp.superminorityCount := Metrics.superminority stakes total;
     Sfdp.hhi := Metrics.hhi stakes total;
     Sfdp.gini := Metrics.gini stakes |}.

Definition enhanced_metrics (stakes : list N) (total : N) : @Enhanced.Decentralization N :=
  {| Enhanced.nakamotoCoeff33 := Metrics.nakamoto33 stakes total;
     Enhanced.hhi := Metrics.hhi stakes total;
     Enhanced.gini := Metrics.gini stakes;
     Enhanced.topValidatorPct :=
       match nth_error stakes 0 with
       | Some s0 => if truthy s0 then percent s0 total else zero
       | None => zero
       end;
     Enhanced.top10Pct := percent (Metrics.top_stake 10 stakes) total |}.


(** The merged distribution of [collect], in the order of the Nakamoto loop,
    and its total. *)
Definition merged_stakes (fetched : list (string * list Rpc.Account)) : list N :=
  map (@Sfdp.m_totalStake N) (Sfdp.combinedSorted (fst (Sfdp.collect fetched))).



(** [x] is not moved behind [y] by a sort with the comparator [cmp]. *)
Definition stays {A : Type} (cmp : A -> A -> N) (x y : A) : Prop :=
  gtb (cmp x y) zero = false.

(** Descending order of exact numbers. *)
Definition descending (a b : Qc) : Prop := (b <= a)%Qc.

(** "fixed, ordered, half-open ranges": the ranges start at [lo], each
    ends where the next starts, and the last one has no upper end. *)
Inductive ranges : N -> list (Metrics.bucket N) -> Prop :=
| ranges_last (lo : N) (b : Metrics.bucket N) :
    Metrics.min b = lo -> Metrics.max b = None -> ranges lo [b]
| ranges_next (lo hi : N) (b : Metrics.bucket N) (rest : list (Metrics.bucket N)) :
    Metrics.min b = lo -> Metrics.max b = Some hi -> ltb lo hi = true ->
    ranges hi rest -> ranges lo (b :: rest).


(** A bucket after one more stake [v] was put into it. *)
Definition credited (v : N) (b : Metrics.bucket N) : Metrics.bucket N :=
  {| Metrics.label := Metrics.label b; Metrics.min := Metrics.min b;
     Metrics.max := Metrics.max b; Metrics.count := S (Metrics.count b);
     Metrics.stake := add (Metrics.stake b) v |}.


(** The aggregate of one voter, read off the records: "one aggregate per
    distinct voter identity", "summing active and deactivating stake"; sums
    run in the order of the records. *)
Definition delegations (accounts : list Rpc.Account) : list Rpc.Delegation :=
  flat_map (fun a => match a with Some d => [d] | None => [] end) accounts.

Definition stake_of (d : Rpc.Delegation) : N := div (of_Z (Rpc.stake d)) (of_Z 1000000000).

Definition of_voter (k : string) (d : Rpc.Delegation) : bool := String.eqb (Rpc.voter d) k.

(** The distinct voters, in the order of their first record. *)
Definition see (seen : list string) (d : Rpc.Delegation) : list string :=
  if existsb (String.eqb (Rpc.voter d)) seen then seen else seen ++ [Rpc.voter d].

Definition voters (accounts : list Rpc.Account) : list string :=
  fold_left see (delegations accounts) [].

Definition stakes_of (k : string) (deactivating : bool) (accounts : list Rpc.Account)
  : list N :=
  map stake_of
      (filter (fun d => of_voter k d && Bool.eqb (Rpc.deactivating d) deactivating)
              (delegations accounts)).

Definition accounts_of (k : string) (accounts : list Rpc.Account) : nat :=
  List.length (filter (of_voter k) (delegations accounts)).

Definition aggregate_of (accounts : list Rpc.Account) (k : string) : @Enhanced.Validator N :=
  {| Enhanced.voter := k;
     Enhanced.activeStake := sum (stakes_of k false accounts);
     Enhanced.deactivatingStake := sum (stakes_of k true accounts);
     Enhanced.accounts := accounts_of k accounts |}.

(** What [allValidators] lists of an entry of [analyzeStakeAccounts]: the
    fields that [collect-enhanced.js] keeps. *)
Definition listed (v : @Sfdp.Validator N) : @Enhanced.Validator N :=
  {| Enhanced.voter := Sfdp.voter v;
     Enhanced.activeStake := Sfdp.activeStake v;
     Enhanced.deactivatingStake := Sfdp.deactivatingStake v;
     Enhanced.accounts := Sfdp.stakeAccounts v |}.
End Spec.
End Spec.

(** ** The continent table of the whole-network collector *)

Module Continents.
Open Scope string_scope.

(** Lines 131-144 of [collect-network.js]. *)
Definition COUNTRY_CONTINENT : list (string * string) :=
  [ ("United States", "North America"); ("Canada", "North America");
    ("Mexico", "North America");
    ("Brazil", "South America"); ("Argentina", "South America");
    ("Chile", "South America"); ("Colombia", "South America"); ("Peru", "South America");
    ("Germany", "Europe"); ("Netherlands", "Europe"); ("France", "Europe");
    ("United Kingdom", "Europe"); ("Ireland", "Europe");
    ("Sweden", "Europe"); ("Norway", "Europe"); ("Poland", "Europe");
    ("Ukraine", "Europe"); ("Romania", "Europe"); ("Spain", "Europe");
    ("Austria", "Europe"); ("Bulgaria", "Europe"); ("Czech Republic", "Europe");
    ("Estonia", "Europe"); ("Latvia", "Europe");
    ("Luxembourg", "Europe"); ("Russia", "Europe"); ("Republic of Lithuania", "Europe");
    ("Slovak Republic", "Europe");
    ("Finland", "Europe"); ("Denmark", "Europe"); ("Belgium", "Europe");
    ("Portugal", "Europe"); ("Italy", "Europe");
    ("Switzerland", "Europe"); ("Lithuania", "Europe"); ("Turkey", "Europe");
    ("Japan", "Asia"); ("Singapore", "Asia"); ("Hong Kong", "Asia");
    ("South Korea", "Asia"); ("India", "Asia");
    ("Thailand", "Asia"); ("Indonesia", "Asia"); ("Taiwan", "Asia");
    ("Philippines", "Asia"); ("Vietnam", "Asia"); ("Israel", "Asia");
    ("South Africa", "Africa"); ("Australia", "Oceania"); ("New Zealand", "Oceania") ].

(** [COUNTRY_CONTINENT[v.country] || "Other"].  [v.country] is a country name
    of the stakewiz data or [null] (the key ["null"], which the table does not
    hold); a country name is no name that [Object.prototype] defines. *)
Definition continent (country : option string) : string :=
  match country with
  | Some c => match Enhanced.get c COUNTRY_CONTINENT with
              | Some k => k
              | None => "Other"
              end
  | None => "Other"
  end.

Section Continents.
Context {N : Type} `{Number N}.

(** [geographic.continents] of the report: the tally of lines 145-150 over
    the sorted validators, through [sortObj]. *)
Definition continents (lookup : string -> Network.Metadata)
           (current delinquents : list Network.VoteAccount) : list (Breakdown.Row N) :=
  let '(unsorted, totalStake) := Network.build lookup current delinquents in
  let allVals := Arr.sort (fun a b => sub (Network.stake b) (Network.stake a)) unsorted in
  Breakdown.sortObj totalStake
    (fold_left (fun o v => Breakdown.bump (continent (Network.country (Network.meta v)))
                                          (Network.stake v) o)
               allVals []).
End Continents.
End Continents.

(** ** The metadata maps: stakewiz, vote accounts, block production *)

Module Sources.
Open Scope string_scope.

(** [o[k] = v] on an object kept as the list of its entries; [o[k]] is
    [Enhanced.get]. *)
Fixpoint set {V : Type} (k : string) (v : V) (o : list (string * V)) : list (string * V) :=
  match o with
  | [] => [(k, v)]
  | (k', v') :: rest => if String.eqb k' k then (k', v) :: rest else (k', v') :: set k v rest
  end.

(** [x || null] on a string or [null], and on a number or [null]. *)
Definition nonempty (x : option string) : option string :=
  match x with
  | Some s => if String.eqb s "" then None else Some s
  | None => None
  end.

Definition nonzero (x : option Z) : option Z :=
  match x with
  | Some z => if (z =? 0)%Z then None else Some z
  | None => None
  end.

(** [a ?? b]. *)
Definition nullish {A : Type} (a b : option A) : option A :=
  match a with Some _ => a | None => b end.

Section Sources.
Context {N : Type} `{Number N}.

(** An entry of the stakewiz list, with the fields that the collectors read
    into their reports' metrics: strings, numbers and booleans as the API
    gives them, [None] for [null] or an absent field.  The fields that are
    only copied ([wiz_score], [total_apy], [apy_estimate],
    [superminority_penalty], [stake_weight], [asn_concentration],
    [city_concentration]) are left out. *)
Record Stakewiz : Type := {
  vote_identity : string;
  identity : option string;
  name : option string;
  commission : option Z;
  version : option string;
  delinquent : bool;
  ip_country : option string;
  ip_city : option string;
  asn : option string;
  ip_asn : option string;
  ip_org : option string;
  is_jito : bool;
  jito_commission_bps : option Z;
  wiz_skip_rate : option N
}.

(** [for (const v of stakewizData) valMap[v.vote_identity] = v;] *)
Definition valMap (stakewizData : list Stakewiz) : list (string * Stakewiz) :=
  fold_left (fun m v => set (vote_identity v) v m) stakewizData [].

(** An entry of [voteMap] ([lastVote], which nothing reads, is left out). *)
Record VoteInfo : Type := {
  vi_commission : option Z;
  vi_activatedStake : Z;
  vi_delinquent : bool
}.

(** Lines 55-67 of [collect-enhanced.js]: every vote account is entered as
    not delinquent, then the entries of the delinquent ones are flagged. *)
Definition voteMap (current delinquents : list Network.VoteAccount)
  : list (string * VoteInfo) :=
  let entered :=
    fold_left (fun m v => set (Network.votePubkey v)
                              {| vi_commission := Network.va_commission v;
                                 vi_activatedStake := Network.activatedStake v;
                                 vi_delinquent := false |} m)
              (current ++ delinquents)%list [] in
  fold_left (fun m v => match Enhanced.get (Network.votePubkey v) m with
                        | Some i => set (Network.votePubkey v)
                                        {| vi_commission := vi_commission i;
                                           vi_activatedStake := vi_activatedStake i;
                                           vi_delinquent := true |} m
                        | None => m
                        end)
            delinquents entered.

(** An entry of [bpMap]. *)
Record Production : Type := {
  leaderSlots : Z;
  blocksProduced : Z;
  skipRate : N
}.

(** [slots > 0 ? ((slots - blocks) / slots * 100) : 0] *)
Definition skip_rate (slots blocks : Z) : N :=
  if gtb (of_Z slots) zero
  then mul (div (sub (of_Z slots) (of_Z blocks)) (of_Z slots)) (of_Z 100)
  else zero.

(** The loop over [Object.entries(bp.value?.byIdentity || {})]. *)
Definition bpMap (byIdentity : list (string * (Z * Z))) : list (string * Production) :=
  fold_left (fun m e => set (fst e)
                            {| leaderSlots := fst (snd e);
                               blocksProduced := snd (snd e);
                               skipRate := skip_rate (fst (snd e)) (snd (snd e)) |} m)
            byIdentity [].

(** What lines 116-139 of [collect-enhanced.js] read for the voter [k]:
    [sw = valMap[k] || {}] and [va = voteMap[k] || {}]. *)
Definition metadata (valMap : list (string * Stakewiz)) (voteMap : list (string * VoteInfo))
           (k : string) : @Enhanced.Metadata N :=
  let sw := Enhanced.get k valMap in
  let va := Enhanced.get k voteMap in
  let of_sw {A : Type} (f : Stakewiz -> option A) : option A :=
    match sw with Some s => f s | None => None end in
  {| Enhanced.name := nonempty (of_sw name);
     Enhanced.commission :=
       nullish (match va with Some i => vi_commission i | None => None end)
               (of_sw commission);
     Enhanced.totalNetworkStake :=
       div (of_Z (match va with Some i => vi_activatedStake i | None => 0%Z end))
           (of_Z 1000000000);
     Enhanced.version := nonempty (of_sw version);
     Enhanced.delinquent :=
       match va with Some i => vi_delinquent i | None => false end
       || match sw with Some s => delinquent s | None => false end;
     Enhanced.country := nonempty (of_sw ip_country);
     Enhanced.city := nonempty (of_sw ip_city);
     Enhanced.asn := nonempty (Breakdown.or_else (of_sw asn) (of_sw ip_asn));
     Enhanced.asnOrg := nonempty (of_sw ip_org);
     Enhanced.isJito := match sw with Some s => is_jito s | None => false end;
     Enhanced.jitoCommission := nonzero (of_sw jito_commission_bps) |}.

(** The performance fields of lines 126-128 (and of lines 69-71 of
    [collect-network.js]), with [bpd = bpMap[sw.identity] || {}]:
    [sw.wiz_skip_rate ?? bpd.skipRate ?? null], [bpd.leaderSlots || null] and
    [bpd.blocksProduced || null]. *)
Record Performance : Type := {
  p_skipRate : option N;
  p_leaderSlots : option Z;
  p_blocksProduced : option Z
}.

Definition performance (valMap : list (string * Stakewiz))
           (bpMap : list (string * Production)) (k : string) : Performance :=
  let sw := Enhanced.get k valMap in
  let bpd := match sw with
             | Some s => match identity s with
                         | Some id => Enhanced.get id bpMap
                         | None => None
                         end
             | None => None
             end in
  {| p_skipRate := nullish (match sw with Some s => wiz_skip_rate s | None => None end)
                           (option_map skipRate bpd);
     p_leaderSlots := nonzero (option_map leaderSlots bpd);
     p_blocksProduced := nonzero (option_map blocksProduced bpd) |}.

(** What lines 52-76 of [collect-network.js] read for the vote account [k]:
    [m = swMap[k] || {}]. *)
Definition network_metadata (swMap : list (string * Stakewiz)) (k : string)
  : Network.Metadata :=
  let of_sw {A : Type} (f : Stakewiz -> option A) : option A :=
    match Enhanced.get k swMap with Some s => f s | None => None end in
  {| Network.version := nonempty (of_sw version);
     Network.country := nonempty (of_sw ip_country);
     Network.city := nonempty (of_sw ip_city);
     Network.asn := nonempty (of_sw ip_asn);
     Network.asnOrg := nonempty (of_sw ip_org);
     Network.isJito := match Enhanced.get k swMap with
                       | Some s => is_jito s
                       | None => false
                       end |}.

(** [main] of [collect-enhanced.js] from what it fetches: the stakewiz list,
    the vote accounts and the stake accounts of each authority. *)
Definition enhanced (stakewizData : list Stakewiz)
           (current delinquents : list Network.VoteAccount)
           (fetched : list (string * list Rpc.Account))
  : list (string * @Enhanced.AccountReport N) * option (@Enhanced.Combined N) :=
  Enhanced.main (metadata (valMap stakewizData) (voteMap current delinquents)) fetched.

(** [main] of [collect-network.js] from what it fetches. *)
Definition network (stakewizData : list Stakewiz)
           (current delinquents : list Network.VoteAccount) : @Network.Report N :=
  Network.main (network_metadata (valMap stakewizData)) current delinquents.
End Sources.
End Sources.

(** ** The files that the collectors write *)

Module Store.
Open Scope string_scope.
Section Store.
(** [C]: the text that [JSON.stringify(result, null, 2)] returns. *)
Context {C : Type}.

(** The files of [DATA_DIR], by name. *)
Definition Files : Type := list (string * C).

Definition existsSync (name : string) (files : Files) : bool :=
  match Enhanced.get name files with Some _ => true | None => false end.

Definition writeFileSync (name : string) (text : C) (files : Files) : Files :=
  Sources.set name text files.

Definition latest : string := "latest.json".
Definition network_latest : string := "network-latest.json".

(** [`snapshot-${epochInfo.epoch}.json`], the epoch being a counter. *)
Definition snapshot (epoch : Z) : string := "snapshot-" ++ Fmt.digits epoch ++ ".json".

(** [collect], lines 492-501 of [collect-network.js]: [latest.json] is
    written, the snapshot of the epoch only when there is none. *)
Definition sfdp_save (epoch : Z) (text : C) (files : Files) : Files :=
  let files := writeFileSync latest text files in
  if existsSync (snapshot epoch) files then files
  else writeFileSync (snapshot epoch) text files.

(** [main] of [collect-enhanced.js], lines 343-344: both files are written. *)
Definition enhanced_save (epoch : Z) (text : C) (files : Files) : Files :=
  writeFileSync (snapshot epoch) text (writeFileSync latest text files).

(** [main] of [collect-network.js], lines 236-237. *)
Definition network_save (text : C) (files : Files) : Files :=
  writeFileSync network_latest text files.
End Store.
End Store.

(** ** Readings of the reports

    Definitions that say what a report holds in terms of its input, to
    compare the loops of the source with. *)

Module Views.
Open Scope string_scope.
Section Views.
Context {N : Type} `{Number N}.

(** The distinct keys of a list, in the order of their first occurrence. *)
Definition note (seen : list string) (k : string) : list string :=
  if existsb (String.eqb k) seen then seen else (seen ++ [k])%list.

Definition categories (keys : list string) : list string := fold_left note keys [].

(** The tally loop [if (!o[k]) o[k] = { count: 0, stake: 0 }; o[k].count++;]
    [o[k].stake += s] over a list of keys and stakes. *)
Definition tally (items : list (string * N)) : list (string * Breakdown.Tally N) :=
  fold_left (fun o kv => Breakdown.bump (fst kv) (snd kv) o) items [].

(** The tally of the category [k], read off the items: how many of them carry
    the key [k], and the sum of their stakes in the order of the items. *)
Definition tally_of (items : list (string * N)) (k : string) : Breakdown.Tally N :=
  let mine := filter (fun kv => String.eqb (fst kv) k) items in
  {| Breakdown.count := List.length mine; Breakdown.stake := sum (map snd mine) |}.

(** The rows of a breakdown, one for each category, before they are sorted. *)
Definition rows_of (total : N) (items : list (string * N)) : list (Breakdown.Row N) :=
  map (fun k =>
         let t := tally_of items k in
         {| Breakdown.name := k;
            Breakdown.r_count := Breakdown.count t;
            Breakdown.r_stake := Breakdown.stake t;
            Breakdown.pct :=
              Fmt.toFixed 2 (mul (div (Breakdown.stake t) total) (of_Z 100)) |})
      (categories (map fst items)).

(** The validators that the tally loop of [collect-enhanced.js] does not skip
    ([if (v.activeStake <= 0) continue;]), with the key [key] reads from their
    metadata. *)
Definition enhanced_items (key : @Enhanced.Metadata N -> string)
           (vals : list (@Enhanced.Enriched N)) : list (string * N) :=
  map (fun v => (key (Enhanced.meta v), Enhanced.e_active v))
      (filter (fun v => negb (leb (Enhanced.e_active v) zero)) vals).

(** The validators of the whole-network collector with the key that [key]
    reads from them. *)
Definition network_items (key : @Network.Validator N -> string)
           (vals : list (@Network.Validator N)) : list (string * N) :=
  map (fun v => (key v, Network.stake v)) vals.

(** The keys of the five tallies of [collect-enhanced.js] (lines 165-169). *)
Definition e_country (m : @Enhanced.Metadata N) : string :=
  Breakdown.or_unknown (Enhanced.country m).
Definition e_city (m : @Enhanced.Metadata N) : string :=
  Breakdown.or_unknown (Enhanced.city m).
Definition e_asn (m : @Enhanced.Metadata N) : string :=
  Breakdown.or_unknown (Breakdown.or_else (Enhanced.asnOrg m) (Enhanced.asn m)).
Definition e_version (m : @Enhanced.Metadata N) : string :=
  Breakdown.or_unknown (Enhanced.version m).
Definition e_commission (m : @Enhanced.Metadata N) : string :=
  Enhanced.commission_key (Enhanced.commission m).

(** The keys of the tallies of [collect-network.js] (lines 113-117 and 146). *)
Definition n_country (v : @Network.Validator N) : string :=
  Breakdown.or_unknown (Network.country (Network.meta v)).
Definition n_city (v : @Network.Validator N) : string :=
  Breakdown.or_unknown (Network.city (Network.meta v)).
Definition n_asn (v : @Network.Validator N) : string :=
  Breakdown.or_unknown (Breakdown.or_else (Network.asnOrg (Network.meta v))
                                          (Network.asn (Network.meta v))).
Definition n_version (v : @Network.Validator N) : string :=
  Breakdown.or_unknown (Network.version (Network.meta v)).
Definition n_commission (v : @Network.Validator N) : string :=
  Network.commission_key (Network.commission v).
Definition n_continent (v : @Network.Validator N) : string :=
  Continents.continent (Network.country (Network.meta v)).

(** The distribution that the two SFDP collectors compute their metrics
    from: the active stakes above zero of the validators of the stake
    accounts, in descending order. *)
Definition active_stakes (accounts : list Rpc.Account) : list N :=
  Spec.distribution (map (@Sfdp.activeStake N) (Sfdp.validators (Sfdp.aggregate accounts))).

(** The stakes that the whole-network collector computes its metrics from:
    those of all the validators it lists, in the order of the listing. *)
Definition network_stakes (r : @Network.Report N) : list N :=
  map (fun l => Network.stake (Network.listed l)) (Network.validators r).

(** A bucket of a table after the stakes were put into the table, read off
    the stakes: it counts the stakes of its range and adds them up. *)
Definition bucket_of (stakes : list N) (b : Metrics.bucket N) : Metrics.bucket N :=
  let mine := filter (fun v => Metrics.in_bucket v b) stakes in
  {| Metrics.label := Metrics.label b;
     Metrics.min := Metrics.min b;
     Metrics.max := Metrics.max b;
     Metrics.count := Metrics.count b + List.length mine;
     Metrics.stake := fold_left add mine (Metrics.stake b) |}.

(** The validators that the sources of [collect] list, source by source,
    each with the key of its source. *)
Definition listings (sources : list (string * @Sfdp.Analysis N))
  : list (string * @Sfdp.Listed N) :=
  flat_map (fun kd => map (fun v => (fst kd, v)) (Sfdp.allValidators (snd kd))) sources.

(** The merged entry of the voter [k], read off the listings: the sum of the
    active stakes listed for [k], in the order of the listings, and the object
    that holds them by source. *)
Definition merged_of (items : list (string * @Sfdp.Listed N)) (k : string)
  : @Sfdp.Merged N :=
  let mine := filter (fun kv => String.eqb (Sfdp.l_voter (snd kv)) k) items in
  {| Sfdp.m_voter := k;
     Sfdp.m_totalStake := sum (map (fun kv => Sfdp.l_activeStake (snd kv)) mine);
     Sfdp.sources :=
       fold_left (fun o kv => Sfdp.assign (fst kv) (Sfdp.l_activeStake (snd kv)) o) mine [] |}.

(** The voters that the reports of the authorities list, in the order of
    the listings, and the network stake of the distinct ones among them that
    have some: what [foundationVsNetwork.trackedNetworkStake] is to hold. *)
Definition listed_voters (accounts : list (string * @Enhanced.AccountReport N))
  : list string :=
  map (fun v => Enhanced.voter (Enhanced.base v))
      (flat_map (fun kd => Enhanced.r_validators (snd kd)) accounts).

Definition tracked (lookup : string -> @Enhanced.Metadata N) (voters : list string) : N :=
  sum (map (fun k => Enhanced.totalNetworkStake (lookup k))
           (filter (fun k => gtb (Enhanced.totalNetworkStake (lookup k)) zero)
                   (categories voters))).

(** What a merged entry of the enhanced collector keeps of the metadata of
    its validator: the commission and the name. *)
Definition reads (lookup : string -> @Enhanced.Metadata N) (m : @Enhanced.Merged N) : Prop :=
  Enhanced.m_commission m = Enhanced.commission (lookup (Enhanced.m_voter m)) /\
  Enhanced.m_name m = Enhanced.name (lookup (Enhanced.m_voter m)).

(** The breakdown of validators that all fall into the category [name]:
    no row when there is no validator, else one row that counts them and adds
    up their stakes. *)
Definition lone (name : string) (total : N) (stakes : list N) : list (Breakdown.Row N) :=
  match stakes with
  | [] => []
  | _ :: _ =>
      [{| Breakdown.name := name;
          Breakdown.r_count := List.length stakes;
          Breakdown.r_stake := sum stakes;
          Breakdown.pct := Fmt.toFixed 2 (mul (div (sum stakes) total) (of_Z 100)) |}]
  end.

(** The sums of the counts and of the stakes of the rows of a breakdown. *)
Definition rows_count (rows : list (Breakdown.Row N)) : nat :=
  list_sum (map (@Breakdown.r_count N) rows).

Definition rows_stake (rows : list (Breakdown.Row N)) : N :=
  sum (map (@Breakdown.r_stake N) rows).
End Views.

(** A top list: the first [n] rows of the rows arranged by stake, in
    descending order. *)
Definition top_rows (n : nat) (top rows : list (Breakdown.Row Qc)) : Prop :=
  exists all, Permutation all rows /\
              StronglySorted Spec.descending (map (@Breakdown.r_stake Qc) all) /\
              top = firstn n all.

(** The weighted sum of the Gini loop over a whole list, and the sum of the
    squares that the HHI loop adds up (before the division by the total). *)
Definition weighted (l : list Qc) : Qc :=
  sum (map (fun i => (Metrics.gini_weight (List.length l) i * nth i l 0)%Qc)
           (seq 0 (List.length l))).

Definition squares (l : list Qc) : Qc := sum (map (fun s => (s * s)%Qc) l).
End Views.

(** ** Sample inputs *)

Module Samples.
Open Scope string_scope.

(** A stake account of [lamports] delegated to [voter], active or
    deactivating at epoch 700. *)
Definition delegation (lamports : Z) (voter : string) (active : bool) : Rpc.Account :=
  Some {| Rpc.stake := lamports;
          Rpc.voter := voter;
          Rpc.deactivationEpoch := if active then Rpc.NOT_DEACTIVATING else "700";
          Rpc.activationEpoch := 650 |}.

(** Three accounts of one voter: 0.1, 0.2 and 0.3 SOL. *)
Definition one_voter : list Rpc.Account :=
  [delegation 100000000 "A" true; delegation 200000000 "A" true;
   delegation 300000000 "A" true].

(** Three voters with 0.1, 0.2 and 0.3 SOL. *)
Definition three_voters : list Rpc.Account :=
  [delegation 100000000 "A" true; delegation 200000000 "B" true;
   delegation 300000000 "C" true].

(** The examples of the specification: two voters with 500 SOL each, and
    three voters with 600, 300 and 100 SOL. *)
Definition two_equal : list Rpc.Account :=
  [delegation 500000000000 "A" true; delegation 500000000000 "B" true].

Definition six_three_one : list Rpc.Account :=
  [delegation 600000000000 "A" true; delegation 300000000000 "B" true;
   delegation 100000000000 "C" true].

(** Five voters with 0.1 SOL each. *)
Definition five_equal : list Rpc.Account :=
  [delegation 100000000 "A" true; delegation 100000000 "B" true;
   delegation 100000000 "C" true; delegation 100000000 "D" true;
   delegation 100000000 "E" true].

(** One voter with 0.1 SOL active, 0.1 SOL deactivating, 0.4 SOL active. *)
Definition mixed : list Rpc.Account :=
  [delegation 100000000 "A" true; delegation 100000000 "A" false;
   delegation 400000000 "A" true].
(** Voter A with 2 SOL and voter B with 1 SOL. *)
Definition two_to_one : list Rpc.Account :=
  [delegation 2000000000 "A" true; delegation 1000000000 "B" true].


(** [n] voters V0, V1, ... with 10 SOL each, followed by voters T0, T1, ...
    with the stakes of [tail]. *)
Definition named (prefix : string) (i : nat) : string :=
  prefix ++ Fmt.digits (Z.of_nat i).

Definition crowd (n : nat) (tail : list Z) : list Rpc.Account :=
  (map (fun i => delegation 10000000000 (named "V" i) true) (seq 0 n)
   ++ map (fun iz => delegation (snd iz) (named "T" (fst iz)) true)
          (combine (seq 0 (List.length tail)) tail))%list.

(** Twenty-five validators with 10 SOL and two more with 3 and 1 SOL, or
    with 2 and 2 SOL, all under the first authority. *)
Definition uneven : list (string * list Rpc.Account) :=
  [("firep", crowd 25 [3000000000; 1000000000]%Z); ("mpa4", [])].


(** A vote account with [lamports] of activated stake and no commission. *)
Definition vote (lamports : Z) (pubkey : string) : Network.VoteAccount :=
  {| Network.votePubkey := pubkey; Network.activatedStake := lamports;
     Network.va_commission := Some 0%Z |}.

(** A stakewiz lookup that knows no validator. *)
Definition unlisted : string -> Network.Metadata :=
  fun _ =>
    {| Network.version := None; Network.country := None; Network.city := None;
       Network.asn := None; Network.asnOrg := None; Network.isJito := false |}.

(** A metadata lookup that knows no validator. *)
Definition unknown {N : Type} `{Number N} : string -> @Enhanced.Metadata N :=
  fun _ =>
    {| Enhanced.name := None; Enhanced.commission := None;
       Enhanced.totalNetworkStake := zero; Enhanced.version := None;
       Enhanced.delinquent := false; Enhanced.country := None; Enhanced.city := None;
       Enhanced.asn := None; Enhanced.asnOrg := None; Enhanced.isJito := false;
       Enhanced.jitoCommission := None |}.

(** A stakewiz entry of the vote account [vote], with a country and a Jito
    flag and nothing else. *)
Definition listing {N : Type} `{Number N} (vote : string) (country : option string)
           (jito : bool) : @Sources.Stakewiz N :=
  {| Sources.vote_identity := vote; Sources.identity := None; Sources.name := None;
     Sources.commission := Some 5%Z; Sources.version := None; Sources.delinquent := false;
     Sources.ip_country := country; Sources.ip_city := None; Sources.asn := None;
     Sources.ip_asn := None; Sources.ip_org := None; Sources.is_jito := jito;
     Sources.jito_commission_bps := None; Sources.wiz_skip_rate := None |}.

(** Stakewiz knows the validators A and B; the vote account of A has 7 SOL
    and votes, that of B has 3 SOL and is delinquent. *)
Definition wiz {N : Type} `{Number N} : list (@Sources.Stakewiz N) :=
  [listing "A" (Some "Germany") true; listing "B" None false].

Definition voting : list Network.VoteAccount := [vote 7000000000 "A"].
Definition lagging : list Network.VoteAccount := [vote 3000000000 "B"].

(** Two authorities: the first delegates 2 SOL to A and 1 SOL to B, the
    second 4 SOL to B. *)
Definition two_pools : list (string * list Rpc.Account) :=
  [("firep", two_to_one); ("mpa4", [delegation 4000000000 "B" true])].

(** A metadata lookup for which every validator is a Jito validator with a
    commission of 12 percent and a Jito commission of 1200 basis points. *)
Definition greedy {N : Type} `{Number N} : string -> @Enhanced.Metadata N :=
  fun _ =>
    {| Enhanced.name := None; Enhanced.commission := Some 12%Z;
       Enhanced.totalNetworkStake := zero; Enhanced.version := None;
       Enhanced.delinquent := false; Enhanced.country := None; Enhanced.city := None;
       Enhanced.asn := None; Enhanced.asnOrg := None; Enhanced.isJito := true;
       Enhanced.jitoCommission := Some 1200%Z |}.
End Samples.

(** * Properties *)

(** ** Facts about the exact instance *)

Module Exact.
Open Scope Qc_scope.

(** Goals about the order of [Qc], sent to [Q] for [lra]. *)
Ltac qc_norm :=
  unfold Qcle, Qclt, Qcdiv, Qcminus, Qcinv, Qcopp, Qcmult, Qcplus in *;
  cbn [this Q2Qc] in *;
  repeat match goal with
         | H : context [Qred ?q] |- _ => rewrite (Qred_correct q) in H
         | |- context [Qred ?q] => rewrite (Qred_correct q)
         end;
  unfold inject_Z in *;
  repeat match goal with
         | H : context [Qinv (?n # ?d)] |- _ =>
             let c := eval compute in (Qinv (n # d)) in
             change (Qinv (n # d)) with c in H
         | |- context [Qinv (?n # ?d)] =>
             let c := eval compute in (Qinv (n # d)) in
             change (Qinv (n # d)) with c
         end.
Ltac qc_lra := qc_norm; lra.

Lemma ltb_lt (a b : Qc) : ltb a b = true <-> a < b.
Proof.
  cbn. unfold Qc_ltb. rewrite Qclt_alt.
  destruct (a ?= b); split; intro; congruence.
Qed.

Lemma leb_le (a b : Qc) : leb a b = true <-> a <= b.
Proof.
  cbn. unfold Qc_leb. rewrite Qcle_alt.
  destruct (a ?= b); split; intro; congruence.
Qed.

Lemma geb_ge (a b : Qc) : geb a b = true <-> b <= a.
Proof. unfold geb. apply leb_le. Qed.

Lemma gtb_gt (a b : Qc) : gtb a b = true <-> b < a.
Proof. unfold gtb. apply ltb_lt. Qed.

Lemma geb_false (a b : Qc) : geb a b = false <-> a < b.
Proof.
  split; intro Hf.
  - apply Qcnot_le_lt. intro Hle. apply geb_ge in Hle. congruence.
  - destruct (geb a b) eqn:E; [ | reflexivity ].
    apply geb_ge in E. exfalso. exact (Qclt_not_le _ _ Hf E).
Qed.

Lemma gtb_false (a b : Qc) : gtb a b = false <-> a <= b.
Proof.
  split; intro Hf.
  - apply Qcnot_lt_le. intro Hlt. apply gtb_gt in Hlt. congruence.
  - destruct (gtb a b) eqn:E; [ | reflexivity ].
    apply gtb_gt in E. exfalso. exact (Qcle_not_lt _ _ Hf E).
Qed.

Lemma zero_0 : zero = 0.
Proof. reflexivity. Qed.

Lemma fold_add_shift (l : list Qc) (a : Qc) :
  fold_left Qcplus l a = a + fold_left Qcplus l 0.
Proof.
  revert a. induction l as [ | x l IH ]; intro a; simpl.
  - ring.
  - rewrite (IH (a + x)), (IH (0 + x)). ring.
Qed.

Lemma sum_nil : sum (@nil Qc) = 0.
Proof. reflexivity. Qed.

Lemma sum_fold (l : list Qc) : sum l = fold_left Qcplus l 0.
Proof. reflexivity. Qed.

Lemma sum_cons (x : Qc) (l : list Qc) : sum (x :: l) = x + sum l.
Proof.
  rewrite !sum_fold. cbn [fold_left]. rewrite fold_add_shift. ring.
Qed.

Lemma sum_app (l1 l2 : list Qc) : sum (l1 ++ l2) = sum l1 + sum l2.
Proof.
  induction l1 as [ | x l1 IH ]; simpl.
  - rewrite sum_nil. ring.
  - rewrite !sum_cons, IH. ring.
Qed.

Lemma sum_perm (l1 l2 : list Qc) : Permutation l1 l2 -> sum l1 = sum l2.
Proof.
  induction 1 as [ | x l l' _ IH | x y l | l l' l'' _ IH1 _ IH2 ].
  - reflexivity.
  - rewrite !sum_cons, IH. reflexivity.
  - rewrite !sum_cons. ring.
  - congruence.
Qed.

Lemma sum_nonneg (l : list Qc) : Forall (fun s => 0 < s) l -> 0 <= sum l.
Proof.
  induction 1 as [ | x l Hx _ IH ].
  - rewrite sum_nil. apply Qcle_refl.
  - rewrite sum_cons. qc_lra.
Qed.

Lemma sum_pos (l : list Qc) : l <> [] -> Forall (fun s => 0 < s) l -> 0 < sum l.
Proof.
  intros Hne Hall. destruct Hall as [ | x l Hx Hl ]; [ congruence | ].
  rewrite sum_cons. pose proof (sum_nonneg Hl). qc_lra.
Qed.
End Exact.

(** ** The Nakamoto loop *)

Module NakamotoFacts.
Import Exact.
Open Scope Qc_scope.

(** What the loop returns from a running sum [r] and a count [c]: it adds
    the length [m] of the shortest non-empty prefix that lifts [r] to the
    threshold, or the whole length when no prefix does. *)
Lemma prefix_loop_spec (thr : Qc) (l : list Qc) :
  forall (r : Qc) (c : nat),
    l <> [] ->
    exists m : nat,
      Metrics.prefix_loop thr r c l = (c + m)%nat /\
      (1 <= m <= List.length l)%nat /\
      (forall j, (1 <= j < m)%nat -> r + sum (firstn j l) < thr) /\
      (thr <= r + sum (firstn m l) \/ m = List.length l).
Proof.
  induction l as [ | s rest IH ]; intros r c Hne; [ congruence | ].
  cbn [Metrics.prefix_loop]. cbn [add exact_number].
  destruct (geb (r + s) thr) eqn:E.
  - exists 1%nat. split; [ lia | ]. split; [ simpl; lia | ]. split.
    + intros j Hj. lia.
    + left. apply geb_ge in E. cbn [firstn]. rewrite sum_cons, sum_nil.
      replace (r + (s + 0)) with (r + s) by ring. exact E.
  - apply geb_false in E. destruct rest as [ | s' rest' ].
    + exists 1%nat. split; [ simpl; lia | ]. split; [ simpl; lia | ]. split.
      * intros j Hj. lia.
      * right. reflexivity.
    + destruct (IH (r + s) (S c)) as (m & Hk & Hm & Hlt & Hge); [ congruence | ].
      exists (S m). split; [ rewrite Hk; lia | ]. split; [ simpl in *; lia | ]. split.
      * intros j Hj. destruct j as [ | j ]; [ lia | ].
        cbn [firstn]. rewrite sum_cons.
        destruct j as [ | j ].
        -- cbn [firstn]. rewrite sum_nil.
           replace (r + (s + 0)) with (r + s) by ring. exact E.
        -- replace (r + (s + sum (firstn (S j) (s' :: rest'))))
             with (r + s + sum (firstn (S j) (s' :: rest'))) by ring.
           apply Hlt. lia.
      * destruct Hge as [ Hge | Hge ].
        -- left. cbn [firstn]. rewrite sum_cons.
           replace (r + (s + sum (firstn m (s' :: rest'))))
             with (r + s + sum (firstn m (s' :: rest'))) by ring.
           exact Hge.
        -- right. simpl in *. lia.
Qed.

(** The loop of the source with a threshold above zero that the stakes
    reach together: it stops at the first prefix that reaches the threshold. *)
Lemma prefix_loop_smallest (thr : Qc) (stakes : list Qc) :
  stakes <> [] -> 0 < thr -> thr <= sum stakes ->
  let k := Metrics.prefix_loop thr zero 0 stakes in
  (1 <= k <= List.length stakes)%nat /\
  thr <= sum (firstn k stakes) /\
  forall j, (j < k)%nat -> sum (firstn j stakes) < thr.
Proof.
  intros Hne Hpos Hreach k.
  destruct (@prefix_loop_spec thr stakes 0 0%nat Hne) as (m & Hk & Hm & Hlt & Hge).
  assert (Ek : k = m) by (subst k; change zero with 0; rewrite Hk; reflexivity).
  split; [ lia | ]. split.
  - rewrite Ek. destruct Hge as [ Hge | Hge ].
    + replace (sum (firstn m stakes)) with (0 + sum (firstn m stakes)) by ring. exact Hge.
    + rewrite Hge, firstn_all. exact Hreach.
  - intros j Hj. destruct j as [ | j ].
    + cbn [firstn]. rewrite sum_nil. exact Hpos.
    + replace (sum (firstn (S j) stakes)) with (0 + sum (firstn (S j) stakes)) by ring.
      apply Hlt. lia.
Qed.


(** The same on the examples of the specification in binary64: for stakes of
    600, 300 and 100 the coefficient is 1, the first entry reaches a third of
    the total and the empty prefix does not; for 27 validators it is 9. *)
Example nakamoto33_binary64 :
  (let stakes : list float := [of_Z 600; of_Z 300; of_Z 100] in
   let third := div (sum stakes) (of_Z 3) in
   Metrics.nakamoto33 stakes (sum stakes) = 1%nat /\
   geb (sum (firstn 1 stakes)) third = true /\
   ltb (sum (firstn 0 stakes)) third = true) /\
  (let stakes := Spec.merged_stakes (N:=float) Samples.uneven in
   let third := div (sum stakes) (of_Z 3) in
   Metrics.nakamoto33 stakes (sum stakes) = 9%nat /\
   geb (sum (firstn 9 stakes)) third = true /\
   ltb (sum (firstn 8 stakes)) third = true).
Proof. cbv zeta. repeat split; vm_compute; reflexivity. Qed.
End NakamotoFacts.

(** ** The Herfindahl-Hirschman index *)

Module HhiFacts.
Import Exact.
Open Scope Qc_scope.

Lemma fold_plus_map (f : Qc -> Qc) (l : list Qc) (a : Qc) :
  fold_left (fun h s => h + f s) l a = fold_left Qcplus (map f l) a.
Proof.
  revert a. induction l as [ | x l IH ]; intro a; simpl; [ reflexivity | apply IH ].
Qed.

(** The loop adds up the squared shares. *)
Lemma hhi_as_sum (l : list Qc) (t : Qc) :
  Metrics.hhi l t = sum (map (fun s => (s / t) * (s / t)) l).
Proof.
  unfold Metrics.hhi. rewrite sum_fold, <- fold_plus_map. reflexivity.
Qed.

Lemma of_nat_S (n : nat) : of_Z (Z.of_nat (S n)) = of_Z (Z.of_nat n) + 1.
Proof.
  cbn [of_Z exact_number]. apply Qc_is_canon. cbn [this Q2Qc Qcplus].
  rewrite !Qred_correct, Nat2Z.inj_succ. unfold Z.succ. rewrite inject_Z_plus.
  reflexivity.
Qed.

Lemma of_nat_pos (n : nat) : (1 <= n)%nat -> 0 < of_Z (Z.of_nat n).
Proof.
  intro Hn. cbn [of_Z exact_number]. unfold Qclt. cbn [this Q2Qc].
  rewrite !Qred_correct. change 0%Q with (inject_Z 0). rewrite <- Zlt_Qlt. lia.
Qed.

Lemma sum_repeat (x : Qc) (n : nat) : sum (repeat x n) = of_Z (Z.of_nat n) * x.
Proof.
  induction n as [ | n IH ].
  - cbn [repeat]. rewrite sum_nil. change (of_Z (Z.of_nat 0)) with 0. ring.
  - cbn [repeat]. rewrite sum_cons, IH, of_nat_S. ring.
Qed.

Lemma map_repeat (f : Qc -> Qc) (x : Qc) (n : nat) : map f (repeat x n) = repeat (f x) n.
Proof. induction n as [ | n IH ]; simpl; [ reflexivity | now rewrite IH ]. Qed.

Lemma hhi_equal_stakes (n : nat) (s : Qc) :
  (1 <= n)%nat -> 0 < s ->
  Metrics.hhi (repeat s n) (sum (repeat s n)) = 1 / of_Z (Z.of_nat n).
Proof.
  intros Hn Hs. pose proof (of_nat_pos Hn) as Hpos.
  rewrite hhi_as_sum, map_repeat, !sum_repeat.
  field. split; apply not_eq_sym, Qclt_not_eq; assumption.
Qed.

Lemma inv_of_nat_bounds (n : nat) :
  (1 <= n)%nat -> 0 < 1 / of_Z (Z.of_nat n) /\ 1 / of_Z (Z.of_nat n) <= 1.
Proof.
  intro Hn. assert (H1 : 1 <= of_Z (Z.of_nat n)).
  { cbn [of_Z exact_number]. unfold Qcle. cbn [this Q2Qc].
    rewrite !Qred_correct. change 1%Q with (inject_Z 1). rewrite <- Zle_Qle. lia. }
  set (q := of_Z (Z.of_nat n)) in *.
  assert (Hq : 0 < q) by (apply Qclt_le_trans with 1; [ reflexivity | exact H1 ]).
  assert (Hinv : 0 < / q).
  { destruct (Qclt_le_dec 0 (/ q)) as [ H | H ]; [ exact H | exfalso ].
    assert (E : q * / q = 1) by (apply Qcmult_inv_r, not_eq_sym, Qclt_not_eq, Hq).
    assert (Hle : / q * q <= 0 * q) by (apply Qcmult_le_compat_r; [ exact H | apply Qclt_le_weak, Hq ]).
    rewrite Qcmult_0_l, Qcmult_comm, E in Hle. revert Hle. apply Qclt_not_le. reflexivity. }
  assert (E : q * / q = 1) by (apply Qcmult_inv_r, not_eq_sym, Qclt_not_eq, Hq).
  unfold Qcdiv. rewrite Qcmult_1_l. split; [ exact Hinv | ].
  apply Qcle_trans with (q * / q); [ | rewrite E; apply Qcle_refl ].
  rewrite <- (Qcmult_1_l (/ q)) at 1.
  apply Qcmult_le_compat_r; [ exact H1 | apply Qclt_le_weak, Hinv ].
Qed.

(** C6, as amended.  In exact arithmetic the index does not depend on the
    order of the stakes (for a total that is not zero, where the division is
    the source's); [n >= 1] equal positive stakes give exactly [1 / n],
    which lies in the closed interval from [1 / n] to 1 (and not above
    [1 / n]); one validator holding all the stake gives 1. *)
Theorem hhi_permutation_equal_single (l l' : list Qc) (n : nat) (s : Qc) :
  Permutation l l' -> (1 <= n)%nat -> 0 < s ->
  (forall total, total <> 0 -> Metrics.hhi l total = Metrics.hhi l' total) /\
  (let equal := repeat s n in
   let h := Metrics.hhi equal (sum equal) in
   h = 1 / of_Z (Z.of_nat n) /\ 1 / of_Z (Z.of_nat n) <= h <= 1) /\
  Metrics.hhi [s] (sum [s]) = 1.
Proof.
  intros Hperm Hn Hs. split; [ | split ].
  - intros total _. rewrite !hhi_as_sum. apply sum_perm, Permutation_map, Hperm.
  - cbv zeta. rewrite (hhi_equal_stakes Hn Hs).
    split; [ reflexivity | ]. split; [ apply Qcle_refl | apply inv_of_nat_bounds, Hn ].
  - change [s] with (repeat s 1). rewrite (@hhi_equal_stakes 1 s (le_n 1) Hs).
    reflexivity.
Qed.

Lemma hhi_permutation_equal_single_witness :
  let l : list Qc := [of_Z 3; of_Z 1; of_Z 1] in
  let l' : list Qc := [of_Z 1; of_Z 3; of_Z 1] in
  Metrics.hhi l (of_Z 5) = Metrics.hhi l' (of_Z 5) /\
  Metrics.hhi (repeat (of_Z 500) 2) (sum (repeat (of_Z 500 : Qc) 2)) = 1 / of_Z 2.
Proof.
  intros l l'.
  assert (Hperm : Permutation l l') by apply perm_swap.
  assert (Hn : (1 <= 2)%nat) by lia.
  assert (Hs : 0 < (of_Z 500 : Qc)) by reflexivity.
  destruct (hhi_permutation_equal_single Hperm Hn Hs) as (Hp & (He & _) & _).
  split; [ apply Hp; discriminate | exact He ].
Defined.

(** C6, the claim as stated: for two equal stakes of 500 the index is exactly
    [1 / 2], in exact arithmetic and in binary64 alike, which is not above
    [1 / 2]: the interval of the claim, open at [1 / n], does not contain it.
    And in binary64 the index of the report depends on the order of the
    records: for voters with 0.1, 0.2 and 0.3 SOL it is 0.3888888888888888,
    and 0.38888888888888895 when the records come in the reverse order. *)
Lemma hhi_equal_stakes_not_above_inverse :
  (let equal : list Qc := repeat (of_Z 500) 2 in
   Metrics.hhi equal (sum equal) = 1 / of_Z 2 /\
   ~ 1 / of_Z 2 < Metrics.hhi equal (sum equal)) /\
  (let equal : list float := repeat (of_Z 500) 2 in
   Metrics.hhi equal (sum equal) = div (of_Z 1) (of_Z 2) /\
   ltb (div (of_Z 1) (of_Z 2)) (Metrics.hhi equal (sum equal)) = false) /\
  (let h accounts :=
     Sfdp.hhi (Sfdp.decentralization (Sfdp.analyzeStakeAccounts (N:=float) accounts)) in
   ltb (h Samples.three_voters) (h (rev Samples.three_voters)) = true /\
   h Samples.three_voters <> h (rev Samples.three_voters)).
Proof.
  split; [ | split ].
  - assert (E : Metrics.hhi (repeat (of_Z 500 : Qc) 2) (sum (repeat (of_Z 500 : Qc) 2))
                = 1 / of_Z 2)
      by (apply hhi_equal_stakes; [ lia | reflexivity ]).
    cbv zeta. rewrite E. split; [ reflexivity | ].
    intro H. exact (Qclt_not_le _ _ H (Qcle_refl _)).
  - split; vm_compute; reflexivity.
  - cbv zeta. split; [ vm_compute; reflexivity | ].
    intro E.
    apply (f_equal (fun z => PrimFloat.ltb z
             (Sfdp.hhi (Sfdp.decentralization
                          (Sfdp.analyzeStakeAccounts (N:=float) (rev Samples.three_voters))))))
      in E.
    vm_compute in E. discriminate.
Qed.
End HhiFacts.

(** ** [Array.prototype.sort] *)

Module SortFacts.
Section Generic.
Context {N : Type} `{Number N} {A : Type}.
Variable cmp : A -> A -> N.

Lemma insert_perm (x : A) (l : list A) : Permutation (Arr.insert cmp x l) (x :: l).
Proof.
  induction l as [ | y l IH ]; simpl.
  - apply Permutation_refl.
  - destruct (gtb (cmp x y) zero).
    + apply Permutation_trans with (y :: x :: l).
      * apply perm_skip, IH.
      * apply perm_swap.
    + apply Permutation_refl.
Qed.

Lemma sort_perm (l : list A) : Permutation (Arr.sort cmp l) l.
Proof.
  induction l as [ | x l IH ]; simpl.
  - apply perm_nil.
  - apply Permutation_trans with (x :: Arr.sort cmp l).
    + apply insert_perm.
    + apply perm_skip, IH.
Qed.

Lemma sort_length (l : list A) : List.length (Arr.sort cmp l) = List.length l.
Proof. apply Permutation_length, sort_perm. Qed.

Hypothesis asym : forall x y, gtb (cmp x y) zero = true -> Spec.stays cmp y x.

Lemma insert_sorted (x : A) (l : list A) :
  Sorted (Spec.stays cmp) l -> Sorted (Spec.stays cmp) (Arr.insert cmp x l).
Proof.
  induction 1 as [ | y l Hl IH Hhd ]; simpl.
  - repeat constructor.
  - destruct (gtb (cmp x y) zero) eqn:E.
    + constructor; [ exact IH | ].
      destruct Hhd as [ | z l' Hz ]; simpl.
      * constructor. apply asym, E.
      * destruct (gtb (cmp x z) zero); constructor; [ exact Hz | apply asym, E ].
    + constructor; [ constructor; assumption | constructor; exact E ].
Qed.

Lemma sort_sorted (l : list A) : Sorted (Spec.stays cmp) (Arr.sort cmp l).
Proof.
  induction l as [ | x l IH ]; simpl; [ constructor | apply insert_sorted, IH ].
Qed.
End Generic.

Import Exact.
Open Scope Qc_scope.

(** Ascending numbers: [[...stakes].sort((a, b) => a - b)]. *)
Lemma sort_ascending (l : list Qc) : Sorted Qcle (Arr.sort (fun a b => sub a b) l).
Proof.
  assert (Hst : forall x y : Qc, Spec.stays (fun a b => sub a b) x y <-> x <= y).
  { intros x y. unfold Spec.stays. rewrite gtb_false. cbn [sub exact_number]. change zero with 0.
    split; intro Hc; qc_lra. }
  assert (Hs : Sorted (Spec.stays (fun a b : Qc => sub a b)) (Arr.sort (fun a b => sub a b) l)).
  { apply sort_sorted. intros x y Hgt. apply Hst. apply gtb_gt in Hgt.
    cbn [sub exact_number] in Hgt. change zero with 0 in Hgt. qc_lra. }
  induction Hs as [ | y r Hr IH Hhd ]; constructor; [ exact IH | ].
  destruct Hhd; constructor. apply Hst. assumption.
Qed.

(** A list of numbers has one ascending arrangement. *)
Lemma sorted_unique (a b : list Qc) :
  Sorted Qcle a -> Sorted Qcle b -> Permutation a b -> a = b.
Proof.
  intros Ha Hb. apply Sorted_StronglySorted in Ha; [ | exact Qcle_trans ].
  apply Sorted_StronglySorted in Hb; [ | exact Qcle_trans ].
  revert b Hb. induction Ha as [ | x a Ha IH Hx ]; intros b Hb Hperm.
  - apply Permutation_nil in Hperm. congruence.
  - destruct Hb as [ | y b Hb Hy ].
    + apply Permutation_sym, Permutation_nil in Hperm. discriminate.
    + assert (Exy : x = y).
      { apply Qcle_antisym.
        - assert (Hin : In y (x :: a)) by (eapply Permutation_in;
            [ apply Permutation_sym, Hperm | left; reflexivity ]).
          destruct Hin as [ -> | Hin ]; [ apply Qcle_refl | ].
          rewrite Forall_forall in Hx. apply Hx, Hin.
        - assert (Hin : In x (y :: b)) by (eapply Permutation_in;
            [ apply Hperm | left; reflexivity ]).
          destruct Hin as [ -> | Hin ]; [ apply Qcle_refl | ].
          rewrite Forall_forall in Hy. apply Hy, Hin. }
      subst y. f_equal. apply IH; [ exact Hb | ].
      eapply Permutation_cons_inv, Hperm.
Qed.
End SortFacts.

(** ** The Gini coefficient *)

Module GiniFacts.
Import Exact.
Open Scope Qc_scope.

Lemma fold_plus_map_nat (f : nat -> Qc) (l : list nat) (a : Qc) :
  fold_left (fun g i => g + f i) l a = fold_left Qcplus (map f l) a.
Proof.
  revert a. induction l as [ | x l IH ]; intro a; simpl; [ reflexivity | apply IH ].
Qed.

(** The loop of the source adds up the weighted entries. *)
Lemma gini_sum_as_sum (n : nat) (asc : list Qc) :
  Metrics.gini_sum n asc
  = sum (map (fun i => Metrics.gini_weight n i * nth i asc 0) (seq 0 n)).
Proof.
  unfold Metrics.gini_sum. rewrite sum_fold, <- fold_plus_map_nat. reflexivity.
Qed.

(** The source's value on the array it sorted itself. *)
Lemma gini_of_sort (stakes : list Qc) :
  stakes <> [] ->
  Metrics.gini stakes = Spec.gini_formula (Arr.sort (fun a b => sub a b) stakes).
Proof.
  intro Hne. unfold Metrics.gini, Spec.gini_formula.
  rewrite SortFacts.sort_length, gini_sum_as_sum.
  destruct stakes as [ | s stakes ]; [ congruence | ]. reflexivity.
Qed.

Lemma of_Z_plus (a b : Z) : (of_Z (a + b) : Qc) = of_Z a + of_Z b.
Proof.
  cbn [of_Z exact_number]. apply Qc_is_canon. cbn [this Q2Qc Qcplus].
  rewrite !Qred_correct, inject_Z_plus. reflexivity.
Qed.

(** The weights of the first [m] of [n] entries add up to
    [m * (m + 1) - m * (n + 1)]; all [n] of them add up to 0. *)
Lemma weights_sum (n m : nat) :
  sum (map (Metrics.gini_weight (N:=Qc) n) (seq 0 m))
  = of_Z (Z.of_nat m * (Z.of_nat m + 1) - Z.of_nat m * (Z.of_nat n + 1)).
Proof.
  induction m as [ | m IH ].
  - reflexivity.
  - rewrite seq_S, map_app, sum_app, IH. cbn [map plus]. rewrite sum_cons, sum_nil.
    unfold Metrics.gini_weight. rewrite Qcplus_0_r, <- of_Z_plus. f_equal. lia.
Qed.

Lemma sum_scale (c : Qc) (l : list Qc) : sum (map (fun w => w * c) l) = sum l * c.
Proof.
  induction l as [ | x l IH ]; cbn [map].
  - rewrite sum_nil. ring.
  - rewrite !sum_cons, IH. ring.
Qed.

Lemma formula_equal_stakes (c : Qc) (n : nat) : Spec.gini_formula (repeat c n) = 0.
Proof.
  unfold Spec.gini_formula. rewrite repeat_length.
  replace (map (fun i => mul (of_Z (2 * (Z.of_nat i + 1) - Z.of_nat n - 1))
                             (nth i (repeat c n) zero)) (seq 0 n))
    with (map (fun w => w * c) (map (Metrics.gini_weight (N:=Qc) n) (seq 0 n))).
  - rewrite sum_scale, weights_sum.
    replace (Z.of_nat n * (Z.of_nat n + 1) - Z.of_nat n * (Z.of_nat n + 1))%Z with 0%Z by lia.
    change (of_Z 0 : Qc) with 0. cbn [div exact_number]. unfold Qcdiv. ring.
  - rewrite map_map. apply map_ext_in. intros i Hi. apply in_seq in Hi.
    unfold Metrics.gini_weight. cbn [mul exact_number]. f_equal.
    symmetry. apply nth_repeat_lt. lia.
Qed.

Lemma repeat_sorted (c : Qc) (n : nat) : Sorted Qcle (repeat c n).
Proof.
  induction n as [ | n IH ]; cbn [repeat]; constructor; [ exact IH | ].
  destruct n; cbn [repeat]; constructor. apply Qcle_refl.
Qed.

(** C7, as amended.  In exact arithmetic the coefficient of a non-empty
    distribution is the formula of the specification on the ascending
    arrangement [a] of the stakes, whatever the order they come in; and it is
    0 when all [n >= 1] stakes are equal to one positive [c] (positive, so
    that the divisor [n * (n * c)] is not zero). *)
Theorem gini_is_formula_on_ascending (stakes a : list Qc) (c : Qc) (n : nat) :
  stakes <> [] -> Permutation a stakes -> Sorted Qcle a -> (1 <= n)%nat -> 0 < c ->
  Metrics.gini stakes = Spec.gini_formula a /\
  Metrics.gini (repeat c n) = 0.
Proof.
  intros Hne Hperm Hsorted Hn _. split.
  - rewrite (gini_of_sort Hne). f_equal.
    apply SortFacts.sorted_unique; [ apply SortFacts.sort_ascending | exact Hsorted | ].
    apply Permutation_trans with stakes; [ apply SortFacts.sort_perm | ].
    apply Permutation_sym, Hperm.
  - rewrite gini_of_sort by (destruct n; [ lia | discriminate ]).
    replace (Arr.sort (fun a b : Qc => sub a b) (repeat c n)) with (repeat c n).
    + apply formula_equal_stakes.
    + apply SortFacts.sorted_unique;
        [ apply repeat_sorted | apply SortFacts.sort_ascending | ].
      apply Permutation_sym, SortFacts.sort_perm.
Qed.

Lemma gini_is_formula_on_ascending_witness :
  Metrics.gini [of_Z 300; of_Z 100; of_Z 600 : Qc]
  = Spec.gini_formula [of_Z 100; of_Z 300; of_Z 600 : Qc] /\
  Metrics.gini (repeat (of_Z 500 : Qc) 2) = 0.
Proof.
  apply gini_is_formula_on_ascending.
  - discriminate.
  - apply Permutation_trans with [of_Z 300; of_Z 100; of_Z 600 : Qc];
      [ apply perm_swap | apply Permutation_refl ].
  - repeat constructor; discriminate.
  - lia.
  - reflexivity.
Defined.
(** C7, the claim as stated: in binary64 five validators with 0.1 SOL each
    have a coefficient of about -2.2e-17, not 0: the weighted sum
    [-0.4 - 0.2 + 0 + 0.2 + 0.4] leaves a rounding residue. *)
Lemma gini_of_equal_stakes_in_binary64 :
  let r := Sfdp.analyzeStakeAccounts (N:=float) Samples.five_equal in
  map (@Sfdp.l_activeStake float) (Sfdp.allValidators r)
  = repeat (div (of_Z 100000000) (of_Z 1000000000)) 5 /\
  ltb (Sfdp.gini (Sfdp.decentralization r)) zero = true /\
  Sfdp.gini (Sfdp.decentralization r) <> zero.
Proof.
  split; [ vm_compute; reflexivity | ].
  split; [ vm_compute; reflexivity | ].
  intro E. apply (f_equal (fun z => PrimFloat.ltb z zero)) in E.
  vm_compute in E. discriminate.
Qed.
End GiniFacts.

(** ** The aggregation fold *)

Module AggregateFacts.
Section Generic.
Context {N : Type} `{Number N}.

Lemma sum_snoc (l : list N) (x : N) : sum (l ++ [x]) = add (sum l) x.
Proof. unfold sum. rewrite fold_left_app. reflexivity. Qed.

Lemma delegations_snoc (l : list Rpc.Account) (a : Rpc.Account) :
  Spec.delegations (l ++ [a])
  = Spec.delegations l ++ match a with Some d => [d] | None => [] end.
Proof.
  unfold Spec.delegations. rewrite flat_map_app. cbn [flat_map].
  rewrite app_nil_r. reflexivity.
Qed.

Lemma seen_iff (k : string) (seen : list string) :
  existsb (String.eqb k) seen = true <-> In k seen.
Proof.
  rewrite existsb_exists. split.
  - intros (x & Hx & E). apply String.eqb_eq in E. subst. exact Hx.
  - intro Hin. exists k. split; [ exact Hin | apply String.eqb_refl ].
Qed.

Lemma see_in (k : string) (seen : list string) (d : Rpc.Delegation) :
  In k (Spec.see seen d) <-> In k seen \/ k = Rpc.voter d.
Proof.
  unfold Spec.see. destruct (existsb (String.eqb (Rpc.voter d)) seen) eqn:E.
  - apply seen_iff in E. split; [ auto | ]. intros [ Hin | -> ]; assumption.
  - rewrite in_app_iff. cbn [In]. intuition (subst; auto).
Qed.

Lemma see_nodup (seen : list string) (d : Rpc.Delegation) :
  NoDup seen -> NoDup (Spec.see seen d).
Proof.
  intro Hnd. unfold Spec.see.
  destruct (existsb (String.eqb (Rpc.voter d)) seen) eqn:E; [ exact Hnd | ].
  assert (Hnot : ~ In (Rpc.voter d) seen)
    by (intro Hin; apply seen_iff in Hin; congruence).
  clear E. induction Hnd as [ | x l Hx Hl IH ]; cbn [app].
  - constructor; [ intros [] | constructor ].
  - constructor.
    + rewrite in_app_iff. cbn [In]. intros [ Hin | [ E | [] ] ]; [ auto | ].
      subst. apply Hnot. left. reflexivity.
    + apply IH. intro Hin. apply Hnot. right. exact Hin.
Qed.

Lemma voters_snoc (l : list Rpc.Account) (a : Rpc.Account) :
  Spec.voters (l ++ [a])
  = match a with Some d => Spec.see (Spec.voters l) d | None => Spec.voters l end.
Proof.
  unfold Spec.voters. rewrite delegations_snoc. destruct a as [ d | ].
  - rewrite fold_left_app. reflexivity.
  - rewrite app_nil_r. reflexivity.
Qed.

Lemma voters_nodup (l : list Rpc.Account) : NoDup (Spec.voters l).
Proof.
  induction l as [ | a l IH ] using rev_ind.
  - constructor.
  - rewrite voters_snoc. destruct a; [ apply see_nodup, IH | exact IH ].
Qed.

(** The voters listed are the voters of the records. *)
Lemma voters_in (k : string) (l : list Rpc.Account) :
  In k (Spec.voters l) <-> exists d, In d (Spec.delegations l) /\ Rpc.voter d = k.
Proof.
  induction l as [ | a l IH ] using rev_ind.
  - cbn. split; [ intros [] | intros (d & [] & _) ].
  - rewrite voters_snoc, delegations_snoc. destruct a as [ d | ].
    + rewrite see_in, IH. split.
      * intros [ (d' & Hd' & E) | -> ].
        -- exists d'. rewrite in_app_iff. auto.
        -- exists d. rewrite in_app_iff. cbn [In]. auto.
      * intros (d' & Hd' & E). rewrite in_app_iff in Hd'. cbn [In] in Hd'.
        destruct Hd' as [ Hd' | [ <- | [] ] ]; [ left; exists d'; auto | right; auto ].
    + rewrite app_nil_r. exact IH.
Qed.

Lemma stakes_of_snoc (k : string) (b : bool) (l : list Rpc.Account) (d : Rpc.Delegation) :
  Spec.stakes_of k b (l ++ [Some d])
  = Spec.stakes_of k b l
    ++ (if Spec.of_voter k d && Bool.eqb (Rpc.deactivating d) b
        then [Spec.stake_of d] else []).
Proof.
  unfold Spec.stakes_of. rewrite delegations_snoc, filter_app, map_app. cbn [filter].
  destruct (Spec.of_voter k d && Bool.eqb (Rpc.deactivating d) b); reflexivity.
Qed.

Lemma accounts_of_snoc (k : string) (l : list Rpc.Account) (d : Rpc.Delegation) :
  Spec.accounts_of k (l ++ [Some d])
  = if Spec.of_voter k d then S (Spec.accounts_of k l) else Spec.accounts_of k l.
Proof.
  unfold Spec.accounts_of. rewrite delegations_snoc, filter_app, length_app. cbn [filter].
  destruct (Spec.of_voter k d); cbn [List.length]; lia.
Qed.

(** One more record changes the aggregate of its voter as lines 106-108 do,
    and no other aggregate. *)
Lemma aggregate_of_snoc (l : list Rpc.Account) (d : Rpc.Delegation) (k : string) :
  Spec.aggregate_of (l ++ [Some d]) k
  = if Spec.of_voter k d
    then Enhanced.record (Spec.stake_of d) (Rpc.deactivating d) (Spec.aggregate_of l k)
    else Spec.aggregate_of l k.
Proof.
  unfold Spec.aggregate_of, Enhanced.record. cbn [Enhanced.voter Enhanced.activeStake
    Enhanced.deactivatingStake Enhanced.accounts].
  rewrite !stakes_of_snoc, accounts_of_snoc.
  destruct (Spec.of_voter k d); cbn [andb].
  - destruct (Rpc.deactivating d); cbn [Bool.eqb];
      rewrite ?app_nil_r, ?sum_snoc; reflexivity.
  - rewrite !app_nil_r. reflexivity.
Qed.

Lemma filter_none {A : Type} (q : A -> bool) (l : list A) :
  (forall x, In x l -> q x = false) -> filter q l = [].
Proof.
  induction l as [ | x l IH ]; intro Hq; cbn [filter]; [ reflexivity | ].
  rewrite (Hq x (or_introl eq_refl)). apply IH. intros y Hy. apply Hq. right. exact Hy.
Qed.

Lemma aggregate_of_unseen (l : list Rpc.Account) (k : string) :
  ~ In k (Spec.voters l) -> Spec.aggregate_of l k = Enhanced.fresh k.
Proof.
  intro Hnot.
  assert (Hk : forall d, In d (Spec.delegations l) -> Spec.of_voter k d = false).
  { intros d Hd. unfold Spec.of_voter. destruct (String.eqb (Rpc.voter d) k) eqn:E;
      [ | reflexivity ].
    apply String.eqb_eq in E. exfalso. apply Hnot, voters_in. exists d. auto. }
  unfold Spec.aggregate_of, Spec.stakes_of, Spec.accounts_of, Enhanced.fresh.
  rewrite !filter_none; [ reflexivity | | | ]; intros d Hd; rewrite (Hk d Hd); reflexivity.
Qed.

(** [upsert] on the aggregates of distinct voters. *)
Lemma upsert_seen (g : string -> @Enhanced.Validator N)
      (f : @Enhanced.Validator N -> @Enhanced.Validator N) (k : string) (ks : list string) :
  (forall k', Enhanced.voter (g k') = k') -> NoDup ks -> In k ks ->
  Enhanced.upsert k f (map g ks)
  = map (fun k' => if String.eqb k' k then f (g k') else g k') ks.
Proof.
  intros Hg Hnd. induction Hnd as [ | x l Hx Hl IH ]; intro Hin; [ destruct Hin | ].
  cbn [map Enhanced.upsert]. rewrite Hg. destruct (String.eqb x k) eqn:E.
  - f_equal. apply String.eqb_eq in E. subst x. apply map_ext_in. intros y Hy.
    destruct (String.eqb y k) eqn:E'; [ | reflexivity ].
    apply String.eqb_eq in E'. subst y. contradiction.
  - f_equal. apply IH. destruct Hin as [ -> | Hin ]; [ | exact Hin ].
    rewrite String.eqb_refl in E. discriminate.
Qed.

Lemma upsert_unseen (g : string -> @Enhanced.Validator N)
      (f : @Enhanced.Validator N -> @Enhanced.Validator N) (k : string) (ks : list string) :
  (forall k', Enhanced.voter (g k') = k') -> ~ In k ks ->
  Enhanced.upsert k f (map g ks) = map g ks ++ [f (Enhanced.fresh k)].
Proof.
  intros Hg Hnot. induction ks as [ | x l IH ]; [ reflexivity | ].
  cbn [map Enhanced.upsert app]. rewrite Hg. destruct (String.eqb x k) eqn:E.
  - apply String.eqb_eq in E. subst x. exfalso. apply Hnot. left. reflexivity.
  - f_equal. apply IH. intro Hin. apply Hnot. right. exact Hin.
Qed.

Lemma aggregate_snoc (l : list Rpc.Account) (a : Rpc.Account) :
  Enhanced.aggregate (l ++ [a]) = Enhanced.step (Enhanced.aggregate l) a.
Proof. unfold Enhanced.aggregate. rewrite fold_left_app. reflexivity. Qed.

(** The fold builds, for each distinct voter in the order of first sight,
    the aggregate that the specification describes.  This holds for every
    arithmetic, binary64 included. *)
Lemma validators_spec (l : list Rpc.Account) :
  Enhanced.validators (Enhanced.aggregate l) = map (Spec.aggregate_of l) (Spec.voters l).
Proof.
  induction l as [ | a l IH ] using rev_ind; [ reflexivity | ].
  rewrite aggregate_snoc, voters_snoc. destruct a as [ d | ]; cbn [Enhanced.step Enhanced.validators].
  - rewrite IH. unfold Spec.see.
    destruct (existsb (String.eqb (Rpc.voter d)) (Spec.voters l)) eqn:E.
    + apply seen_iff in E.
      rewrite upsert_seen; [ | reflexivity | apply voters_nodup | exact E ].
      apply map_ext. intro k. rewrite aggregate_of_snoc. unfold Spec.of_voter.
      rewrite (String.eqb_sym (Rpc.voter d) k). reflexivity.
    + assert (Hnot : ~ In (Rpc.voter d) (Spec.voters l))
        by (intro Hin; apply seen_iff in Hin; congruence).
      rewrite upsert_unseen; [ | reflexivity | exact Hnot ].
      rewrite map_app. cbn [map]. f_equal.
      * apply map_ext_in. intros k Hk. rewrite aggregate_of_snoc. unfold Spec.of_voter.
        destruct (String.eqb (Rpc.voter d) k) eqn:E'; [ | reflexivity ].
        apply String.eqb_eq in E'. subst k. contradiction.
      * rewrite aggregate_of_snoc. unfold Spec.of_voter. rewrite String.eqb_refl.
        rewrite (@aggregate_of_unseen l (Rpc.voter d) Hnot). reflexivity.
  - rewrite IH. apply map_ext. intro k.
    unfold Spec.aggregate_of, Spec.stakes_of, Spec.accounts_of.
    rewrite delegations_snoc, app_nil_r. reflexivity.
Qed.

Lemma totals_spec (l : list Rpc.Account) :
  Enhanced.totalActive (Enhanced.aggregate l)
  = sum (map Spec.stake_of
             (filter (fun d => negb (Rpc.deactivating d)) (Spec.delegations l))) /\
  Enhanced.totalDeactivating (Enhanced.aggregate l)
  = sum (map Spec.stake_of (filter Rpc.deactivating (Spec.delegations l))).
Proof.
  induction l as [ | a l IH ] using rev_ind; [ split; reflexivity | ].
  rewrite aggregate_snoc, delegations_snoc. destruct IH as [ IHa IHd ].
  destruct a as [ d | ]; cbn [Enhanced.step Enhanced.totalActive Enhanced.totalDeactivating].
  - rewrite !filter_app, !map_app. cbn [filter]. fold (Spec.stake_of d).
    destruct (Rpc.deactivating d); cbn [negb map];
      rewrite ?app_nil_r, ?sum_snoc, IHa, IHd; split; reflexivity.
  - rewrite app_nil_r. split; assumption.
Qed.

(** [analyzeStakeAccounts] folds the same aggregates, with two more fields. *)
Lemma listed_upsert (k : string) (s : N) (b : bool) (e : Z) (vs : list (@Sfdp.Validator N)) :
  map Spec.listed (Sfdp.upsert k (Sfdp.record s b e) vs)
  = Enhanced.upsert k (Enhanced.record s b) (map Spec.listed vs).
Proof.
  induction vs as [ | v vs IH ]; [ reflexivity | ].
  cbn [Sfdp.upsert map Enhanced.upsert]. cbn [Spec.listed Enhanced.voter].
  destruct (String.eqb (Sfdp.voter v) k); cbn [map]; [ reflexivity | ].
  f_equal. exact IH.
Qed.

Lemma sfdp_aggregate_snoc (l : list Rpc.Account) (a : Rpc.Account) :
  Sfdp.aggregate (l ++ [a]) = Sfdp.step (Sfdp.aggregate l) a.
Proof. unfold Sfdp.aggregate. rewrite fold_left_app. reflexivity. Qed.

Lemma sfdp_is_enhanced (l : list Rpc.Account) :
  map Spec.listed (Sfdp.validators (Sfdp.aggregate l))
  = Enhanced.validators (Enhanced.aggregate l) /\
  Sfdp.totalActive (Sfdp.aggregate l) = Enhanced.totalActive (Enhanced.aggregate l) /\
  Sfdp.totalDeactivating (Sfdp.aggregate l)
  = Enhanced.totalDeactivating (Enhanced.aggregate l) /\
  Sfdp.totalEmpty (Sfdp.aggregate l) = Enhanced.totalEmpty (Enhanced.aggregate l).
Proof.
  induction l as [ | a l IH ] using rev_ind; [ repeat split; reflexivity | ].
  rewrite sfdp_aggregate_snoc, aggregate_snoc. destruct IH as (IHv & IHa & IHd & IHe).
  destruct a as [ d | ];
    cbn [Sfdp.step Enhanced.step Sfdp.validators Enhanced.validators Sfdp.totalActive
         Enhanced.totalActive Sfdp.totalDeactivating Enhanced.totalDeactivating
         Sfdp.totalEmpty Enhanced.totalEmpty].
  - rewrite listed_upsert, IHv, IHa, IHd, IHe. repeat split; reflexivity.
  - rewrite IHv, IHa, IHd, IHe. repeat split; reflexivity.
Qed.

(** *** Shuffled records *)

Lemma perm_filter {A : Type} (q : A -> bool) (l l' : list A) :
  Permutation l l' -> Permutation (filter q l) (filter q l').
Proof.
  induction 1 as [ | x l l' _ IH | x y l | l l' l'' _ IH1 _ IH2 ]; cbn [filter].
  - constructor.
  - destruct (q x); [ apply perm_skip | ]; exact IH.
  - destruct (q x), (q y); try apply Permutation_refl. apply perm_swap.
  - eapply Permutation_trans; eassumption.
Qed.

Lemma perm_delegations (l l' : list Rpc.Account) :
  Permutation l l' -> Permutation (Spec.delegations l) (Spec.delegations l').
Proof. intro Hp. unfold Spec.delegations. apply Permutation_flat_map, Hp. Qed.

Lemma perm_voters (l l' : list Rpc.Account) :
  Permutation l l' -> Permutation (Spec.voters l) (Spec.voters l').
Proof.
  intro Hp. apply NoDup_Permutation; try apply voters_nodup.
  intro k. rewrite !voters_in.
  split; intros (d & Hd & E); exists d; (split; [ | exact E ]).
  - eapply Permutation_in; [ apply perm_delegations, Hp | exact Hd ].
  - eapply Permutation_in; [ apply perm_delegations, Permutation_sym, Hp | exact Hd ].
Qed.

Lemma perm_accounts_of (k : string) (l l' : list Rpc.Account) :
  Permutation l l' -> Spec.accounts_of k l = Spec.accounts_of k l'.
Proof.
  intro Hp. unfold Spec.accounts_of.
  apply Permutation_length, perm_filter, perm_delegations, Hp.
Qed.

(** The voters and the number of accounts of each do not depend on the order
    of the records, in any arithmetic. *)
Lemma perm_voter_counts (l l' : list Rpc.Account) :
  Permutation l l' ->
  Permutation
    (map (fun v => (Enhanced.voter v, Enhanced.accounts v))
         (Enhanced.validators (Enhanced.aggregate l)))
    (map (fun v => (Enhanced.voter v, Enhanced.accounts v))
         (Enhanced.validators (Enhanced.aggregate l'))).
Proof.
  intro Hp. rewrite !validators_spec, !map_map. cbn [Spec.aggregate_of Enhanced.voter
    Enhanced.accounts].
  rewrite (map_ext (fun k => (k, Spec.accounts_of k l)) (fun k => (k, Spec.accounts_of k l')))
    by (intro k; rewrite (perm_accounts_of k Hp); reflexivity).
  apply Permutation_map, perm_voters, Hp.
Qed.
End Generic.
End AggregateFacts.

Module OrderFacts.
Import Exact AggregateFacts.
Open Scope Qc_scope.

Lemma perm_stakes_sum (k : string) (b : bool) (l l' : list Rpc.Account) :
  Permutation l l' -> sum (Spec.stakes_of (N:=Qc) k b l) = sum (Spec.stakes_of k b l').
Proof.
  intro Hp. apply sum_perm. unfold Spec.stakes_of.
  apply Permutation_map, perm_filter, perm_delegations, Hp.
Qed.

Lemma perm_aggregate_of (k : string) (l l' : list Rpc.Account) :
  Permutation l l' -> Spec.aggregate_of (N:=Qc) l k = Spec.aggregate_of l' k.
Proof.
  intro Hp. unfold Spec.aggregate_of.
  rewrite (perm_stakes_sum k false Hp), (perm_stakes_sum k true Hp),
    (perm_accounts_of k Hp).
  reflexivity.
Qed.

Lemma perm_validators (l l' : list Rpc.Account) :
  Permutation l l' ->
  Permutation (Enhanced.validators (Enhanced.aggregate (N:=Qc) l))
              (Enhanced.validators (Enhanced.aggregate (N:=Qc) l')).
Proof.
  intro Hp. rewrite !validators_spec.
  rewrite (map_ext (Spec.aggregate_of l) (Spec.aggregate_of l'))
    by (intro k; apply perm_aggregate_of, Hp).
  apply Permutation_map, perm_voters, Hp.
Qed.

(** C8, as amended.  Shuffling the records leaves the voter identities and
    the number of accounts of each voter unchanged in every arithmetic,
    binary64 included; in exact arithmetic it also leaves each voter's active
    and deactivating stake and the two running totals unchanged, in the fold of
    [collect-enhanced.js] and in that of [analyzeStakeAccounts] alike. *)
Theorem aggregation_order_independent (accounts shuffled : list Rpc.Account) :
  Permutation accounts shuffled ->
  (forall (N : Type) (H : Number N),
      Permutation
        (map (fun v => (Enhanced.voter v, Enhanced.accounts v))
             (Enhanced.validators (Enhanced.aggregate (N:=N) accounts)))
        (map (fun v => (Enhanced.voter v, Enhanced.accounts v))
             (Enhanced.validators (Enhanced.aggregate (N:=N) shuffled))) /\
      Permutation
        (map (fun v => (Sfdp.voter v, Sfdp.stakeAccounts v))
             (Sfdp.validators (Sfdp.aggregate (N:=N) accounts)))
        (map (fun v => (Sfdp.voter v, Sfdp.stakeAccounts v))
             (Sfdp.validators (Sfdp.aggregate (N:=N) shuffled)))) /\
  Permutation (Enhanced.validators (Enhanced.aggregate (N:=Qc) accounts))
              (Enhanced.validators (Enhanced.aggregate (N:=Qc) shuffled)) /\
  Permutation (map Spec.listed (Sfdp.validators (Sfdp.aggregate (N:=Qc) accounts)))
              (map Spec.listed (Sfdp.validators (Sfdp.aggregate (N:=Qc) shuffled))) /\
  Enhanced.totalActive (Enhanced.aggregate (N:=Qc) accounts)
  = Enhanced.totalActive (Enhanced.aggregate (N:=Qc) shuffled) /\
  Enhanced.totalDeactivating (Enhanced.aggregate (N:=Qc) accounts)
  = Enhanced.totalDeactivating (Enhanced.aggregate (N:=Qc) shuffled) /\
  Sfdp.totalActive (Sfdp.aggregate (N:=Qc) accounts)
  = Sfdp.totalActive (Sfdp.aggregate (N:=Qc) shuffled) /\
  Sfdp.totalDeactivating (Sfdp.aggregate (N:=Qc) accounts)
  = Sfdp.totalDeactivating (Sfdp.aggregate (N:=Qc) shuffled).
Proof.
  intro Hp.
  assert (Ht : Enhanced.totalActive (Enhanced.aggregate (N:=Qc) accounts)
               = Enhanced.totalActive (Enhanced.aggregate (N:=Qc) shuffled) /\
               Enhanced.totalDeactivating (Enhanced.aggregate (N:=Qc) accounts)
               = Enhanced.totalDeactivating (Enhanced.aggregate (N:=Qc) shuffled)).
  { destruct (totals_spec (N:=Qc) accounts) as [ -> -> ].
    destruct (totals_spec (N:=Qc) shuffled) as [ -> -> ].
    split; apply sum_perm, Permutation_map, perm_filter, perm_delegations, Hp. }
  destruct (sfdp_is_enhanced (N:=Qc) accounts) as (Ev & Ea & Ed & _).
  destruct (sfdp_is_enhanced (N:=Qc) shuffled) as (Ev' & Ea' & Ed' & _).
  split; [ | repeat split ].
  - intros N H. split; [ apply perm_voter_counts, Hp | ].
    pose proof (perm_voter_counts (N:=N) Hp) as Hc.
    destruct (sfdp_is_enhanced (N:=N) accounts) as (E1 & _).
    destruct (sfdp_is_enhanced (N:=N) shuffled) as (E2 & _).
    rewrite <- E1, <- E2, !map_map in Hc. exact Hc.
  - apply perm_validators, Hp.
  - rewrite Ev, Ev'. apply perm_validators, Hp.
  - apply Ht.
  - apply Ht.
  - rewrite Ea, Ea'. apply Ht.
  - rewrite Ed, Ed'. apply Ht.
Qed.

Lemma aggregation_order_independent_witness :
  Permutation
    (Enhanced.validators (Enhanced.aggregate (N:=Qc) Samples.one_voter))
    (Enhanced.validators (Enhanced.aggregate (N:=Qc) (rev Samples.one_voter))) /\
  Sfdp.totalActive (Sfdp.aggregate (N:=Qc) Samples.one_voter)
  = Sfdp.totalActive (Sfdp.aggregate (N:=Qc) (rev Samples.one_voter)).
Proof.
  destruct (@aggregation_order_independent Samples.one_voter (rev Samples.one_voter)
              (Permutation_rev Samples.one_voter))
    as (_ & Hv & _ & _ & _ & Ha & _).
  split; [ exact Hv | exact Ha ].
Defined.

(** C8, the claim as stated: in binary64 the three accounts of one voter,
    0.1, 0.2 and 0.3 SOL, add up to 0.6000000000000001 in this order and to
    0.6 in the reverse order, so the two aggregates differ. *)
Lemma aggregation_depends_on_order_in_binary64 :
  let accounts := Samples.one_voter in
  let shuffled := rev Samples.one_voter in
  Permutation accounts shuffled /\
  ~ Permutation (Enhanced.validators (Enhanced.aggregate (N:=float) accounts))
                (Enhanced.validators (Enhanced.aggregate (N:=float) shuffled)) /\
  ~ Permutation (map Spec.listed (Sfdp.validators (Sfdp.aggregate (N:=float) accounts)))
                (map Spec.listed (Sfdp.validators (Sfdp.aggregate (N:=float) shuffled))).
Proof.
  split; [ apply Permutation_rev | ].
  split; intro Hp; vm_compute in Hp; apply Permutation_length_1 in Hp;
    apply (f_equal (@Enhanced.activeStake float)) in Hp; cbn in Hp;
    match type of Hp with
    | ?a = ?b => apply (f_equal (fun z => PrimFloat.ltb b z)) in Hp
    end; vm_compute in Hp; discriminate.
Qed.
End OrderFacts.

(** ** The invariants of [analyzeStakeAccounts] *)

Module InvariantFacts.
Import Exact AggregateFacts.

Section Generic.
Context {N : Type} `{Number N}.

Lemma upsert_forall (P : @Sfdp.Validator N -> Prop) (k : string)
      (f : @Sfdp.Validator N -> @Sfdp.Validator N) (vs : list (@Sfdp.Validator N)) :
  P (f (Sfdp.fresh k)) -> (forall v, P v -> P (f v)) ->
  Forall P vs -> Forall P (Sfdp.upsert k f vs).
Proof.
  intros Hfresh Hf. induction 1 as [ | v vs Hv Hvs IH ]; cbn [Sfdp.upsert].
  - constructor; [ exact Hfresh | constructor ].
  - destruct (String.eqb (Sfdp.voter v) k); constructor; auto.
Qed.

(** The account counter of an entry is the length of its list of
    activation epochs, in every arithmetic. *)
Lemma accounts_counted (l : list Rpc.Account) :
  Forall (fun v => Sfdp.stakeAccounts v = List.length (Sfdp.activationEpochs v))
         (Sfdp.validators (Sfdp.aggregate l)).
Proof.
  induction l as [ | a l IH ] using rev_ind; [ constructor | ].
  rewrite sfdp_aggregate_snoc. destruct a as [ d | ]; cbn [Sfdp.step Sfdp.validators];
    [ | exact IH ].
  apply upsert_forall; [ reflexivity | | exact IH ].
  intros v Hv. cbn [Sfdp.record Sfdp.stakeAccounts Sfdp.activationEpochs].
  rewrite length_app, Hv. cbn [List.length]. lia.
Qed.
End Generic.

Open Scope Qc_scope.

Lemma sum_upsert_active (k : string) (s : Qc) (b : bool) (e : Z)
      (vs : list (@Sfdp.Validator Qc)) :
  sum (map (@Sfdp.activeStake Qc) (Sfdp.upsert k (Sfdp.record s b e) vs))
  = sum (map (@Sfdp.activeStake Qc) vs) + (if b then 0 else s).
Proof.
  induction vs as [ | v vs IH ]; cbn [Sfdp.upsert map].
  - cbn [Sfdp.record Sfdp.fresh Sfdp.activeStake]. rewrite sum_cons, !sum_nil.
    destruct b; cbn [add exact_number]; change zero with 0; ring.
  - destruct (String.eqb (Sfdp.voter v) k); cbn [map]; rewrite !sum_cons.
    + cbn [Sfdp.record Sfdp.activeStake]. destruct b; cbn [add exact_number]; ring.
    + rewrite IH. ring.
Qed.

Lemma sum_upsert_deactivating (k : string) (s : Qc) (b : bool) (e : Z)
      (vs : list (@Sfdp.Validator Qc)) :
  sum (map (@Sfdp.deactivatingStake Qc) (Sfdp.upsert k (Sfdp.record s b e) vs))
  = sum (map (@Sfdp.deactivatingStake Qc) vs) + (if b then s else 0).
Proof.
  induction vs as [ | v vs IH ]; cbn [Sfdp.upsert map].
  - cbn [Sfdp.record Sfdp.fresh Sfdp.deactivatingStake]. rewrite sum_cons, !sum_nil.
    destruct b; cbn [add exact_number]; change zero with 0; ring.
  - destruct (String.eqb (Sfdp.voter v) k); cbn [map]; rewrite !sum_cons.
    + cbn [Sfdp.record Sfdp.deactivatingStake]. destruct b; cbn [add exact_number]; ring.
    + rewrite IH. ring.
Qed.

Lemma exact_invariants (l : list Rpc.Account) :
  let st := Sfdp.aggregate (N:=Qc) l in
  Forall (fun v => Sfdp.totalStake v = Sfdp.activeStake v + Sfdp.deactivatingStake v)
         (Sfdp.validators st) /\
  Sfdp.totalActive st = sum (map (@Sfdp.activeStake Qc) (Sfdp.validators st)) /\
  Sfdp.totalDeactivating st = sum (map (@Sfdp.deactivatingStake Qc) (Sfdp.validators st)).
Proof.
  induction l as [ | a l IH ] using rev_ind.
  - cbv zeta. split; [ constructor | split; reflexivity ].
  - cbv zeta in *. rewrite sfdp_aggregate_snoc. destruct IH as (IHv & IHa & IHd).
    destruct a as [ d | ]; cbn [Sfdp.step Sfdp.validators Sfdp.totalActive
                                 Sfdp.totalDeactivating];
      [ | split; [ exact IHv | split; assumption ] ].
    split; [ | split ].
    + apply upsert_forall; [ | | exact IHv ].
      * cbn [Sfdp.record Sfdp.fresh Sfdp.totalStake Sfdp.activeStake Sfdp.deactivatingStake].
        destruct (Rpc.deactivating d); cbn [add exact_number]; change zero with 0; ring.
      * intros v Hv.
        cbn [Sfdp.record Sfdp.totalStake Sfdp.activeStake Sfdp.deactivatingStake].
        rewrite Hv. destruct (Rpc.deactivating d); cbn [add exact_number]; ring.
    + rewrite sum_upsert_active, IHa.
      destruct (Rpc.deactivating d); cbn [add exact_number]; ring.
    + rewrite sum_upsert_deactivating, IHd.
      destruct (Rpc.deactivating d); cbn [add exact_number]; ring.
Qed.

(** C10, as amended.  After any prefix of the records, every entry counts as
    many accounts as it lists activation epochs, in every arithmetic; in exact
    arithmetic, moreover, its total stake is its active plus its deactivating
    stake and the two running totals are the sums over the entries, and the
    totals of the returned analysis are the sums over the validators it
    lists. *)
Theorem fold_invariants (accounts : list Rpc.Account) (n : nat) :
  (forall (N : Type) (H : Number N),
      Forall (fun v => Sfdp.stakeAccounts v = List.length (Sfdp.activationEpochs v))
             (Sfdp.validators (Sfdp.aggregate (N:=N) (firstn n accounts)))) /\
  (let st := Sfdp.aggregate (N:=Qc) (firstn n accounts) in
   Forall (fun v => Sfdp.totalStake v = Sfdp.activeStake v + Sfdp.deactivatingStake v)
          (Sfdp.validators st) /\
   Sfdp.totalActive st = sum (map (@Sfdp.activeStake Qc) (Sfdp.validators st)) /\
   Sfdp.totalDeactivating st
   = sum (map (@Sfdp.deactivatingStake Qc) (Sfdp.validators st))) /\
  (let r := Sfdp.analyzeStakeAccounts (N:=Qc) accounts in
   Sfdp.a_totalActive r = sum (map (@Sfdp.l_activeStake Qc) (Sfdp.allValidators r)) /\
   Sfdp.a_totalDeactivating r
   = sum (map (@Sfdp.l_deactivatingStake Qc) (Sfdp.allValidators r))).
Proof.
  split; [ intros N H; apply accounts_counted | ].
  split; [ apply exact_invariants | ].
  destruct (exact_invariants accounts) as (_ & Ha & Hd). cbv zeta in *.
  cbn [Sfdp.analyzeStakeAccounts Sfdp.a_totalActive Sfdp.a_totalDeactivating
       Sfdp.allValidators].
  rewrite !map_map. cbn [Sfdp.l_activeStake Sfdp.l_deactivatingStake].
  rewrite Ha, Hd. unfold Sfdp.sortValidators.
  split; apply sum_perm, Permutation_map, Permutation_sym, SortFacts.sort_perm.
Qed.

(** C10, the claim as stated: in binary64 a voter with 0.1 SOL active,
    0.1 SOL deactivating and 0.4 SOL active ends with a total stake of
    0.6000000000000001, an active stake of 0.5 and a deactivating stake of
    0.1, whose sum is 0.6. *)
Lemma total_is_not_the_sum_in_binary64 :
  let st := Sfdp.aggregate (N:=float) Samples.mixed in
  ~ Forall (fun v => Sfdp.totalStake v = add (Sfdp.activeStake v) (Sfdp.deactivatingStake v))
           (Sfdp.validators st).
Proof.
  intros st Hall. subst st. vm_compute in Hall.
  inversion Hall as [ | v vs Hv _ ]. clear - Hv.
  match type of Hv with
  | ?a = ?b => apply (f_equal (fun z => PrimFloat.ltb b z)) in Hv
  end.
  vm_compute in Hv. discriminate.
Qed.
End InvariantFacts.

(** ** Empty input *)

Module EmptyFacts.
Open Scope string_scope.

(** C2.  With no stake account, the binary64 run of both SFDP collectors
    raises nothing and most metrics are 0, but the mean is [0 / 0], NaN, and
    in [collect-enhanced.js] so is [top10Pct], while the Jito percentage is the
    string ["NaN"]; [JSON.stringify] then writes the two numbers as [null] and
    the string as it is.  [topValidatorPct], guarded in the source, is 0. *)
Theorem empty_input_yields_nan (lookup : string -> @Enhanced.Metadata float) :
  let a := Sfdp.analyzeStakeAccounts (N:=float) [] in
  let e := Enhanced.analyze lookup [] in
  (Sfdp.activeValidators a = 0%nat /\
   Sfdp.decentralization a
   = {| Sfdp.nakamotoCoeff33 := 0; Sfdp.superminorityCount := 0;
        Sfdp.hhi := zero; Sfdp.gini := zero |} /\
   decode (Sfdp.mean (Sfdp.stakeStats a)) = NotANumber /\
   Fmt.json (Sfdp.mean (Sfdp.stakeStats a)) = Null /\
   Sfdp.median (Sfdp.stakeStats a) = zero) /\
  (Enhanced.activeValidators e = 0%nat /\
   Enhanced.nakamotoCoeff33 (Enhanced.decentralization e) = 0%nat /\
   Enhanced.hhi (Enhanced.decentralization e) = zero /\
   Enhanced.gini (Enhanced.decentralization e) = zero /\
   Enhanced.topValidatorPct (Enhanced.decentralization e) = zero /\
   decode (Enhanced.top10Pct (Enhanced.decentralization e)) = NotANumber /\
   decode (Enhanced.mean (Enhanced.stakeStats e)) = NotANumber /\
   Fmt.json (Enhanced.top10Pct (Enhanced.decentralization e)) = Null /\
   Fmt.json (Enhanced.mean (Enhanced.stakeStats e)) = Null /\
   Enhanced.j_pct (Enhanced.jitoStats e) = Str "NaN").
Proof.
  cbv zeta. repeat split; vm_compute; reflexivity.
Qed.

(** The same when every account is deactivating: the total active stake is 0
    although the input is not empty. *)
Lemma no_active_stake_yields_nan :
  let accounts := [Samples.delegation 100000000 "A" false] in
  let e := Enhanced.analyze (N:=float) Samples.unknown accounts in
  decode (Sfdp.mean (Sfdp.stakeStats (Sfdp.analyzeStakeAccounts (N:=float) accounts)))
  = NotANumber /\
  decode (Enhanced.top10Pct (Enhanced.decentralization e)) = NotANumber /\
  Enhanced.j_pct (Enhanced.jitoStats e) = Str "NaN".
Proof.
  cbv zeta. repeat split; vm_compute; reflexivity.
Qed.
End EmptyFacts.

(** ** Percentages *)

Module PercentFacts.
Open Scope string_scope.
Section Generic.
Context {N : Type} `{Number N}.

(** [toFixed] returns a string, never a number. *)
Lemma toFixed_is_string (f : nat) (x : N) :
  (exists s, Fmt.toFixed f x = Str s) \/ Fmt.toFixed f x = StrOf x.
Proof.
  unfold Fmt.toFixed. destruct (decode x) as [ q | | | ]; eauto.
  destruct (Qle_bool (inject_Z (10 ^ 21)) (Qabs q)); eauto.
Qed.

Lemma toFixed_not_number (f : nat) (x y : N) : Fmt.toFixed f x <> Num y.
Proof.
  destruct (toFixed_is_string f x) as [ (s & E) | E ]; rewrite E; discriminate.
Qed.

Lemma sortObj_rows (total : N) (obj : list (string * Breakdown.Tally N)) :
  Forall (fun row => Breakdown.pct row
                     = Fmt.toFixed 2 (Spec.percent (Breakdown.r_stake row) total))
         (Breakdown.sortObj total obj).
Proof.
  unfold Breakdown.sortObj.
  eapply Permutation_Forall; [ apply Permutation_sym, SortFacts.sort_perm | ].
  apply Forall_map, Forall_forall. intros kv _. reflexivity.
Qed.

Lemma Forall_slice {A : Type} (P : A -> Prop) (n : nat) (l : list A) :
  Forall P l -> Forall P (Arr.slice0 n l).
Proof.
  unfold Arr.slice0. intro Hl. revert n.
  induction Hl as [ | x l Hx Hl IH ]; intros [ | n ]; cbn [firstn]; constructor; auto.
Qed.
End Generic.

(** C5, as amended.  In every arithmetic, the [pct] of each row of a
    breakdown is [toFixed(2)] of the stake share times 100, and so are the Jito
    percentages, the [pctOfTotal] of the listed validators ([toFixed(4)] in the
    whole-network collector) and the top-ASN percentages ([toFixed(1)] for the
    top-3 share): strings with a fixed number of decimals, never numbers.
    [top10Pct], in contrast, is the plain ratio times 100. *)
Theorem percentages_are_fixed_strings (N : Type) (H : Number N)
        (lookup : string -> @Enhanced.Metadata N) (accounts : list Rpc.Account)
        (sources : list (string * @Sfdp.Analysis N))
        (esources : list (string * @Enhanced.AccountReport N))
        (network_lookup : string -> Network.Metadata)
        (current delinquents : list Network.VoteAccount) :
  let e := Enhanced.analyze lookup accounts in
  let a := Sfdp.analyzeStakeAccounts accounts in
  let r := Network.main (N:=N) network_lookup current delinquents in
  let row_ok total :=
    fun row => Breakdown.pct row
               = Fmt.toFixed 2 (Spec.percent (Breakdown.r_stake row) total) in
  (forall total obj, Forall (row_ok total) (Breakdown.sortObj total obj)) /\
  (Forall (row_ok (Enhanced.r_totalActive e)) (Enhanced.geo_countries e) /\
   Forall (row_ok (Enhanced.r_totalActive e)) (Enhanced.geo_topCities e) /\
   Forall (row_ok (Enhanced.r_totalActive e)) (Enhanced.geo_topASNs e) /\
   Forall (row_ok (Enhanced.r_totalActive e)) (Enhanced.software_versions e) /\
   Forall (row_ok (Enhanced.r_totalActive e)) (Enhanced.commissionDistribution e) /\
   Enhanced.j_pct (Enhanced.jitoStats e)
   = Fmt.toFixed 2 (Spec.percent (Enhanced.j_stake (Enhanced.jitoStats e))
                                 (Enhanced.r_totalActive e))) /\
  (Forall (row_ok (Network.totalStake r)) (Network.geo_countries r) /\
   Forall (row_ok (Network.totalStake r)) (Network.geo_topCities r) /\
   Forall (row_ok (Network.totalStake r)) (Network.geo_topASNs r) /\
   Forall (row_ok (Network.totalStake r)) (Network.software_versions r) /\
   Forall (row_ok (Network.totalStake r)) (Network.commissionDistribution r) /\
   Network.jito_pct r
   = Fmt.toFixed 2 (Spec.percent (Network.jito_stake r) (Network.totalStake r)) /\
   Forall (fun l => Network.pctOfTotal l
                    = Fmt.toFixed 4 (Spec.percent (Network.stake (Network.listed l))
                                                  (Network.totalStake r)))
          (Network.validators r) /\
   exists share, Network.top3ASNPct r = Fmt.toFixed 1 (Spec.percent share (Network.totalStake r))) /\
  Forall (fun t => Sfdp.pctOfTotal t
                   = Fmt.toFixed 2 (Spec.percent (Sfdp.top_activeStake t)
                                                 (Sfdp.a_totalActive a)))
         (Sfdp.topValidators a) /\
  Forall (fun t => Sfdp.c_pctOfTotal t
                   = Fmt.toFixed 2 (Spec.percent (Sfdp.c_totalStake t)
                                      (Sfdp.totalActiveStake (Sfdp.combined sources))))
         (Sfdp.c_topValidators (Sfdp.combined sources)) /\
  match Enhanced.combined esources with
  | Some c =>
      Forall (fun t => Enhanced.pctOfTotal t
                       = Fmt.toFixed 2 (Spec.percent (Enhanced.m_totalStake (Enhanced.top t))
                                                     (Enhanced.totalActiveStake c)))
             (Enhanced.topValidators c) /\
      Forall (fun t => Enhanced.asn_pct t
                       = Fmt.toFixed 2 (Spec.percent (Enhanced.asn_stake t)
                                                     (Enhanced.totalActiveStake c)))
             (Enhanced.topASNs c) /\
      exists share,
        Enhanced.top3ASNPct c
        = Fmt.toFixed 1 (Spec.percent share (Enhanced.totalActiveStake c))
  | None => True
  end /\
  (forall f x y, Fmt.toFixed (N:=N) f x <> Num y) /\
  Enhanced.top10Pct (Enhanced.decentralization e)
  = Spec.percent (Metrics.top_stake 10
               (map (@Enhanced.activeStake N)
                    (filter (fun v => gtb (Enhanced.activeStake v) zero)
                            (Arr.sort (fun x y => sub (Enhanced.activeStake y)
                                                      (Enhanced.activeStake x))
                                      (Enhanced.validators (Enhanced.aggregate accounts))))))
            (Enhanced.r_totalActive e).
Proof.
  cbv zeta.
  split; [ intros total obj; apply sortObj_rows | ].
  split.
  { split; [ apply sortObj_rows | ].
    split; [ apply Forall_slice, sortObj_rows | ].
    split; [ apply Forall_slice, sortObj_rows | ].
    split; [ apply sortObj_rows | ].
    split; [ apply sortObj_rows | reflexivity ]. }
  split.
  { unfold Network.main, Network.build.
    cbn [Network.geo_countries Network.geo_topCities Network.geo_topASNs
         Network.software_versions Network.commissionDistribution Network.jito_pct
         Network.jito_stake Network.totalStake Network.validators Network.top3ASNPct].
    split; [ apply Forall_slice, sortObj_rows | ].
    split; [ apply Forall_slice, sortObj_rows | ].
    split; [ apply Forall_slice, sortObj_rows | ].
    split; [ apply sortObj_rows | ].
    split; [ apply sortObj_rows | ].
    split; [ reflexivity | ].
    split; [ apply Forall_map, Forall_forall; intros v _; reflexivity | ].
    eexists. reflexivity. }
  split; [ apply Forall_map, Forall_forall; intros v _; reflexivity | ].
  split; [ apply Forall_map, Forall_forall; intros v _; reflexivity | ].
  split.
  { unfold Enhanced.combined. destruct (Enhanced.get "mpa4" esources); [ | exact I ].
    cbn [Enhanced.topValidators Enhanced.topASNs Enhanced.top3ASNPct
         Enhanced.totalActiveStake].
    split; [ apply Forall_map, Forall_forall; intros v _; reflexivity | ].
    split; [ apply Forall_map, Forall_forall; intros v _; reflexivity | ].
    eexists. reflexivity. }
  split; [ intros f x y; apply toFixed_not_number | reflexivity ].
Qed.

(** C5, the claim as stated: for a voter with 2 SOL and one with 1 SOL the
    [pctOfTotal] fields are the strings ["66.67"] and ["33.33"], not the ratios
    times 100 (66.66666666666666 and 33.33333333333333 in binary64), and the
    country breakdown and the Jito percentage are strings as well. *)
Lemma percentages_are_not_plain_ratios :
  let a := Sfdp.analyzeStakeAccounts (N:=float) Samples.two_to_one in
  let e := Enhanced.analyze (N:=float) Samples.unknown Samples.two_to_one in
  map (@Sfdp.pctOfTotal float) (Sfdp.topValidators a) = [Str "66.67"; Str "33.33"] /\
  map (@Sfdp.pctOfTotal float) (Sfdp.topValidators a)
  <> map (fun t => Num (Spec.percent (Sfdp.top_activeStake t) (Sfdp.a_totalActive a)))
         (Sfdp.topValidators a) /\
  map (@Breakdown.pct float) (Enhanced.geo_countries e) = [Str "100.00"] /\
  Enhanced.j_pct (Enhanced.jitoStats e) = Str "0.00" /\
  Enhanced.j_pct (Enhanced.jitoStats e)
  <> Num (Spec.percent (Enhanced.j_stake (Enhanced.jitoStats e)) (Enhanced.r_totalActive e)).
Proof.
  cbv zeta. split; [ vm_compute; reflexivity | ].
  split; [ intro E; vm_compute in E; discriminate | ].
  split; [ vm_compute; reflexivity | ].
  split; [ vm_compute; reflexivity | ].
  intro E; vm_compute in E; discriminate.
Qed.
End PercentFacts.

(** ** Stake buckets *)

Module BucketFacts.
Import Exact.
Open Scope Qc_scope.

Lemma in_bucket_iff (v : Qc) (b : Metrics.bucket Qc) :
  Metrics.in_bucket v b = true
  <-> Metrics.min b <= v /\ match Metrics.max b with Some m => v < m | None => True end.
Proof.
  unfold Metrics.in_bucket. rewrite andb_true_iff, geb_ge.
  destruct (Metrics.max b) as [ m | ].
  - rewrite ltb_lt. reflexivity.
  - cbn [lt_Infinity exact_number]. intuition.
Qed.

(** Below the start of the ranges nothing matches. *)
Lemma ranges_above (lo : Qc) (bs : list (Metrics.bucket Qc)) (v : Qc) :
  Spec.ranges lo bs -> v < lo -> Forall (fun b => Metrics.in_bucket v b = false) bs.
Proof.
  induction 1 as [ lo b Hmin Hmax | lo hi b rest Hmin Hmax Hlt Hrest IH ]; intro Hv.
  - constructor; [ | constructor ].
    destruct (Metrics.in_bucket v b) eqn:E; [ | reflexivity ].
    apply in_bucket_iff in E. destruct E as [ E _ ]. rewrite Hmin in E.
    exfalso. exact (Qclt_not_le _ _ Hv E).
  - apply ltb_lt in Hlt. constructor.
    + destruct (Metrics.in_bucket v b) eqn:E; [ | reflexivity ].
      apply in_bucket_iff in E. destruct E as [ E _ ]. rewrite Hmin in E.
      exfalso. exact (Qclt_not_le _ _ Hv E).
    + apply IH. eapply Qclt_trans; eassumption.
Qed.

(** The scan credits the first range that contains the stake, and it is the
    only range that contains it. *)
Lemma place_spec (lo : Qc) (bs : list (Metrics.bucket Qc)) (v : Qc) :
  Spec.ranges lo bs -> lo <= v ->
  exists pre b post,
    bs = pre ++ b :: post /\
    Metrics.in_bucket v b = true /\
    Forall (fun b' => Metrics.in_bucket v b' = false) pre /\
    Forall (fun b' => Metrics.in_bucket v b' = false) post /\
    Metrics.place v bs = pre ++ Spec.credited v b :: post.
Proof.
  induction 1 as [ lo b Hmin Hmax | lo hi b rest Hmin Hmax Hlt Hrest IH ]; intro Hv.
  - assert (E : Metrics.in_bucket v b = true)
      by (apply in_bucket_iff; rewrite Hmin, Hmax; auto).
    exists [], b, []. cbn [app Metrics.place]. rewrite E. repeat split; constructor.
  - destruct (Qclt_le_dec v hi) as [ Hhi | Hhi ].
    + assert (E : Metrics.in_bucket v b = true)
        by (apply in_bucket_iff; rewrite Hmin, Hmax; auto).
      exists [], b, rest. cbn [app Metrics.place]. rewrite E.
      repeat split; [ constructor | ]. eapply ranges_above; eassumption.
    + assert (E : Metrics.in_bucket v b = false).
      { destruct (Metrics.in_bucket v b) eqn:E; [ | reflexivity ].
        apply in_bucket_iff in E. destruct E as [ _ E ]. rewrite Hmax in E.
        exfalso. exact (Qclt_not_le _ _ E Hhi). }
      destruct (IH Hhi) as (pre & b' & post & -> & Hb' & Hpre & Hpost & Hplace).
      exists (b :: pre), b', post. cbn [app Metrics.place]. rewrite E, Hplace.
      repeat split; [ exact Hb' | constructor; assumption | exact Hpost ].
Qed.





(** The scan changes counts and stakes, not the ranges. *)
Lemma place_ranges (lo : Qc) (bs : list (Metrics.bucket Qc)) (v : Qc) :
  Spec.ranges lo bs -> Spec.ranges lo (Metrics.place v bs).
Proof.
  induction 1 as [ lo b Hmin Hmax | lo hi b rest Hmin Hmax Hlt Hrest IH ];
    cbn [Metrics.place]; destruct (Metrics.in_bucket v b).
  - apply Spec.ranges_last; assumption.
  - apply Spec.ranges_last; assumption.
  - eapply Spec.ranges_next; eassumption.
  - eapply Spec.ranges_next; eassumption.
Qed.


Lemma sfdp_ranges : Spec.ranges 0 (Metrics.sfdp_buckets (N:=Qc)).
Proof.
  unfold Metrics.sfdp_buckets.
  repeat (eapply Spec.ranges_next; [ reflexivity | reflexivity | reflexivity | ]).
  apply Spec.ranges_last; reflexivity.
Qed.

Lemma enhanced_ranges : Spec.ranges 0 (Metrics.enhanced_buckets (N:=Qc)).
Proof.
  unfold Metrics.enhanced_buckets.
  repeat (eapply Spec.ranges_next; [ reflexivity | reflexivity | reflexivity | ]).
  apply Spec.ranges_last; reflexivity.
Qed.

Lemma network_ranges : Spec.ranges 0 (Metrics.network_buckets (N:=Qc)).
Proof.
  unfold Metrics.network_buckets.
  repeat (eapply Spec.ranges_next; [ reflexivity | reflexivity | reflexivity | ]).
  apply Spec.ranges_last; reflexivity.
Qed.



Lemma stake_nonneg (z : Z) : (0 <= z)%Z -> 0 <= div (of_Z z) (of_Z 1000000000 : Qc).
Proof.
  intro Hz. cbn [div of_Z exact_number]. unfold Qcle, Qcdiv, Qcinv, Qcmult.
  cbn [this Q2Qc]. rewrite !Qred_correct.
  apply Qmult_le_0_compat.
  - change 0%Q with (inject_Z 0). rewrite <- Zle_Qle. exact Hz.
  - discriminate.
Qed.



End BucketFacts.

(** ** The distribution that the metrics read *)

Module DistributionFacts.
Import Exact.

Section Generic.
Context {N : Type} `{Number N} {A : Type}.
Variable key : A -> N.

(** Sorting records by a key and reading the keys is sorting the keys. *)
Lemma insert_keys (x : A) (l : list A) :
  map key (Arr.insert (fun a b => sub (key b) (key a)) x l)
  = Arr.insert (fun a b => sub b a) (key x) (map key l).
Proof.
  induction l as [ | y l IH ]; cbn [Arr.insert map]; [ reflexivity | ].
  destruct (gtb (sub (key y) (key x)) zero); cbn [map]; [ | reflexivity ].
  f_equal. exact IH.
Qed.

Lemma sort_keys (l : list A) :
  map key (Arr.sort (fun a b => sub (key b) (key a)) l)
  = Arr.sort (fun a b => sub b a) (map key l).
Proof.
  induction l as [ | x l IH ]; cbn [Arr.sort fold_right map]; [ reflexivity | ].
  fold (Arr.sort (fun a b => sub (key b) (key a)) l).
  fold (Arr.sort (fun a b : N => sub b a) (map key l)).
  rewrite insert_keys, IH. reflexivity.
Qed.

Lemma filter_keys (q : N -> bool) (l : list A) :
  map key (filter (fun x => q (key x)) l) = filter q (map key l).
Proof.
  induction l as [ | x l IH ]; cbn [filter map]; [ reflexivity | ].
  destruct (q (key x)); cbn [map]; rewrite IH; reflexivity.
Qed.
End Generic.

Open Scope Qc_scope.

Lemma sort_descending (l : list Qc) :
  StronglySorted Spec.descending (Arr.sort (fun a b => sub b a) l).
Proof.
  assert (Hst : forall x y : Qc, Spec.stays (fun a b => sub b a) x y <-> y <= x).
  { intros x y. unfold Spec.stays. rewrite gtb_false. cbn [sub exact_number].
    change zero with 0. split; intro Hc; qc_lra. }
  apply Sorted_StronglySorted.
  - intros x y z Hxy Hyz. unfold Spec.descending in *. eapply Qcle_trans; eassumption.
  - assert (Hs : Sorted (Spec.stays (fun a b : Qc => sub b a))
                        (Arr.sort (fun a b => sub b a) l)).
    { apply SortFacts.sort_sorted. intros x y Hgt. apply Hst. apply gtb_gt in Hgt.
      cbn [sub exact_number] in Hgt. change zero with 0 in Hgt. qc_lra. }
    induction Hs as [ | y r Hr IH Hhd ]; constructor; [ exact IH | ].
    destruct Hhd; constructor. apply Hst. assumption.
Qed.

Lemma insert_front (x : Qc) (l : list Qc) :
  Forall (fun y => y <= x) l -> Arr.insert (fun a b => sub b a) x l = x :: l.
Proof.
  intro Hall. destruct Hall as [ | y l Hy _ ]; cbn [Arr.insert]; [ reflexivity | ].
  replace (gtb (sub y x) zero) with false; [ reflexivity | ].
  symmetry. apply gtb_false. cbn [sub exact_number]. change zero with 0. qc_lra.
Qed.

(** Filtering commutes with the stable sort. *)
Lemma filter_insert (q : Qc -> bool) (x : Qc) (l : list Qc) :
  StronglySorted Spec.descending l ->
  filter q (Arr.insert (fun a b => sub b a) x l)
  = if q x then Arr.insert (fun a b => sub b a) x (filter q l) else filter q l.
Proof.
  induction 1 as [ | y l Hl IH Hy ]; cbn [Arr.insert filter].
  - destruct (q x); reflexivity.
  - destruct (gtb (sub y x) zero) eqn:E; cbn [filter].
    + rewrite IH. destruct (q y), (q x); cbn [Arr.insert]; rewrite ?E; reflexivity.
    + apply gtb_false in E. cbn [sub exact_number] in E. change zero with 0 in E.
      assert (Hyx : y <= x) by qc_lra.
      assert (Hall : Forall (fun z => z <= x) (y :: l)).
      { constructor; [ exact Hyx | ]. revert Hy. apply Forall_impl.
        intros z Hz. unfold Spec.descending in Hz. eapply Qcle_trans; eassumption. }
      destruct (q x); [ | reflexivity ].
      symmetry. apply insert_front.
      change (Forall (fun z => z <= x) (filter q (y :: l))).
      apply Forall_forall. intros z Hz. apply filter_In in Hz.
      rewrite Forall_forall in Hall. apply Hall, Hz.
Qed.

Lemma filter_sort (q : Qc -> bool) (l : list Qc) :
  filter q (Arr.sort (fun a b => sub b a) l) = Arr.sort (fun a b => sub b a) (filter q l).
Proof.
  induction l as [ | x l IH ]; [ reflexivity | ].
  cbn [Arr.sort fold_right filter]. fold (Arr.sort (fun a b : Qc => sub b a) l).
  rewrite filter_insert by apply sort_descending. rewrite IH.
  destruct (q x); reflexivity.
Qed.

(** What [analyzeStakeAccounts] and [collect-enhanced.js] hand to the
    metrics: the active stakes above zero, in descending order. *)
Lemma stakes_read (A : Type) (key : A -> Qc) (l : list A) :
  map key (filter (fun v => gtb (key v) zero)
                  (Arr.sort (fun a b => sub (key b) (key a)) l))
  = Spec.distribution (map key l).
Proof.
  unfold Spec.distribution.
  rewrite (filter_keys key (fun s => gtb s zero)), sort_keys. apply filter_sort.
Qed.

Lemma distribution_positive (stakes : list Qc) :
  Forall (fun s => 0 < s) (Spec.distribution stakes).
Proof.
  unfold Spec.distribution.
  eapply Permutation_Forall; [ apply Permutation_sym, SortFacts.sort_perm | ].
  apply Forall_forall. intros s Hs. apply filter_In in Hs. apply gtb_gt, Hs.
Qed.

Lemma sfdp_metrics_read (accounts : list Rpc.Account) :
  Sfdp.decentralization (Sfdp.analyzeStakeAccounts (N:=Qc) accounts)
  = Spec.sfdp_metrics
      (Spec.distribution (map (@Sfdp.activeStake Qc)
                              (Sfdp.validators (Sfdp.aggregate accounts))))
      (Sfdp.totalActive (Sfdp.aggregate accounts)).
Proof.
  cbn [Sfdp.analyzeStakeAccounts Sfdp.decentralization].
  unfold Sfdp.active, Sfdp.sortValidators. rewrite stakes_read. reflexivity.
Qed.

Lemma enhanced_metrics_read (lookup : string -> @Enhanced.Metadata Qc)
      (accounts : list Rpc.Account) :
  Enhanced.decentralization (Enhanced.analyze lookup accounts)
  = Spec.enhanced_metrics
      (Spec.distribution (map (@Enhanced.activeStake Qc)
                              (Enhanced.validators (Enhanced.aggregate accounts))))
      (Enhanced.totalActive (Enhanced.aggregate accounts)).
Proof.
  cbn [Enhanced.analyze Enhanced.decentralization]. rewrite stakes_read. reflexivity.
Qed.



Lemma enhanced_stakes (accounts : list Rpc.Account) :
  map (@Enhanced.activeStake Qc) (Enhanced.validators (Enhanced.aggregate accounts))
  = map (@Sfdp.activeStake Qc) (Sfdp.validators (Sfdp.aggregate accounts)).
Proof.
  destruct (AggregateFacts.sfdp_is_enhanced (N:=Qc) accounts) as (<- & _).
  rewrite map_map. reflexivity.
Qed.



End DistributionFacts.

(** ** The combined section *)

Module CombinedFacts.
Import Exact.

Section Generic.
Context {N : Type} `{Number N}.

Lemma fold_invariant {A B : Type} (P : A -> Prop) (f : A -> B -> A) (l : list B) :
  (forall a x, In x l -> P a -> P (f a x)) -> forall a, P a -> P (fold_left f l a).
Proof.
  induction l as [ | x l IH ]; intros Hf a Ha; cbn [fold_left]; [ exact Ha | ].
  apply IH.
  - intros a' y Hy. apply Hf. right. exact Hy.
  - apply Hf; [ left; reflexivity | exact Ha ].
Qed.


Lemma nodup_snoc (k : string) (l : list string) :
  NoDup l -> ~ In k l -> NoDup (l ++ [k]).
Proof.
  intros Hnd Hnot. induction Hnd as [ | x l Hx Hl IH ]; cbn [app].
  - constructor; [ intros [] | constructor ].
  - constructor.
    + rewrite in_app_iff. cbn [In]. intros [ Hin | [ E | [] ] ]; [ auto | ].
      subst. apply Hnot. left. reflexivity.
    + apply IH. intro Hin. apply Hnot. right. exact Hin.
Qed.





(** The Nakamoto loop of the combined section runs over the merged stakes in
    descending order, with their sum as total. *)
Lemma combined_nakamoto (sources : list (string * @Sfdp.Analysis N)) :
  Sfdp.c_nakamotoCoeff33 (Sfdp.combined sources)
  = Metrics.nakamoto33
      (Arr.sort (fun a b => sub b a) (map (@Sfdp.m_totalStake N) (Sfdp.mergeAll sources)))
      (sum (map (@Sfdp.m_totalStake N) (Sfdp.mergeAll sources))).
Proof.
  cbn [Sfdp.combined Sfdp.c_nakamotoCoeff33]. unfold Sfdp.combinedSorted, Sfdp.combinedTotal.
  rewrite (DistributionFacts.sort_keys (@Sfdp.m_totalStake N)). reflexivity.
Qed.

(** The same for the combined section of [collect-enhanced.js]. *)
Lemma enhanced_merge1_voters (key : string) (v : @Enhanced.Enriched N)
      (all : list (@Enhanced.Merged N)) :
  map (@Enhanced.m_voter N) (Enhanced.merge1 key v all)
  = if existsb (String.eqb (Enhanced.voter (Enhanced.base v))) (map (@Enhanced.m_voter N) all)
    then map (@Enhanced.m_voter N) all
    else map (@Enhanced.m_voter N) all ++ [Enhanced.voter (Enhanced.base v)].
Proof.
  induction all as [ | m all IH ]; cbn [Enhanced.merge1 map existsb]; [ reflexivity | ].
  rewrite (String.eqb_sym (Enhanced.voter (Enhanced.base v)) (Enhanced.m_voter m)).
  destruct (String.eqb (Enhanced.m_voter m) (Enhanced.voter (Enhanced.base v)));
    cbn [map orb]; [ reflexivity | ].
  rewrite IH. destruct (existsb _ _); reflexivity.
Qed.

Lemma enhanced_merged_nodup (sources : list (string * @Enhanced.AccountReport N)) :
  NoDup (map (@Enhanced.m_voter N) (Enhanced.mergeAll sources)).
Proof.
  unfold Enhanced.mergeAll. apply fold_invariant; [ | constructor ].
  intros all kd _ Hall. apply fold_invariant; [ | exact Hall ].
  intros all' v _ Hnd. rewrite enhanced_merge1_voters.
  destruct (existsb _ _) eqn:E; [ exact Hnd | ].
  apply nodup_snoc; [ exact Hnd | ].
  intro Hin. apply AggregateFacts.seen_iff in Hin. congruence.
Qed.

End Generic.

Open Scope Qc_scope.





End CombinedFacts.

Module CombinedCounter.
Open Scope string_scope.




End CombinedCounter.

(** ** The analysis as a whole *)

Module ReportFacts.
Import Exact.
Open Scope Qc_scope.

(** With no negative stake among the records, no entry has a negative
    active stake. *)
Lemma active_nonneg (l : list Rpc.Account) :
  Forall (fun d => (0 <= Rpc.stake d)%Z) (Spec.delegations l) ->
  Forall (fun v => 0 <= Sfdp.activeStake v) (Sfdp.validators (Sfdp.aggregate (N:=Qc) l)).
Proof.
  induction l as [ | a l IH ] using rev_ind; intro Hall; [ constructor | ].
  rewrite AggregateFacts.delegations_snoc in Hall. apply Forall_app in Hall.
  destruct Hall as [ Hl Ha ]. specialize (IH Hl).
  rewrite AggregateFacts.sfdp_aggregate_snoc.
  destruct a as [ d | ]; cbn [Sfdp.step Sfdp.validators]; [ | exact IH ].
  inversion Ha as [ | d' ds Hd _ ]; subst.
  pose proof (BucketFacts.stake_nonneg Hd) as Hs.
  apply InvariantFacts.upsert_forall; [ | | exact IH ].
  - cbn [Sfdp.record Sfdp.fresh Sfdp.activeStake].
    destruct (Rpc.deactivating d); cbn [add exact_number]; change zero with 0;
      [ apply Qcle_refl | qc_lra ].
  - intros v Hv. cbn [Sfdp.record Sfdp.activeStake].
    destruct (Rpc.deactivating d); cbn [add exact_number]; [ exact Hv | qc_lra ].
Qed.

(** Entries without stake add nothing to a sum. *)
Lemma sum_positive_part (l : list Qc) :
  Forall (fun s => 0 <= s) l -> sum (filter (fun s => gtb s zero) l) = sum l.
Proof.
  induction 1 as [ | x l Hx _ IH ]; [ reflexivity | ].
  cbn [filter]. destruct (gtb x zero) eqn:E.
  - rewrite !sum_cons, IH. reflexivity.
  - apply gtb_false in E. change zero with 0 in E.
    rewrite sum_cons, IH. assert (Ex : x = 0) by (apply Qcle_antisym; assumption).
    rewrite Ex. ring.
Qed.

(** The loop with the lower of two thresholds stops no later. *)
Lemma prefix_loop_mono (lo hi : Qc) (l : list Qc) :
  lo <= hi ->
  forall r c, (c <= Metrics.prefix_loop lo r c l <= Metrics.prefix_loop hi r c l)%nat.
Proof.
  intro Hle. induction l as [ | s rest IH ]; intros r c; cbn [Metrics.prefix_loop];
    [ lia | ].
  destruct (geb (add r s) hi) eqn:Ehi.
  - apply geb_ge in Ehi.
    assert (Elo : geb (add r s) lo = true) by (apply geb_ge; eapply Qcle_trans; eassumption).
    rewrite Elo. lia.
  - destruct (geb (add r s) lo) eqn:Elo.
    + pose proof (IH (add r s) (S c)). lia.
    + pose proof (IH (add r s) (S c)). lia.
Qed.

(** The stakes above zero that an analysis lists, in the order of the
    listing: the distribution its metrics are computed from. *)
Lemma listed_distribution (accounts : list Rpc.Account) :
  filter (fun s => gtb s zero)
         (map (@Sfdp.l_activeStake Qc)
              (Sfdp.allValidators (Sfdp.analyzeStakeAccounts accounts)))
  = Spec.distribution (map (@Sfdp.activeStake Qc)
                           (Sfdp.validators (Sfdp.aggregate accounts))).
Proof.
  cbn [Sfdp.analyzeStakeAccounts Sfdp.allValidators]. rewrite map_map.
  cbn [Sfdp.l_activeStake]. unfold Sfdp.sortValidators.
  rewrite <- (DistributionFacts.filter_keys (@Sfdp.activeStake Qc) (fun s => gtb s zero)).
  apply DistributionFacts.stakes_read.
Qed.
Lemma sum_nonnegative (l : list Qc) : Forall (fun s => 0 <= s) l -> 0 <= sum l.
Proof.
  induction 1 as [ | x l Hx _ IH ]; [ rewrite sum_nil; apply Qcle_refl | ].
  rewrite sum_cons. qc_lra.
Qed.

(** With no negative stake among the records, the total active stake of the
    analysis is the sum of the distribution its metrics read. *)
Lemma total_is_distribution_sum (accounts : list Rpc.Account) :
  Forall (fun d => (0 <= Rpc.stake d)%Z) (Spec.delegations accounts) ->
  Sfdp.totalActive (Sfdp.aggregate (N:=Qc) accounts)
  = sum (Spec.distribution (map (@Sfdp.activeStake Qc)
                                (Sfdp.validators (Sfdp.aggregate accounts)))).
Proof.
  intro Hall. destruct (InvariantFacts.exact_invariants accounts) as (_ & Ha & _).
  cbv zeta in Ha. rewrite Ha. unfold Spec.distribution.
  rewrite (sum_perm (SortFacts.sort_perm _ _)).
  symmetry. apply sum_positive_part, Forall_map, active_nonneg, Hall.
Qed.

(** X1.  The Nakamoto coefficient that [analyzeStakeAccounts] reports.  In exact
    arithmetic, when no record has a negative stake and some validator has
    active stake, the total active stake is the sum of the stakes above zero
    that the analysis lists, and the coefficient [k] is the smallest number of
    leading validators of the listing that hold a third of it: [k] is between
    1 and [activeValidators], the first [k] listed stakes reach
    [totalActive / 3] and the first [k - 1] do not. *)
Theorem analysis_nakamoto_smallest_prefix (accounts : list Rpc.Account) :
  Forall (fun d => (0 <= Rpc.stake d)%Z) (Spec.delegations accounts) ->
  let a := Sfdp.analyzeStakeAccounts (N:=Qc) accounts in
  (0 < Sfdp.activeValidators a)%nat ->
  let stakes := filter (fun s => gtb s zero)
                       (map (@Sfdp.l_activeStake Qc) (Sfdp.allValidators a)) in
  let k := Sfdp.nakamotoCoeff33 (Sfdp.decentralization a) in
  let third := div (Sfdp.a_totalActive a) (of_Z 3) in
  Sfdp.a_totalActive a = sum stakes /\
  List.length stakes = Sfdp.activeValidators a /\
  (1 <= k <= Sfdp.activeValidators a)%nat /\
  third <= sum (firstn k stakes) /\
  sum (firstn (k - 1) stakes) < third.
Proof.
  intros Hall a Hactive stakes k third.
  assert (Es : stakes = Spec.distribution (map (@Sfdp.activeStake Qc)
                                               (Sfdp.validators (Sfdp.aggregate accounts))))
    by apply listed_distribution.
  assert (El : List.length stakes = Sfdp.activeValidators a).
  { rewrite Es. subst a. cbn [Sfdp.analyzeStakeAccounts Sfdp.activeValidators].
    unfold Sfdp.active, Sfdp.sortValidators.
    rewrite <- (DistributionFacts.stakes_read (@Sfdp.activeStake Qc)), length_map.
    reflexivity. }
  assert (Et : Sfdp.a_totalActive a = sum stakes)
    by (rewrite Es; apply total_is_distribution_sum, Hall).
  assert (Ek : k = Metrics.nakamoto33 stakes (Sfdp.a_totalActive a)).
  { subst k a. rewrite DistributionFacts.sfdp_metrics_read, Es. reflexivity. }
  assert (Hne : stakes <> []) by (intro E; rewrite E in El; cbn [List.length] in El; lia).
  assert (Hpos : Forall (fun s => 0 < s) stakes)
    by (rewrite Es; apply DistributionFacts.distribution_positive).
  assert (Htpos : 0 < sum stakes) by (apply sum_pos; assumption).
  assert (Hthird : 0 < third /\ third <= sum stakes).
  { subst third. rewrite Et. cbn [div of_Z exact_number]. split; qc_lra. }
  destruct Hthird as [ Hlo Hhi ].
  destruct (NakamotoFacts.prefix_loop_smallest Hne Hlo Hhi) as (Hk & Hge & Hshort).
  cbv zeta in Hk, Hge, Hshort.
  assert (Ek' : Metrics.prefix_loop third zero 0 stakes = k) by (rewrite Ek; reflexivity).
  rewrite Ek' in Hk, Hge, Hshort.
  split; [ exact Et | ]. split; [ exact El | ]. split; [ lia | ].
  split; [ exact Hge | apply Hshort; lia ].
Qed.

Lemma analysis_nakamoto_smallest_prefix_witness :
  let a := Sfdp.analyzeStakeAccounts (N:=Qc) Samples.six_three_one in
  let stakes := filter (fun s => gtb s zero)
                       (map (@Sfdp.l_activeStake Qc) (Sfdp.allValidators a)) in
  let k := Sfdp.nakamotoCoeff33 (Sfdp.decentralization a) in
  (1 <= k <= Sfdp.activeValidators a)%nat /\
  div (Sfdp.a_totalActive a) (of_Z 3) <= sum (firstn k stakes).
Proof.
  intros a stakes k.
  assert (Hall : Forall (fun d => (0 <= Rpc.stake d)%Z)
                        (Spec.delegations Samples.six_three_one))
    by (repeat constructor; discriminate).
  assert (Hactive : (0 < Sfdp.activeValidators a)%nat) by (vm_compute; lia).
  destruct (@analysis_nakamoto_smallest_prefix Samples.six_three_one Hall Hactive)
    as (_ & _ & Hk & Hge & _).
  split; [ exact Hk | exact Hge ].
Defined.

(** X2.  The superminority count never exceeds the Nakamoto coefficient: in
    exact arithmetic, with no negative stake among the records, the loop with
    the threshold [totalActive * 0.33] stops no later than the loop with the
    threshold [totalActive / 3]. *)
Theorem superminority_at_most_nakamoto (accounts : list Rpc.Account) :
  Forall (fun d => (0 <= Rpc.stake d)%Z) (Spec.delegations accounts) ->
  let d := Sfdp.decentralization (Sfdp.analyzeStakeAccounts (N:=Qc) accounts) in
  (Sfdp.superminorityCount d <= Sfdp.nakamotoCoeff33 d)%nat.
Proof.
  intros Hall d. subst d. rewrite DistributionFacts.sfdp_metrics_read.
  cbn [Spec.sfdp_metrics Sfdp.superminorityCount Sfdp.nakamotoCoeff33].
  unfold Metrics.superminority, Metrics.nakamoto33.
  apply prefix_loop_mono.
  assert (Ht : 0 <= Sfdp.totalActive (Sfdp.aggregate (N:=Qc) accounts)).
  { destruct (InvariantFacts.exact_invariants accounts) as (_ & Ha & _).
    cbv zeta in Ha. rewrite Ha.
    apply sum_nonnegative, Forall_map, active_nonneg, Hall. }
  unfold decimal. cbn [mul div of_Z exact_number]. qc_lra.
Qed.

Lemma superminority_at_most_nakamoto_witness :
  let d := Sfdp.decentralization (Sfdp.analyzeStakeAccounts (N:=Qc) Samples.six_three_one) in
  (Sfdp.superminorityCount d <= Sfdp.nakamotoCoeff33 d)%nat.
Proof.
  apply superminority_at_most_nakamoto. repeat constructor; discriminate.
Defined.

(** X3.  The aggregation fold groups the records by voter, in every arithmetic:
    both collectors keep one entry for each voter that some record names, in
    the order of the voters' first records; the entry counts the records of
    its voter and holds, as active and as deactivating stake, the sums of the
    stakes of those of them that are not, and that are, deactivating, added in
    the order of the records; the two running totals are the same sums over
    the records of all voters. *)
Theorem aggregation_groups_by_voter (N : Type) (H : Number N) (accounts : list Rpc.Account) :
  Enhanced.validators (Enhanced.aggregate (N:=N) accounts)
  = map (Spec.aggregate_of accounts) (Spec.voters accounts) /\
  map Spec.listed (Sfdp.validators (Sfdp.aggregate (N:=N) accounts))
  = map (Spec.aggregate_of accounts) (Spec.voters accounts) /\
  NoDup (Spec.voters accounts) /\
  (forall k, In k (Spec.voters accounts)
             <-> exists d, In d (Spec.delegations accounts) /\ Rpc.voter d = k) /\
  Sfdp.totalActive (Sfdp.aggregate (N:=N) accounts)
  = sum (map Spec.stake_of
             (filter (fun d => negb (Rpc.deactivating d)) (Spec.delegations accounts))) /\
  Sfdp.totalDeactivating (Sfdp.aggregate (N:=N) accounts)
  = sum (map Spec.stake_of (filter Rpc.deactivating (Spec.delegations accounts))).
Proof.
  destruct (AggregateFacts.sfdp_is_enhanced (N:=N) accounts) as (Ev & Ea & Ed & _).
  destruct (AggregateFacts.totals_spec (N:=N) accounts) as (Ta & Td).
  split; [ apply AggregateFacts.validators_spec | ].
  split; [ rewrite Ev; apply AggregateFacts.validators_spec | ].
  split; [ apply AggregateFacts.voters_nodup | ].
  split; [ intro k; apply AggregateFacts.voters_in | ].
  split; [ rewrite Ea; exact Ta | rewrite Ed; exact Td ].
Qed.

End ReportFacts.

(** ** The breakdowns by category *)

Module TallyFacts.
Section Generic.
Context {N : Type} `{Number N}.

Lemma insert_index_perm {V : Type} (n : BinNums.N) (kv : string * V)
      (l : list (BinNums.N * (string * V))) :
  Permutation (Breakdown.insert_index n kv l) ((n, kv) :: l).
Proof.
  induction l as [ | [ m kv' ] l IH ]; cbn [Breakdown.insert_index]; [ apply Permutation_refl | ].
  destruct (n <? m)%N; [ apply Permutation_refl | ].
  apply Permutation_trans with ((m, kv') :: (n, kv) :: l);
    [ apply perm_skip, IH | apply perm_swap ].
Qed.

(** [Object.entries] lists every entry of the object, once. *)
Lemma entries_perm {V : Type} (o : list (string * V)) : Permutation (Breakdown.entries o) o.
Proof.
  unfold Breakdown.entries.
  set (is_index := fun kv : string * V =>
                     match Breakdown.array_index (fst kv) with Some _ => true | None => false end).
  set (step := fun (acc : list (BinNums.N * (string * V))) (kv : string * V) =>
                 match Breakdown.array_index (fst kv) with
                 | Some n => Breakdown.insert_index n kv acc
                 | None => acc
                 end).
  assert (Hidx : forall l acc,
             Permutation (map snd (fold_left step l acc)) (map snd acc ++ filter is_index l)).
  { induction l as [ | kv l IH ]; intro acc; cbn [fold_left filter].
    - rewrite app_nil_r. apply Permutation_refl.
    - eapply Permutation_trans; [ apply IH | ]. unfold step at 1, is_index at 2.
      destruct (Breakdown.array_index (fst kv)) as [ n | ].
      + apply Permutation_trans with (map snd ((n, kv) :: acc) ++ filter is_index l).
        * apply Permutation_app_tail, Permutation_map, insert_index_perm.
        * cbn [map snd]. apply Permutation_middle.
      + apply Permutation_refl. }
  eapply Permutation_trans; [ apply Permutation_app_tail, Hidx | ].
  cbn [map app]. clear Hidx step.
  induction o as [ | kv o IH ]; cbn [filter]; [ apply perm_nil | ].
  unfold is_index at 1. destruct (Breakdown.array_index (fst kv)); cbn [app].
  - apply perm_skip, IH.
  - apply Permutation_sym, Permutation_cons_app, Permutation_sym, IH.
Qed.

Lemma note_in (k k' : string) (seen : list string) :
  In k' (Views.note seen k) <-> In k' seen \/ k' = k.
Proof.
  unfold Views.note. destruct (existsb (String.eqb k) seen) eqn:E.
  - apply AggregateFacts.seen_iff in E. split; [ auto | ].
    intros [ Hin | -> ]; assumption.
  - rewrite in_app_iff. cbn [In]. split; intros [ Hin | Hk ]; auto.
    + destruct Hk as [ <- | [] ]. auto.
Qed.

Lemma note_nodup (k : string) (seen : list string) : NoDup seen -> NoDup (Views.note seen k).
Proof.
  intro Hnd. unfold Views.note. destruct (existsb (String.eqb k) seen) eqn:E; [ exact Hnd | ].
  apply NoDup_app; [ exact Hnd | constructor; [ intros [] | constructor ] | ].
  intros x Hx [ <- | [] ]. apply AggregateFacts.seen_iff in Hx. congruence.
Qed.

Lemma categories_snoc (ks : list string) (k : string) :
  Views.categories (ks ++ [k]) = Views.note (Views.categories ks) k.
Proof. unfold Views.categories. rewrite fold_left_app. reflexivity. Qed.

Lemma categories_nodup (ks : list string) : NoDup (Views.categories ks).
Proof.
  induction ks as [ | k ks IH ] using rev_ind; [ constructor | ].
  rewrite categories_snoc. apply note_nodup, IH.
Qed.

Lemma categories_in (k : string) (ks : list string) : In k (Views.categories ks) <-> In k ks.
Proof.
  induction ks as [ | k' ks IH ] using rev_ind; [ reflexivity | ].
  rewrite categories_snoc, note_in, in_app_iff, IH. cbn [In].
  split; intros [ Hin | Hk ]; auto.
  destruct Hk as [ -> | [] ]. auto.
Qed.

Lemma tally_snoc (items : list (string * N)) (kv : string * N) :
  Views.tally (items ++ [kv]) = Breakdown.bump (fst kv) (snd kv) (Views.tally items).
Proof. unfold Views.tally. rewrite fold_left_app. reflexivity. Qed.

Lemma tally_of_snoc (items : list (string * N)) (kv : string * N) (k : string) :
  Views.tally_of (items ++ [kv]) k
  = if String.eqb (fst kv) k
    then {| Breakdown.count := S (Breakdown.count (Views.tally_of items k));
            Breakdown.stake := add (Breakdown.stake (Views.tally_of items k)) (snd kv) |}
    else Views.tally_of items k.
Proof.
  unfold Views.tally_of. rewrite filter_app. cbn [filter].
  destruct (String.eqb (fst kv) k).
  - rewrite length_app, map_app. cbn [map List.length].
    rewrite AggregateFacts.sum_snoc. cbn [Breakdown.count Breakdown.stake]. f_equal. lia.
  - rewrite app_nil_r. reflexivity.
Qed.

Lemma tally_of_unseen (items : list (string * N)) (k : string) :
  ~ In k (map fst items) ->
  Views.tally_of items k = {| Breakdown.count := 0; Breakdown.stake := zero |}.
Proof.
  intro Hk. unfold Views.tally_of. rewrite AggregateFacts.filter_none; [ reflexivity | ].
  intros kv Hin. destruct (String.eqb (fst kv) k) eqn:E; [ | reflexivity ].
  apply String.eqb_eq in E. exfalso. apply Hk. rewrite <- E. apply in_map, Hin.
Qed.

Lemma bump_seen (k : string) (s : N) (f : string -> Breakdown.Tally N) (ks : list string) :
  NoDup ks -> In k ks ->
  Breakdown.bump k s (map (fun k' => (k', f k')) ks)
  = map (fun k' => (k', if String.eqb k k'
                        then {| Breakdown.count := S (Breakdown.count (f k'));
                                Breakdown.stake := add (Breakdown.stake (f k')) s |}
                        else f k')) ks.
Proof.
  induction 1 as [ | k' ks Hk' Hnd IH ]; intro Hin; [ destruct Hin | ].
  cbn [map Breakdown.bump]. rewrite (String.eqb_sym k k').
  destruct (String.eqb k' k) eqn:E.
  - apply String.eqb_eq in E. subst k'. f_equal.
    apply map_ext_in. intros x Hx. destruct (String.eqb k x) eqn:Ex; [ | reflexivity ].
    apply String.eqb_eq in Ex. subst x. contradiction.
  - f_equal. apply IH. destruct Hin as [ -> | Hin ]; [ | exact Hin ].
    rewrite String.eqb_refl in E. discriminate.
Qed.

Lemma bump_unseen (k : string) (s : N) (f : string -> Breakdown.Tally N) (ks : list string) :
  ~ In k ks ->
  Breakdown.bump k s (map (fun k' => (k', f k')) ks)
  = (map (fun k' => (k', f k')) ks
     ++ [(k, {| Breakdown.count := 1; Breakdown.stake := add zero s |})])%list.
Proof.
  induction ks as [ | k' ks IH ]; intro Hk; [ reflexivity | ].
  cbn [map Breakdown.bump app]. destruct (String.eqb k' k) eqn:E.
  - apply String.eqb_eq in E. subst k'. exfalso. apply Hk. left. reflexivity.
  - f_equal. apply IH. intro Hin. apply Hk. right. exact Hin.
Qed.

(** The tally loop keeps one entry for each key, in the order of the first
    occurrences, and the entry of a key holds the tally of its items. *)
Lemma tally_spec (items : list (string * N)) :
  Views.tally items
  = map (fun k => (k, Views.tally_of items k)) (Views.categories (map fst items)).
Proof.
  induction items as [ | kv items IH ] using rev_ind; [ reflexivity | ].
  rewrite tally_snoc, IH, map_app. cbn [map]. rewrite categories_snoc. unfold Views.note.
  destruct (existsb (String.eqb (fst kv)) (Views.categories (map fst items))) eqn:E.
  - apply AggregateFacts.seen_iff in E.
    rewrite bump_seen; [ | apply categories_nodup | exact E ].
    apply map_ext. intro k. rewrite tally_of_snoc. reflexivity.
  - assert (Hnot : ~ In (fst kv) (Views.categories (map fst items)))
      by (intro Hin; apply AggregateFacts.seen_iff in Hin; congruence).
    rewrite bump_unseen by exact Hnot. rewrite map_app. cbn [map]. f_equal.
    + apply map_ext_in. intros k Hk. rewrite tally_of_snoc.
      destruct (String.eqb (fst kv) k) eqn:Ek; [ | reflexivity ].
      apply String.eqb_eq in Ek. subst k. contradiction.
    + rewrite tally_of_snoc, String.eqb_refl.
      rewrite tally_of_unseen; [ reflexivity | ].
      intro Hin. apply Hnot, categories_in, Hin.
Qed.

(** [sortObj] lists the rows of the categories of the tally. *)
Lemma sortObj_rows_of (total : N) (items : list (string * N)) :
  Permutation (Breakdown.sortObj total (Views.tally items)) (Views.rows_of total items).
Proof.
  unfold Breakdown.sortObj. eapply Permutation_trans; [ apply SortFacts.sort_perm | ].
  eapply Permutation_trans; [ apply Permutation_map, entries_perm | ].
  rewrite tally_spec, map_map. apply Permutation_refl.
Qed.
End Generic.

Section Reports.
Context {N : Type} `{Number N}.

Lemma fold_left_map {A B C : Type} (f : A -> B -> A) (g : C -> B) (l : list C) (a : A) :
  fold_left f (map g l) a = fold_left (fun a x => f a (g x)) l a.
Proof. revert a. induction l as [ | x l IH ]; intro a; cbn [map fold_left]; auto. Qed.

(** A tally of [collect-enhanced.js], read from the five that the loop of
    lines 163-186 fills together. *)
Lemma enhanced_tally_project
      (proj : @Enhanced.Tallies N -> list (string * Breakdown.Tally N))
      (key : @Enhanced.Metadata N -> string) :
  (forall t v, proj (Enhanced.tally1 t v)
               = if leb (Enhanced.e_active v) zero then proj t
                 else Breakdown.bump (key (Enhanced.meta v)) (Enhanced.e_active v) (proj t)) ->
  forall vals t,
    proj (fold_left Enhanced.tally1 vals t)
    = fold_left (fun o kv => Breakdown.bump (fst kv) (snd kv) o)
                (Views.enhanced_items key vals) (proj t).
Proof.
  intros Hstep vals. unfold Views.enhanced_items.
  induction vals as [ | v vals IH ]; intro t; cbn [fold_left filter map]; [ reflexivity | ].
  rewrite IH, Hstep. destruct (leb (Enhanced.e_active v) zero); reflexivity.
Qed.

Lemma enhanced_tallies (vals : list (@Enhanced.Enriched N)) :
  Enhanced.countries (Enhanced.tallies vals)
  = Views.tally (Views.enhanced_items Views.e_country vals) /\
  Enhanced.cities (Enhanced.tallies vals)
  = Views.tally (Views.enhanced_items Views.e_city vals) /\
  Enhanced.asns (Enhanced.tallies vals)
  = Views.tally (Views.enhanced_items Views.e_asn vals) /\
  Enhanced.versions (Enhanced.tallies vals)
  = Views.tally (Views.enhanced_items Views.e_version vals) /\
  Enhanced.commissions (Enhanced.tallies vals)
  = Views.tally (Views.enhanced_items Views.e_commission vals).
Proof.
  unfold Enhanced.tallies, Views.tally.
  repeat split;
    match goal with
    | |- ?p _ = fold_left _ (Views.enhanced_items ?key _) _ =>
        apply (enhanced_tally_project p key)
    end;
    intros t v; unfold Enhanced.tally1; destruct (leb (Enhanced.e_active v) zero); reflexivity.
Qed.

Lemma network_tally_project
      (proj : @Network.Tallies N -> list (string * Breakdown.Tally N))
      (key : @Network.Validator N -> string) :
  (forall t v, proj (Network.tally1 t v)
               = Breakdown.bump (key v) (Network.stake v) (proj t)) ->
  forall vals t,
    proj (fold_left Network.tally1 vals t)
    = fold_left (fun o kv => Breakdown.bump (fst kv) (snd kv) o)
                (Views.network_items key vals) (proj t).
Proof.
  intros Hstep vals. unfold Views.network_items.
  induction vals as [ | v vals IH ]; intro t; cbn [fold_left map]; [ reflexivity | ].
  rewrite IH, Hstep. reflexivity.
Qed.

Lemma network_tallies (vals : list (@Network.Validator N)) :
  Network.countries (Network.tallies vals)
  = Views.tally (Views.network_items Views.n_country vals) /\
  Network.cities (Network.tallies vals)
  = Views.tally (Views.network_items Views.n_city vals) /\
  Network.asns (Network.tallies vals)
  = Views.tally (Views.network_items Views.n_asn vals) /\
  Network.versions (Network.tallies vals)
  = Views.tally (Views.network_items Views.n_version vals) /\
  Network.commissions (Network.tallies vals)
  = Views.tally (Views.network_items Views.n_commission vals).
Proof.
  unfold Network.tallies, Views.tally.
  repeat split;
    match goal with
    | |- ?p _ = fold_left _ (Views.network_items ?key _) _ =>
        apply (network_tally_project p key)
    end;
    intros t v; reflexivity.
Qed.

Lemma slice_incl {A : Type} (n : nat) (l l' : list A) :
  Permutation l l' -> incl (Arr.slice0 n l) l'.
Proof.
  intros Hp x Hx. unfold Arr.slice0 in Hx.
  eapply Permutation_in; [ exact Hp | ].
  rewrite <- (firstn_skipn n l). apply in_or_app. left. exact Hx.
Qed.

(** The names of the rows of a breakdown are distinct. *)
Lemma rows_of_names (total : N) (items : list (string * N)) :
  map (@Breakdown.name N) (Views.rows_of total items) = Views.categories (map fst items).
Proof. unfold Views.rows_of. rewrite map_map. cbn [Breakdown.name]. apply map_id. Qed.

(** The validators that [main] lists, and its total. *)
Lemma network_listing (lookup : string -> Network.Metadata)
      (current delinquents : list Network.VoteAccount) :
  let r := Network.main (N:=N) lookup current delinquents in
  map (@Network.listed N) (Network.validators r)
  = Arr.sort (fun a b => sub (Network.stake b) (Network.stake a))
             (fst (Network.build lookup current delinquents)) /\
  Network.totalStake r = snd (Network.build lookup current delinquents).
Proof.
  unfold Network.main, Network.build. cbn [fst snd Network.validators Network.totalStake].
  rewrite map_map. cbn [Network.listed]. rewrite map_id. split; reflexivity.
Qed.
End Reports.

Lemma slice_names_nodup {N : Type} (n : nat) (l l' : list (Breakdown.Row N)) :
  Permutation l l' -> NoDup (map (@Breakdown.name N) l') ->
  NoDup (map (@Breakdown.name N) (Arr.slice0 n l)).
Proof.
  intros Hp Hnd. unfold Arr.slice0.
  assert (Hl : NoDup (map (@Breakdown.name N) l))
    by (eapply Permutation_NoDup; [ apply Permutation_map, Permutation_sym, Hp | exact Hnd ]).
  rewrite <- (firstn_skipn n l), map_app in Hl. eapply NoDup_app_remove_r, Hl.
Qed.

Lemma slice_length {A : Type} (n : nat) (l l' : list A) :
  Permutation l l' -> List.length (Arr.slice0 n l) = Nat.min n (List.length l').
Proof.
  intro Hp. unfold Arr.slice0. rewrite length_firstn, (Permutation_length Hp). reflexivity.
Qed.

(** X5.  The breakdowns of a report of [collect-enhanced.js], in every
    arithmetic.  Each of them holds one row for each category that occurs among
    the validators the tally loop does not skip (those whose active stake is
    not [<= 0]); the row counts the validators of the category and holds the
    sum of their active stakes, added in the order of the listing.  The
    breakdowns by country, version and commission hold all the rows; those by
    city and ASN hold 20 of them at most, each once. *)
Theorem enhanced_breakdowns_hold_tallies (N : Type) (H : Number N)
        (lookup : string -> @Enhanced.Metadata N) (accounts : list Rpc.Account) :
  let e := Enhanced.analyze lookup accounts in
  let rows key := Views.rows_of (Enhanced.r_totalActive e)
                    (Views.enhanced_items key (Enhanced.r_validators e)) in
  Permutation (Enhanced.geo_countries e) (rows Views.e_country) /\
  Permutation (Enhanced.software_versions e) (rows Views.e_version) /\
  Permutation (Enhanced.commissionDistribution e) (rows Views.e_commission) /\
  (incl (Enhanced.geo_topCities e) (rows Views.e_city) /\
   NoDup (map (@Breakdown.name N) (Enhanced.geo_topCities e)) /\
   List.length (Enhanced.geo_topCities e) = Nat.min 20 (List.length (rows Views.e_city))) /\
  (incl (Enhanced.geo_topASNs e) (rows Views.e_asn) /\
   NoDup (map (@Breakdown.name N) (Enhanced.geo_topASNs e)) /\
   List.length (Enhanced.geo_topASNs e) = Nat.min 20 (List.length (rows Views.e_asn))).
Proof.
  intros e rows. subst e rows.
  cbn [Enhanced.analyze Enhanced.geo_countries Enhanced.software_versions
       Enhanced.commissionDistribution Enhanced.geo_topCities Enhanced.geo_topASNs
       Enhanced.r_totalActive Enhanced.r_validators].
  match goal with
  | |- context [Enhanced.tallies ?vals] =>
      destruct (enhanced_tallies vals) as (-> & -> & -> & -> & ->)
  end.
  split; [ apply sortObj_rows_of | ].
  split; [ apply sortObj_rows_of | ].
  split; [ apply sortObj_rows_of | ].
  split; (split; [ eapply slice_incl, sortObj_rows_of | ]);
    (split; [ eapply slice_names_nodup;
              [ apply sortObj_rows_of | rewrite rows_of_names; apply categories_nodup ]
            | apply slice_length, sortObj_rows_of ]).
Qed.

(** X6.  The breakdowns of the report of [collect-network.js], in every
    arithmetic.  Each of them holds one row for each category that occurs among
    the validators; the row counts the validators of the category and holds the
    sum of their stakes, added in the order of the listing.  The breakdowns by
    version, commission and continent hold all the rows; those by country, city
    and ASN hold 30 of them at most, each once.  [uniqueCountries],
    [uniqueCities] and [uniqueASNs] are the numbers of categories. *)
Theorem network_breakdowns_hold_tallies (N : Type) (H : Number N)
        (lookup : string -> Network.Metadata)
        (current delinquents : list Network.VoteAccount) :
  let r := Network.main (N:=N) lookup current delinquents in
  let vals := map (@Network.listed N) (Network.validators r) in
  let rows key := Views.rows_of (Network.totalStake r) (Views.network_items key vals) in
  Permutation (Network.software_versions r) (rows Views.n_version) /\
  Permutation (Network.commissionDistribution r) (rows Views.n_commission) /\
  Permutation (Continents.continents lookup current delinquents) (rows Views.n_continent) /\
  (incl (Network.geo_countries r) (rows Views.n_country) /\
   NoDup (map (@Breakdown.name N) (Network.geo_countries r)) /\
   List.length (Network.geo_countries r) = Nat.min 30 (List.length (rows Views.n_country))) /\
  (incl (Network.geo_topCities r) (rows Views.n_city) /\
   NoDup (map (@Breakdown.name N) (Network.geo_topCities r)) /\
   List.length (Network.geo_topCities r) = Nat.min 30 (List.length (rows Views.n_city))) /\
  (incl (Network.geo_topASNs r) (rows Views.n_asn) /\
   NoDup (map (@Breakdown.name N) (Network.geo_topASNs r)) /\
   List.length (Network.geo_topASNs r) = Nat.min 30 (List.length (rows Views.n_asn))) /\
  Network.uniqueCountries r = List.length (rows Views.n_country) /\
  Network.uniqueCities r = List.length (rows Views.n_city) /\
  Network.uniqueASNs r = List.length (rows Views.n_asn).
Proof.
  intros r vals rows.
  destruct (network_listing (N:=N) lookup current delinquents) as (Ev & Et).
  fold r in Ev, Et. fold vals in Ev. subst rows. cbv beta. rewrite Ev, Et.
  assert (Ec : Continents.continents lookup current delinquents
               = Breakdown.sortObj (snd (Network.build lookup current delinquents))
                   (Views.tally (Views.network_items Views.n_continent
                      (Arr.sort (fun a b => sub (Network.stake b) (Network.stake a))
                                (fst (Network.build lookup current delinquents)))))).
  { unfold Continents.continents, Network.build, Views.tally, Views.network_items.
    cbn [fst snd]. rewrite fold_left_map. reflexivity. }
  rewrite Ec. clear Ec Ev Et vals. subst r.
  unfold Network.main, Network.build.
  cbn [fst snd Network.software_versions Network.commissionDistribution
       Network.geo_countries Network.geo_topCities Network.geo_topASNs
       Network.uniqueCountries Network.uniqueCities Network.uniqueASNs].
  match goal with
  | |- context [Network.tallies ?vals] =>
      destruct (network_tallies vals) as (-> & -> & -> & -> & ->)
  end.
  split; [ apply sortObj_rows_of | ].
  split; [ apply sortObj_rows_of | ].
  split; [ apply sortObj_rows_of | ].
  assert (Hlen : forall total items,
             List.length (Views.tally (N:=N) items)
             = List.length (Views.rows_of total items)).
  { intros total items. rewrite tally_spec. unfold Views.rows_of. rewrite !length_map.
    reflexivity. }
  repeat (split; [ (split; [ eapply slice_incl, sortObj_rows_of | ]);
                   (split; [ eapply slice_names_nodup;
                             [ apply sortObj_rows_of
                             | rewrite rows_of_names; apply categories_nodup ]
                           | apply slice_length, sortObj_rows_of ]) | ]).
  split; [ apply Hlen | ]. split; apply Hlen.
Qed.

Section Counts.
Context {N : Type} `{Number N}.

Lemma list_sum_perm (l l' : list nat) : Permutation l l' -> list_sum l = list_sum l'.
Proof. induction 1; simpl; lia. Qed.

Lemma bump_count (k : string) (s : N) (o : list (string * Breakdown.Tally N)) :
  list_sum (map (fun kt => Breakdown.count (snd kt)) (Breakdown.bump k s o))
  = S (list_sum (map (fun kt => Breakdown.count (snd kt)) o)).
Proof.
  induction o as [ | [ k' t ] o IH ]; cbn [Breakdown.bump]; [ reflexivity | ].
  destruct (String.eqb k' k); cbn [map snd Breakdown.count];
    change (list_sum (?x :: ?l)) with (x + list_sum l)%nat; [ lia | ].
  rewrite IH. lia.
Qed.

(** Every item is counted in one row. *)
Lemma rows_count_items (total : N) (items : list (string * N)) :
  Views.rows_count (Views.rows_of total items) = List.length items.
Proof.
  transitivity (list_sum (map (fun kt => Breakdown.count (snd kt)) (Views.tally items))).
  - rewrite tally_spec. unfold Views.rows_count, Views.rows_of. rewrite !map_map. reflexivity.
  - induction items as [ | kv items IH ] using rev_ind; [ reflexivity | ].
    rewrite tally_snoc, bump_count, IH, length_app. cbn [List.length]. lia.
Qed.

Lemma rows_count_perm (rows rows' : list (Breakdown.Row N)) :
  Permutation rows rows' -> Views.rows_count rows = Views.rows_count rows'.
Proof. intro Hp. apply list_sum_perm, Permutation_map, Hp. Qed.
End Counts.

Import Exact.
Open Scope Qc_scope.

Lemma not_leb_gtb (a b : Qc) : negb (leb a b) = gtb a b.
Proof.
  destruct (leb a b) eqn:E; cbn [negb]; symmetry.
  - apply gtb_false. apply leb_le in E. exact E.
  - apply gtb_gt. apply Qcnot_le_lt. intro Hle. apply leb_le in Hle. congruence.
Qed.

Lemma bump_stake (k : string) (s : Qc) (o : list (string * Breakdown.Tally Qc)) :
  sum (map (fun kt => Breakdown.stake (snd kt)) (Breakdown.bump k s o))
  = sum (map (fun kt => Breakdown.stake (snd kt)) o) + s.
Proof.
  induction o as [ | [ k' t ] o IH ]; cbn [Breakdown.bump].
  - cbn [map snd Breakdown.stake]. rewrite sum_cons, sum_nil. cbn [add exact_number].
    change zero with 0. ring.
  - destruct (String.eqb k' k); cbn [map snd Breakdown.stake]; rewrite !sum_cons.
    + cbn [add exact_number]. ring.
    + rewrite IH. ring.
Qed.

(** The stake of every item is held by one row. *)
Lemma rows_stake_items (total : Qc) (items : list (string * Qc)) :
  Views.rows_stake (Views.rows_of total items) = sum (map snd items).
Proof.
  transitivity (sum (map (fun kt => Breakdown.stake (snd kt)) (Views.tally items))).
  - rewrite tally_spec. unfold Views.rows_stake, Views.rows_of. rewrite !map_map. reflexivity.
  - induction items as [ | kv items IH ] using rev_ind; [ reflexivity | ].
    rewrite tally_snoc, bump_stake, IH, map_app, sum_app. cbn [map].
    rewrite sum_cons, sum_nil. ring.
Qed.

Lemma rows_stake_perm (rows rows' : list (Breakdown.Row Qc)) :
  Permutation rows rows' -> Views.rows_stake rows = Views.rows_stake rows'.
Proof. intro Hp. apply sum_perm, Permutation_map, Hp. Qed.

Lemma strongly_sorted_firstn {A : Type} (R : A -> A -> Prop) (n : nat) (l : list A) :
  StronglySorted R l -> StronglySorted R (firstn n l).
Proof.
  intro Hs. revert n. induction Hs as [ | x l Hs IH Hx ]; intros [ | n ]; cbn [firstn];
    try constructor; auto.
  rewrite <- (firstn_skipn n l) in Hx. apply Forall_app in Hx. apply Hx.
Qed.

(** [sortObj] lists its rows by stake, in descending order. *)
Lemma sortObj_descending (total : Qc) (obj : list (string * Breakdown.Tally Qc)) :
  StronglySorted Spec.descending
                 (map (@Breakdown.r_stake Qc) (Breakdown.sortObj total obj)).
Proof.
  unfold Breakdown.sortObj.
  rewrite (DistributionFacts.sort_keys (@Breakdown.r_stake Qc)).
  apply DistributionFacts.sort_descending.
Qed.

Lemma slice_descending (n : nat) (total : Qc) (obj : list (string * Breakdown.Tally Qc)) :
  StronglySorted Spec.descending
                 (map (@Breakdown.r_stake Qc) (Arr.slice0 n (Breakdown.sortObj total obj))).
Proof.
  unfold Arr.slice0. rewrite <- firstn_map. apply strongly_sorted_firstn, sortObj_descending.
Qed.

Lemma filter_map {A B : Type} (f : A -> B) (p : B -> bool) (l : list A) :
  filter p (map f l) = map f (filter (fun x => p (f x)) l).
Proof.
  induction l as [ | x l IH ]; cbn [map filter]; [ reflexivity | ].
  destruct (p (f x)); cbn [map]; rewrite IH; reflexivity.
Qed.

(** The validators that the tally loop of [collect-enhanced.js] reads are the
    active ones, in the order of the listing. *)
Lemma enhanced_items_active (lookup : string -> @Enhanced.Metadata Qc)
      (accounts : list Rpc.Account) (key : @Enhanced.Metadata Qc -> string) :
  let e := Enhanced.analyze lookup accounts in
  map snd (Views.enhanced_items key (Enhanced.r_validators e))
  = Spec.distribution (map (@Enhanced.activeStake Qc)
                           (Enhanced.validators (Enhanced.aggregate accounts))).
Proof.
  cbn [Enhanced.analyze Enhanced.r_validators]. unfold Views.enhanced_items.
  rewrite map_map. cbn [snd]. rewrite filter_map, map_map. unfold Enhanced.e_active.
  cbn [Enhanced.base].
  rewrite (filter_ext _ (fun v => gtb (Enhanced.activeStake v) zero))
    by (intro v; apply not_leb_gtb).
  apply DistributionFacts.stakes_read.
Qed.

Lemma enhanced_active_count (lookup : string -> @Enhanced.Metadata Qc)
      (accounts : list Rpc.Account) :
  Enhanced.activeValidators (Enhanced.analyze lookup accounts)
  = List.length (Spec.distribution (map (@Enhanced.activeStake Qc)
                                        (Enhanced.validators (Enhanced.aggregate accounts)))).
Proof.
  cbn [Enhanced.analyze Enhanced.activeValidators].
  rewrite <- (DistributionFacts.stakes_read (@Enhanced.activeStake Qc)), length_map.
  reflexivity.
Qed.

Lemma enhanced_total (accounts : list Rpc.Account) :
  Forall (fun d => (0 <= Rpc.stake d)%Z) (Spec.delegations accounts) ->
  Enhanced.totalActive (Enhanced.aggregate (N:=Qc) accounts)
  = sum (Spec.distribution (map (@Enhanced.activeStake Qc)
                                (Enhanced.validators (Enhanced.aggregate accounts)))).
Proof.
  intro Hall. destruct (AggregateFacts.sfdp_is_enhanced (N:=Qc) accounts) as (_ & <- & _).
  rewrite DistributionFacts.enhanced_stakes. apply ReportFacts.total_is_distribution_sum, Hall.
Qed.

(** X7.  The totals of the breakdowns of [collect-enhanced.js].  In exact
    arithmetic the counts of the rows of the breakdowns by country, version and
    commission add up to [activeValidators]: every active validator is counted
    in one row of each; and, when no record has a negative stake, the stakes of
    the rows add up to [totalActive]. *)
Theorem enhanced_breakdown_totals
        (lookup : string -> @Enhanced.Metadata Qc) (accounts : list Rpc.Account) :
  Forall (fun d => (0 <= Rpc.stake d)%Z) (Spec.delegations accounts) ->
  let e := Enhanced.analyze lookup accounts in
  (Views.rows_count (Enhanced.geo_countries e) = Enhanced.activeValidators e /\
   Views.rows_count (Enhanced.software_versions e) = Enhanced.activeValidators e /\
   Views.rows_count (Enhanced.commissionDistribution e) = Enhanced.activeValidators e) /\
  (Views.rows_stake (Enhanced.geo_countries e) = Enhanced.r_totalActive e /\
   Views.rows_stake (Enhanced.software_versions e) = Enhanced.r_totalActive e /\
   Views.rows_stake (Enhanced.commissionDistribution e) = Enhanced.r_totalActive e).
Proof.
  intros Hall e.
  assert (Hc : forall key,
             List.length (Views.enhanced_items key (Enhanced.r_validators e))
             = Enhanced.activeValidators e).
  { intro key. subst e. rewrite enhanced_active_count, <- (enhanced_items_active lookup accounts key).
    rewrite length_map. reflexivity. }
  assert (Hs : forall key,
             sum (map snd (Views.enhanced_items key (Enhanced.r_validators e)))
             = Enhanced.r_totalActive e).
  { intro key. subst e. rewrite enhanced_items_active.
    cbn [Enhanced.analyze Enhanced.r_totalActive]. symmetry. apply enhanced_total, Hall. }
  assert (Hrows :
            Permutation (Enhanced.geo_countries e)
              (Views.rows_of (Enhanced.r_totalActive e)
                 (Views.enhanced_items Views.e_country (Enhanced.r_validators e))) /\
            Permutation (Enhanced.software_versions e)
              (Views.rows_of (Enhanced.r_totalActive e)
                 (Views.enhanced_items Views.e_version (Enhanced.r_validators e))) /\
            Permutation (Enhanced.commissionDistribution e)
              (Views.rows_of (Enhanced.r_totalActive e)
                 (Views.enhanced_items Views.e_commission (Enhanced.r_validators e)))).
  { subst e. cbn [Enhanced.analyze Enhanced.geo_countries Enhanced.software_versions
                  Enhanced.commissionDistribution Enhanced.r_totalActive
                  Enhanced.r_validators].
    match goal with
    | |- context [Enhanced.tallies ?vals] =>
        destruct (enhanced_tallies vals) as (-> & _ & _ & -> & ->)
    end.
    repeat split; apply sortObj_rows_of. }
  destruct Hrows as (Pc & Pv & Pm).
  split; (split; [ | split ]).
  - rewrite (rows_count_perm Pc), rows_count_items. apply Hc.
  - rewrite (rows_count_perm Pv), rows_count_items. apply Hc.
  - rewrite (rows_count_perm Pm), rows_count_items. apply Hc.
  - rewrite (rows_stake_perm Pc), rows_stake_items. apply Hs.
  - rewrite (rows_stake_perm Pv), rows_stake_items. apply Hs.
  - rewrite (rows_stake_perm Pm), rows_stake_items. apply Hs.
Qed.

Lemma enhanced_breakdown_totals_witness :
  let e := Enhanced.analyze (N:=Qc) Samples.unknown Samples.six_three_one in
  Views.rows_count (Enhanced.geo_countries e) = Enhanced.activeValidators e /\
  Views.rows_stake (Enhanced.geo_countries e) = Enhanced.r_totalActive e.
Proof.
  intro e.
  assert (Hall : Forall (fun d => (0 <= Rpc.stake d)%Z)
                        (Spec.delegations Samples.six_three_one))
    by (repeat constructor; discriminate).
  destruct (@enhanced_breakdown_totals Samples.unknown Samples.six_three_one Hall)
    as ((Hc & _) & (Hs & _)).
  split; [ exact Hc | exact Hs ].
Defined.

Lemma network_total_sum (lookup : string -> Network.Metadata)
      (current delinquents : list Network.VoteAccount) :
  let r := Network.main (N:=Qc) lookup current delinquents in
  Network.totalStake r = sum (map (fun l => Network.stake (Network.listed l))
                                  (Network.validators r)).
Proof.
  intro r. destruct (network_listing (N:=Qc) lookup current delinquents) as (Ev & Et).
  fold r in Ev, Et. rewrite <- (map_map (@Network.listed Qc) (@Network.stake Qc)), Ev, Et.
  rewrite (sum_perm (Permutation_map _ (SortFacts.sort_perm _ _))).
  unfold Network.build. cbn [fst snd]. unfold sum. rewrite fold_left_map. reflexivity.
Qed.

(** X8.  The totals of the breakdowns of [collect-network.js].  In exact
    arithmetic the counts of the rows of the breakdowns by version, commission
    and continent add up to [totalValidators], and their stakes to
    [totalStake]: every validator is counted, with its stake, in one row of
    each. *)
Theorem network_breakdown_totals (lookup : string -> Network.Metadata)
        (current delinquents : list Network.VoteAccount) :
  let r := Network.main (N:=Qc) lookup current delinquents in
  let continents := Continents.continents (N:=Qc) lookup current delinquents in
  (Views.rows_count (Network.software_versions r) = Network.totalValidators r /\
   Views.rows_count (Network.commissionDistribution r) = Network.totalValidators r /\
   Views.rows_count continents = Network.totalValidators r) /\
  (Views.rows_stake (Network.software_versions r) = Network.totalStake r /\
   Views.rows_stake (Network.commissionDistribution r) = Network.totalStake r /\
   Views.rows_stake continents = Network.totalStake r).
Proof.
  intros r continents.
  pose proof (network_total_sum lookup current delinquents) as Hsum. fold r in Hsum.
  pose (vals := map (@Network.listed Qc) (Network.validators r)).
  assert (Hc : forall key, List.length (Views.network_items key vals)
                           = Network.totalValidators r).
  { intro key. unfold Views.network_items, vals. rewrite !length_map.
    subst r. unfold Network.main, Network.build.
    cbn [Network.validators Network.totalValidators]. rewrite length_map. reflexivity. }
  assert (Hs : forall key, sum (map snd (Views.network_items key vals)) = Network.totalStake r).
  { intro key. rewrite Hsum. unfold Views.network_items, vals. rewrite !map_map. reflexivity. }
  assert (Hrows :
            Permutation (Network.software_versions r)
              (Views.rows_of (Network.totalStake r) (Views.network_items Views.n_version vals)) /\
            Permutation (Network.commissionDistribution r)
              (Views.rows_of (Network.totalStake r)
                 (Views.network_items Views.n_commission vals)) /\
            Permutation continents
              (Views.rows_of (Network.totalStake r)
                 (Views.network_items Views.n_continent vals))).
  { destruct (network_listing (N:=Qc) lookup current delinquents) as (Ev & Et).
    fold r in Ev, Et. fold vals in Ev. rewrite Ev, Et. subst continents.
    assert (Ec : Continents.continents lookup current delinquents
                 = Breakdown.sortObj (snd (Network.build lookup current delinquents))
                     (Views.tally (Views.network_items Views.n_continent
                        (Arr.sort (fun a b => sub (Network.stake b) (Network.stake a))
                                  (fst (Network.build (N:=Qc) lookup current delinquents)))))).
    { unfold Continents.continents, Network.build, Views.tally, Views.network_items.
      cbn [fst snd]. rewrite fold_left_map. reflexivity. }
    rewrite Ec. subst r. unfold Network.main, Network.build.
    cbn [fst snd Network.software_versions Network.commissionDistribution].
    match goal with
    | |- context [Network.tallies ?vs] =>
        destruct (network_tallies vs) as (_ & _ & _ & -> & ->)
    end.
    repeat split; apply sortObj_rows_of. }
  destruct Hrows as (Pv & Pm & Pk).
  split; (split; [ | split ]).
  - rewrite (rows_count_perm Pv), rows_count_items. apply Hc.
  - rewrite (rows_count_perm Pm), rows_count_items. apply Hc.
  - rewrite (rows_count_perm Pk), rows_count_items. apply Hc.
  - rewrite (rows_stake_perm Pv), rows_stake_items. apply Hs.
  - rewrite (rows_stake_perm Pm), rows_stake_items. apply Hs.
  - rewrite (rows_stake_perm Pk), rows_stake_items. apply Hs.
Qed.

(** X9.  The order of the breakdowns.  In exact arithmetic every breakdown of the
    two collectors lists its rows by stake, in descending order, and a top
    list holds the first rows of that order: 20 in [collect-enhanced.js], 30 in
    [collect-network.js]. *)
Theorem breakdowns_descend
        (lookup : string -> @Enhanced.Metadata Qc) (accounts : list Rpc.Account)
        (network_lookup : string -> Network.Metadata)
        (current delinquents : list Network.VoteAccount) :
  let e := Enhanced.analyze lookup accounts in
  let r := Network.main (N:=Qc) network_lookup current delinquents in
  let sorted rows := StronglySorted Spec.descending (map (@Breakdown.r_stake Qc) rows) in
  let erows key := Views.rows_of (Enhanced.r_totalActive e)
                     (Views.enhanced_items key (Enhanced.r_validators e)) in
  let nrows key := Views.rows_of (Network.totalStake r)
                     (Views.network_items key
                        (map (@Network.listed Qc) (Network.validators r))) in
  (sorted (Enhanced.geo_countries e) /\ sorted (Enhanced.software_versions e) /\
   sorted (Enhanced.commissionDistribution e) /\
   Views.top_rows 20 (Enhanced.geo_topCities e) (erows Views.e_city) /\
   Views.top_rows 20 (Enhanced.geo_topASNs e) (erows Views.e_asn)) /\
  (sorted (Network.software_versions r) /\ sorted (Network.commissionDistribution r) /\
   sorted (Continents.continents (N:=Qc) network_lookup current delinquents) /\
   Views.top_rows 30 (Network.geo_countries r) (nrows Views.n_country) /\
   Views.top_rows 30 (Network.geo_topCities r) (nrows Views.n_city) /\
   Views.top_rows 30 (Network.geo_topASNs r) (nrows Views.n_asn)).
Proof.
  intros e r sorted erows nrows. split.
  - subst e erows sorted. cbv beta.
    cbn [Enhanced.analyze Enhanced.geo_countries Enhanced.software_versions
         Enhanced.commissionDistribution Enhanced.geo_topCities Enhanced.geo_topASNs
         Enhanced.r_totalActive Enhanced.r_validators].
    match goal with
    | |- context [Enhanced.tallies ?vals] =>
        destruct (enhanced_tallies vals) as (-> & -> & -> & -> & ->)
    end.
    repeat (split; [ apply sortObj_descending | ]).
    split; eexists; (split; [ apply sortObj_rows_of | ]);
      (split; [ apply sortObj_descending | reflexivity ]).
  - destruct (network_listing (N:=Qc) network_lookup current delinquents) as (Ev & Et).
    fold r in Ev, Et. subst nrows sorted. cbv beta. rewrite Ev, Et. clear Ev Et.
    subst r. unfold Continents.continents, Network.main, Network.build.
    cbn [fst snd Network.software_versions Network.commissionDistribution
         Network.geo_countries Network.geo_topCities Network.geo_topASNs].
    match goal with
    | |- context [Network.tallies ?vals] =>
        destruct (network_tallies vals) as (-> & -> & -> & -> & ->)
    end.
    repeat (split; [ apply sortObj_descending | ]).
    repeat split; eexists; (split; [ apply sortObj_rows_of | ]);
      (split; [ apply sortObj_descending | reflexivity ]).
Qed.
End TallyFacts.

(** ** The superminority of the whole-network collector *)

Module SuperminorityFacts.
Section Generic.
Context {N : Type} `{Number N}.

Lemma prefix_loop_bounds (thr : N) (l : list N) :
  forall r c, (c <= Metrics.prefix_loop thr r c l <= c + List.length l)%nat.
Proof.
  induction l as [ | s l IH ]; intros r c; cbn [Metrics.prefix_loop List.length]; [ lia | ].
  destruct (geb (add r s) thr); [ lia | ].
  specialize (IH (add r s) (S c)). lia.
Qed.

(** The loop of lines 173-179 collects the voters that the loop of lines
    90-91 counts. *)
Lemma superminorityVals_prefix (thr : N) (vals : list (@Network.Validator N)) :
  forall r c,
    Network.superminorityVals thr r vals
    = firstn (Metrics.prefix_loop thr r c (map (@Network.stake N) vals) - c)
             (map (@Network.voter N) vals).
Proof.
  induction vals as [ | v vals IH ]; intros r c;
    cbn [Network.superminorityVals Metrics.prefix_loop map].
  - rewrite Nat.sub_diag. reflexivity.
  - destruct (geb (add r (Network.stake v)) thr).
    + replace (S c - c)%nat with 1%nat by lia. reflexivity.
    + pose proof (prefix_loop_bounds thr (map (@Network.stake N) vals)
                    (add r (Network.stake v)) (S c)) as Hb.
      rewrite (IH (add r (Network.stake v)) (S c)).
      replace (Metrics.prefix_loop thr (add r (Network.stake v)) (S c)
                 (map (@Network.stake N) vals) - c)%nat
        with (S (Metrics.prefix_loop thr (add r (Network.stake v)) (S c)
                   (map (@Network.stake N) vals) - S c)) by lia.
      reflexivity.
Qed.

Lemma map_constant {A B : Type} (f : A -> B) (b : B) (l : list A) :
  (forall x, In x l -> f x = b) -> map f l = repeat b (List.length l).
Proof.
  induction l as [ | x l IH ]; intro Hf; cbn [map List.length repeat]; [ reflexivity | ].
  rewrite Hf by (left; reflexivity). f_equal. apply IH. intros y Hy. apply Hf. right. exact Hy.
Qed.

(** In a list without repetitions, the members of a prefix are its first
    entries and no others. *)
Lemma prefix_members (k : nat) (l : list string) :
  NoDup l ->
  map (fun x => existsb (String.eqb x) (firstn k l)) l
  = (repeat true (Nat.min k (List.length l)) ++ repeat false (List.length l - k))%list.
Proof.
  intro Hnd.
  rewrite <- (length_firstn k l), <- (length_skipn k l).
  transitivity (map (fun x => existsb (String.eqb x) (firstn k l))
                    (firstn k l ++ skipn k l));
    [ rewrite firstn_skipn; reflexivity | ].
  rewrite <- (firstn_skipn k l) in Hnd. revert Hnd.
  generalize (firstn k l) (skipn k l). clear l k. intros pre post Hnd.
  rewrite map_app. f_equal; apply map_constant; intros x Hx.
  - apply AggregateFacts.seen_iff. exact Hx.
  - destruct (existsb (String.eqb x) pre) eqn:E; [ | reflexivity ].
    apply AggregateFacts.seen_iff in E. exfalso.
    induction pre as [ | y pre IH ]; [ destruct E | ].
    cbn [app] in Hnd. inversion Hnd as [ | ? ? Hy Hrest ]; subst.
    destruct E as [ -> | E ].
    + apply Hy, in_or_app. right. exact Hx.
    + exact (IH Hrest E).
Qed.

Lemma build_voters (lookup : string -> Network.Metadata)
      (current delinquents : list Network.VoteAccount) :
  map (@Network.voter N) (fst (Network.build lookup current delinquents))
  = map Network.votePubkey (current ++ delinquents).
Proof.
  unfold Network.build. cbn [fst]. rewrite !map_app, !map_map. reflexivity.
Qed.
End Generic.

(** X10.  The superminority of the report of [collect-network.js], in every
    arithmetic.  [superminorityVoters] lists the voters of the first
    [superminorityCount] validators of the listing, and [superminorityCount] is
    at most [totalValidators]; when the vote accounts have distinct addresses,
    [isSuperminority] is set for these validators and for no other. *)
Theorem superminority_voters_lead (N : Type) (H : Number N)
        (lookup : string -> Network.Metadata)
        (current delinquents : list Network.VoteAccount) :
  NoDup (map Network.votePubkey (current ++ delinquents)) ->
  let r := Network.main (N:=N) lookup current delinquents in
  let k := Network.superminorityCount (Network.decentralization r) in
  let n := Network.totalValidators r in
  (k <= n)%nat /\
  Network.superminorityVoters r
  = firstn k (map (fun l => Network.voter (Network.listed l)) (Network.validators r)) /\
  List.length (Network.superminorityVoters r) = k /\
  map (@Network.isSuperminority N) (Network.validators r)
  = (repeat true k ++ repeat false (n - k))%list.
Proof.
  intros Hnd r k n.
  pose (allVals := Arr.sort (fun a b => sub (Network.stake b) (Network.stake a))
                            (fst (Network.build (N:=N) lookup current delinquents))).
  pose (total := snd (Network.build (N:=N) lookup current delinquents)).
  assert (Ek : k = Metrics.prefix_loop (mul total (decimal 33 2)) zero 0
                     (map (@Network.stake N) allVals)) by reflexivity.
  assert (En : n = List.length allVals) by reflexivity.
  assert (Ev : map (fun l => Network.voter (Network.listed l)) (Network.validators r)
               = map (@Network.voter N) allVals).
  { subst r. unfold Network.main, Network.build. cbn [Network.validators].
    rewrite map_map. reflexivity. }
  assert (Es : Network.superminorityVoters r
               = firstn k (map (@Network.voter N) allVals)).
  { rewrite Ek. transitivity (Network.superminorityVals (mul total (decimal 33 2)) zero allVals);
      [ reflexivity | ].
    rewrite (superminorityVals_prefix _ allVals zero 0), Nat.sub_0_r. reflexivity. }
  assert (Hk : (k <= n)%nat).
  { rewrite Ek, En.
    pose proof (prefix_loop_bounds (mul total (decimal 33 2)) (map (@Network.stake N) allVals)
                                   zero 0) as Hb.
    rewrite length_map in Hb. lia. }
  assert (Hvoters : NoDup (map (@Network.voter N) allVals)).
  { eapply Permutation_NoDup;
      [ apply Permutation_map, Permutation_sym, SortFacts.sort_perm | ].
    rewrite build_voters. exact Hnd. }
  split; [ exact Hk | ]. split; [ rewrite Ev; exact Es | ].
  split; [ rewrite Es, length_firstn, length_map; lia | ].
  transitivity (map (fun x => existsb (String.eqb x) (firstn k (map (@Network.voter N) allVals)))
                    (map (@Network.voter N) allVals)).
  - rewrite <- Es. subst r. unfold Network.main, Network.build.
    cbn [Network.validators Network.superminorityVoters]. rewrite !map_map. reflexivity.
  - rewrite (prefix_members k Hvoters), length_map, <- En.
    replace (Nat.min k n) with k by lia. reflexivity.
Qed.

Lemma superminority_voters_lead_witness :
  let r := Network.main (N:=float) Samples.unlisted
             [Samples.vote 3000000000 "A"; Samples.vote 1000000000 "B"]
             [Samples.vote 6000000000 "C"] in
  Network.superminorityVoters r = ["C"%string] /\
  map (@Network.isSuperminority float) (Network.validators r) = [true; false; false].
Proof.
  intro r.
  assert (Hnd : NoDup (map Network.votePubkey
                           ([Samples.vote 3000000000 "A"; Samples.vote 1000000000 "B"]
                            ++ [Samples.vote 6000000000 "C"])))
    by (repeat constructor; cbn; intuition discriminate).
  destruct (@superminority_voters_lead float _ Samples.unlisted _ _ Hnd)
    as (_ & Hs & _ & Hf).
  split; [ exact Hs | exact Hf ].
Defined.
End SuperminorityFacts.

(** ** The ranges of the concentration metrics *)

Module BoundFacts.
Import Exact.
Open Scope Qc_scope.

Ltac qc_nra := qc_norm; nra.

Lemma mult_nonneg (a b : Qc) : 0 <= a -> 0 <= b -> 0 <= a * b.
Proof.
  intros Ha Hb. rewrite <- (Qcmult_0_l b). apply Qcmult_le_compat_r; assumption.
Qed.

Lemma mult_pos (a b : Qc) : 0 < a -> 0 < b -> 0 < a * b.
Proof.
  intros Ha Hb. rewrite <- (Qcmult_0_l b). apply Qcmult_lt_compat_r; assumption.
Qed.

Lemma inv_pos (d : Qc) : 0 < d -> 0 < / d.
Proof.
  intro Hd. unfold Qclt, Qcinv in *. cbn [this Q2Qc] in *.
  change (Qred 0) with 0%Q in *. rewrite Qred_correct.
  apply Qinv_lt_0_compat. exact Hd.
Qed.

Lemma of_nat_nonneg (n : nat) : 0 <= of_Z (Z.of_nat n).
Proof.
  cbn [of_Z exact_number]. unfold Qcle. cbn [this Q2Qc].
  rewrite !Qred_correct. change 0%Q with (inject_Z 0). rewrite <- Zle_Qle. lia.
Qed.

Lemma of_Z_opp (z : Z) : (of_Z (- z) : Qc) = - of_Z z.
Proof.
  cbn [of_Z exact_number]. apply Qc_is_canon. cbn [this Q2Qc Qcopp].
  rewrite !Qred_correct, inject_Z_opp. reflexivity.
Qed.

Lemma sum_nth_seq (l : list Qc) :
  sum (map (fun i => nth i l 0) (seq 0 (List.length l))) = sum l.
Proof.
  induction l as [ | x l IH ]; [ reflexivity | ].
  cbn [List.length]. rewrite <- cons_seq, <- seq_shift. cbn [map nth].
  rewrite map_map, !sum_cons. cbn [nth]. rewrite IH. reflexivity.
Qed.

Lemma sum_plus (f g : nat -> Qc) (l : list nat) :
  sum (map (fun i => f i + g i) l) = sum (map f l) + sum (map g l).
Proof.
  induction l as [ | i l IH ]; cbn [map]; [ rewrite !sum_nil; ring | ].
  rewrite !sum_cons, IH. ring.
Qed.

Lemma weighted_cons (x : Qc) (l : list Qc) :
  Views.weighted (x :: l) = Views.weighted l + sum l - of_Z (Z.of_nat (List.length l)) * x.
Proof.
  unfold Views.weighted. cbn [List.length]. rewrite <- cons_seq, <- seq_shift. cbn [map].
  rewrite sum_cons, map_map. cbn [nth].
  rewrite (map_ext (fun i => Metrics.gini_weight (S (List.length l)) (S i) * nth i l 0)
                   (fun i => Metrics.gini_weight (List.length l) i * nth i l 0 + nth i l 0)).
  - rewrite sum_plus, sum_nth_seq.
    replace (Metrics.gini_weight (N:=Qc) (S (List.length l)) 0)
      with (- of_Z (Z.of_nat (List.length l)) : Qc).
    + ring.
    + unfold Metrics.gini_weight. rewrite <- of_Z_opp. f_equal. lia.
  - intro i. unfold Metrics.gini_weight.
    replace (2 * (Z.of_nat (S i) + 1) - Z.of_nat (S (List.length l)) - 1)%Z
      with ((2 * (Z.of_nat i + 1) - Z.of_nat (List.length l) - 1) + 1)%Z by lia.
    rewrite GiniFacts.of_Z_plus. change (of_Z 1 : Qc) with 1. ring.
Qed.

Lemma sum_at_least (x : Qc) (l : list Qc) :
  Forall (fun y => x <= y) l -> of_Z (Z.of_nat (List.length l)) * x <= sum l.
Proof.
  induction 1 as [ | y l Hy _ IH ].
  - rewrite sum_nil. change (of_Z (Z.of_nat (List.length (@nil Qc)))) with 0.
    rewrite Qcmult_0_l. apply Qcle_refl.
  - cbn [List.length]. rewrite HhiFacts.of_nat_S, sum_cons.
    replace ((of_Z (Z.of_nat (List.length l)) + 1) * x)
      with (of_Z (Z.of_nat (List.length l)) * x + x) by ring.
    set (nx := of_Z (Z.of_nat (List.length l)) * x) in *. qc_lra.
Qed.

Lemma weighted_nonneg (l : list Qc) : StronglySorted Qcle l -> 0 <= Views.weighted l.
Proof.
  induction 1 as [ | x l _ IH Hx ]; [ apply Qcle_refl | ].
  rewrite weighted_cons. pose proof (sum_at_least Hx) as Hs.
  set (nx := of_Z (Z.of_nat (List.length l)) * x) in *. qc_lra.
Qed.

Lemma weighted_upper (l : list Qc) :
  Forall (fun s => 0 <= s) l ->
  Views.weighted l + sum l <= of_Z (Z.of_nat (List.length l)) * sum l.
Proof.
  induction 1 as [ | x l Hx _ IH ].
  - unfold Views.weighted. cbn [List.length seq map]. rewrite sum_nil.
    change (of_Z (Z.of_nat 0)) with 0. rewrite Qcmult_0_l, Qcplus_0_l. apply Qcle_refl.
  - rewrite weighted_cons, sum_cons. cbn [List.length]. rewrite HhiFacts.of_nat_S.
    pose proof (of_nat_nonneg (List.length l)) as Hn.
    set (n := of_Z (Z.of_nat (List.length l))) in *.
    assert (Hnx : 0 <= n * x) by (apply mult_nonneg; assumption).
    replace ((n + 1) * (x + sum l)) with (n * x + x + n * sum l + sum l) by ring.
    set (nx := n * x) in *. set (ns := n * sum l) in *. qc_lra.
Qed.

Lemma ascending_strongly (l : list Qc) :
  StronglySorted Qcle (Arr.sort (fun a b => sub a b) l).
Proof.
  apply Sorted_StronglySorted; [ | apply SortFacts.sort_ascending ].
  intros x y z. apply Qcle_trans.
Qed.

Lemma div_bounds (w d lo hi : Qc) :
  0 < d -> lo * d <= w -> w <= hi * d -> lo <= w / d /\ w / d <= hi.
Proof.
  intros Hd Hlo Hhi.
  assert (Hinv : 0 < / d) by (apply inv_pos; exact Hd).
  assert (E : forall q, q * d / d = q)
    by (intro q; field; apply not_eq_sym, Qclt_not_eq, Hd).
  split.
  - rewrite <- (E lo). unfold Qcdiv.
    apply Qcmult_le_compat_r; [ exact Hlo | apply Qclt_le_weak, Hinv ].
  - rewrite <- (E hi). unfold Qcdiv.
    apply Qcmult_le_compat_r; [ exact Hhi | apply Qclt_le_weak, Hinv ].
Qed.

(** The Gini coefficient of a non-empty list of stakes that are not negative
    and not all zero lies between 0 and [1 - 1 / n]. *)
Lemma gini_range (stakes : list Qc) :
  Forall (fun s => 0 <= s) stakes -> 0 < sum stakes ->
  0 <= Metrics.gini stakes /\
  Metrics.gini stakes <= 1 - 1 / of_Z (Z.of_nat (List.length stakes)).
Proof.
  intros Hnn Hs.
  assert (Hne : stakes <> []) by (intro E; rewrite E, sum_nil in Hs; discriminate).
  rewrite (GiniFacts.gini_of_sort Hne).
  set (asc := Arr.sort (fun a b => sub a b) stakes).
  assert (Hperm : Permutation asc stakes) by apply SortFacts.sort_perm.
  assert (Hlen : List.length asc = List.length stakes) by apply SortFacts.sort_length.
  assert (Hnn' : Forall (fun s => 0 <= s) asc)
    by (eapply Permutation_Forall; [ apply Permutation_sym, Hperm | exact Hnn ]).
  assert (Hs' : 0 < sum asc) by (rewrite (sum_perm Hperm); exact Hs).
  assert (Hn : 0 < of_Z (Z.of_nat (List.length asc)))
    by (apply HhiFacts.of_nat_pos; rewrite Hlen; destruct stakes; [ congruence | cbn; lia ]).
  pose proof (weighted_nonneg (ascending_strongly stakes)) as Hw0. fold asc in Hw0.
  pose proof (weighted_upper Hnn') as Hw1.
  change (Spec.gini_formula asc)
    with (Views.weighted asc / (of_Z (Z.of_nat (List.length asc)) * sum asc)).
  rewrite <- Hlen.
  set (n := of_Z (Z.of_nat (List.length asc))) in *.
  assert (Hd : 0 < n * sum asc) by (apply mult_pos; assumption).
  apply div_bounds; [ exact Hd | rewrite Qcmult_0_l; exact Hw0 | ].
  replace ((1 - 1 / n) * (n * sum asc)) with (n * sum asc - sum asc)
    by (field; apply not_eq_sym, Qclt_not_eq, Hn).
  set (ns := n * sum asc) in *. qc_lra.
Qed.

Lemma squares_cons (x : Qc) (l : list Qc) : Views.squares (x :: l) = x * x + Views.squares l.
Proof. unfold Views.squares. cbn [map]. apply sum_cons. Qed.

Lemma hhi_as_quotient (l : list Qc) (t : Qc) : Metrics.hhi l t = Views.squares l / (t * t).
Proof.
  rewrite HhiFacts.hhi_as_sum. unfold Views.squares, Qcdiv. rewrite Qcinv_mult_distr.
  induction l as [ | s l IH ]; cbn [map].
  - rewrite !sum_nil. ring.
  - rewrite !sum_cons, IH. cbn [div exact_number]. unfold Qcdiv. ring.
Qed.

Lemma squares_at_most (l : list Qc) :
  Forall (fun s => 0 <= s) l -> 0 <= sum l /\ Views.squares l <= sum l * sum l.
Proof.
  induction 1 as [ | x l Hx _ (IHs & IH) ].
  - unfold Views.squares. cbn [map]. rewrite !sum_nil, Qcmult_0_l. split; apply Qcle_refl.
  - rewrite squares_cons, sum_cons.
    pose proof (mult_nonneg Hx IHs) as Hxs.
    replace ((x + sum l) * (x + sum l)) with (x * x + (x * sum l + x * sum l) + sum l * sum l)
      by ring.
    set (xs := x * sum l) in *. set (xx := x * x) in *. set (ss := sum l * sum l) in *.
    split; qc_lra.
Qed.

Lemma square_nonneg (a : Qc) : 0 <= a * a.
Proof.
  destruct (Qclt_le_dec a 0) as [ Hneg | Hpos ].
  - replace (a * a) with ((- a) * (- a)) by ring.
    assert (Ha : 0 <= - a) by qc_lra. apply mult_nonneg; exact Ha.
  - apply mult_nonneg; exact Hpos.
Qed.

Lemma spread_nonneg (x : Qc) (l : list Qc) :
  0 <= of_Z (Z.of_nat (List.length l)) * (x * x) - (x * sum l + x * sum l) + Views.squares l.
Proof.
  induction l as [ | y l IH ].
  - unfold Views.squares. cbn [List.length map]. rewrite !sum_nil.
    change (of_Z (Z.of_nat 0)) with 0. replace (0 * (x * x) - (x * 0 + x * 0) + 0) with 0 by ring.
    apply Qcle_refl.
  - cbn [List.length]. rewrite HhiFacts.of_nat_S, squares_cons, sum_cons.
    pose proof (square_nonneg (x - y)) as Hsq.
    replace ((of_Z (Z.of_nat (List.length l)) + 1) * (x * x)
             - (x * (y + sum l) + x * (y + sum l)) + (y * y + Views.squares l))
      with ((of_Z (Z.of_nat (List.length l)) * (x * x) - (x * sum l + x * sum l) + Views.squares l)
            + (x - y) * (x - y)) by ring.
    set (a := of_Z (Z.of_nat (List.length l)) * (x * x) - (x * sum l + x * sum l) + Views.squares l)
      in *.
    set (b := (x - y) * (x - y)) in *. qc_lra.
Qed.

(** The square of a sum of [n] numbers is at most [n] times the sum of
    their squares. *)
Lemma square_at_most (l : list Qc) :
  sum l * sum l <= of_Z (Z.of_nat (List.length l)) * Views.squares l.
Proof.
  induction l as [ | x l IH ].
  - unfold Views.squares. cbn [List.length map]. rewrite !sum_nil.
    change (of_Z (Z.of_nat 0)) with 0. rewrite !Qcmult_0_l. apply Qcle_refl.
  - cbn [List.length]. rewrite HhiFacts.of_nat_S, squares_cons, sum_cons.
    pose proof (spread_nonneg x l) as Hsp.
    set (n := of_Z (Z.of_nat (List.length l))) in *.
    replace ((x + sum l) * (x + sum l)) with (x * x + (x * sum l + x * sum l) + sum l * sum l)
      by ring.
    replace ((n + 1) * (x * x + Views.squares l))
      with (n * (x * x) + x * x + n * Views.squares l + Views.squares l) by ring.
    set (nxx := n * (x * x)) in *. set (xs := x * sum l) in *. set (xx := x * x) in *.
    set (ss := sum l * sum l) in *. set (nq := n * Views.squares l) in *. qc_lra.
Qed.

(** The HHI of a list of stakes that are not negative and not all zero, with
    their sum as the total, lies between [1 / n] and 1. *)
Lemma hhi_range (stakes : list Qc) (total : Qc) :
  Forall (fun s => 0 <= s) stakes -> 0 < total -> total = sum stakes ->
  1 / of_Z (Z.of_nat (List.length stakes)) <= Metrics.hhi stakes total /\
  Metrics.hhi stakes total <= 1.
Proof.
  intros Hnn Hs E. rewrite hhi_as_quotient. rewrite E in *. clear E.
  assert (Hne : stakes <> []) by (intro E; rewrite E, sum_nil in Hs; discriminate).
  assert (Hn : 0 < of_Z (Z.of_nat (List.length stakes)))
    by (apply HhiFacts.of_nat_pos; destruct stakes; [ congruence | cbn; lia ]).
  destruct (squares_at_most Hnn) as (_ & Hup).
  pose proof (square_at_most stakes) as Hlo.
  set (n := of_Z (Z.of_nat (List.length stakes))) in *.
  apply div_bounds; [ apply mult_pos; assumption | | rewrite Qcmult_1_l; exact Hup ].
  assert (Hinv : 0 <= 1 / n).
  { unfold Qcdiv. rewrite Qcmult_1_l. apply Qclt_le_weak, inv_pos, Hn. }
  replace (Views.squares stakes) with (1 / n * (n * Views.squares stakes))
    by (field; apply not_eq_sym, Qclt_not_eq, Hn).
  rewrite !(Qcmult_comm (1 / n)). apply Qcmult_le_compat_r; assumption.
Qed.

Lemma inv_below_one (n : Qc) : 0 < n -> 1 - 1 / n < 1.
Proof.
  intro Hn. pose proof (inv_pos Hn) as Hi. unfold Qcdiv. rewrite Qcmult_1_l.
  set (i := / n) in *. qc_lra.
Qed.

Lemma positive_nonneg (l : list Qc) : Forall (fun s => 0 < s) l -> Forall (fun s => 0 <= s) l.
Proof. apply Forall_impl. intros s Hs. apply Qclt_le_weak, Hs. Qed.

(** What the two SFDP collectors compute from the stake accounts of an
    authority, in terms of the distribution of the active stakes. *)
Lemma sfdp_reading (lookup : string -> @Enhanced.Metadata Qc) (accounts : list Rpc.Account) :
  let a := Sfdp.analyzeStakeAccounts (N:=Qc) accounts in
  let e := Enhanced.analyze lookup accounts in
  let stakes := Views.active_stakes (N:=Qc) accounts in
  let total := Sfdp.totalActive (Sfdp.aggregate (N:=Qc) accounts) in
  Forall (fun s => 0 < s) stakes /\
  StronglySorted Spec.descending stakes /\
  Sfdp.activeValidators a = List.length stakes /\
  Enhanced.activeValidators e = List.length stakes /\
  Sfdp.a_totalActive a = total /\
  Enhanced.r_totalActive e = total /\
  Sfdp.decentralization a = Spec.sfdp_metrics stakes total /\
  Enhanced.decentralization e = Spec.enhanced_metrics stakes total.
Proof.
  intros a e stakes total. subst stakes. unfold Views.active_stakes.
  destruct (AggregateFacts.sfdp_is_enhanced (N:=Qc) accounts) as (_ & Ea & _).
  split; [ apply DistributionFacts.distribution_positive | ].
  split; [ apply DistributionFacts.sort_descending | ].
  split.
  { subst a. cbn [Sfdp.analyzeStakeAccounts Sfdp.activeValidators].
    unfold Sfdp.active, Sfdp.sortValidators.
    rewrite <- (DistributionFacts.stakes_read (@Sfdp.activeStake Qc)), length_map.
    reflexivity. }
  split.
  { subst e. rewrite TallyFacts.enhanced_active_count, DistributionFacts.enhanced_stakes.
    reflexivity. }
  split; [ reflexivity | ].
  split; [ subst e total; symmetry; exact Ea | ].
  split; [ apply DistributionFacts.sfdp_metrics_read | ].
  subst e total. rewrite DistributionFacts.enhanced_metrics_read,
    DistributionFacts.enhanced_stakes, <- Ea. reflexivity.
Qed.

(** X11.  The Gini coefficient of a report.  In exact arithmetic, when some
    validator has active stake, the Gini coefficient that each of the two SFDP
    collectors reports lies between 0 and [1 - 1 / n], [n] being the number of
    active validators; so it is below 1. *)
Theorem gini_between_zero_and_one
        (lookup : string -> @Enhanced.Metadata Qc) (accounts : list Rpc.Account) :
  let a := Sfdp.analyzeStakeAccounts (N:=Qc) accounts in
  let e := Enhanced.analyze lookup accounts in
  (0 < Sfdp.activeValidators a)%nat ->
  let n := of_Z (Z.of_nat (Sfdp.activeValidators a)) in
  let g := Sfdp.gini (Sfdp.decentralization a) in
  Enhanced.gini (Enhanced.decentralization e) = g /\
  0 <= g /\ g <= 1 - 1 / n /\ g < 1.
Proof.
  intros a e Hactive n g.
  destruct (sfdp_reading lookup accounts) as (Hpos & _ & Hn & _ & _ & _ & Ha & He).
  fold a in Hn, Ha. fold e in He. subst g. rewrite Ha, He.
  cbn [Spec.sfdp_metrics Spec.enhanced_metrics Sfdp.gini Enhanced.gini].
  split; [ reflexivity | ].
  set (stakes := Views.active_stakes (N:=Qc) accounts) in *.
  assert (Hne : stakes <> []) by (intro E; rewrite E in Hn; cbn [List.length] in Hn; lia).
  destruct (gini_range (positive_nonneg Hpos) (sum_pos Hne Hpos)) as (H0 & H1).
  subst n. rewrite Hn. split; [ exact H0 | ]. split; [ exact H1 | ].
  eapply Qcle_lt_trans; [ exact H1 | ].
  apply inv_below_one, HhiFacts.of_nat_pos. lia.
Qed.

Lemma gini_between_zero_and_one_witness :
  let g := Sfdp.gini (Sfdp.decentralization
                        (Sfdp.analyzeStakeAccounts (N:=Qc) Samples.six_three_one)) in
  0 <= g /\ g < 1.
Proof.
  assert (Hactive : (0 < Sfdp.activeValidators
                           (Sfdp.analyzeStakeAccounts (N:=Qc) Samples.six_three_one))%nat)
    by (vm_compute; lia).
  destruct (@gini_between_zero_and_one Samples.unknown Samples.six_three_one Hactive)
    as (_ & H0 & _ & H1).
  split; [ exact H0 | exact H1 ].
Defined.

(** X12.  The HHI of a report.  In exact arithmetic, when no record has a negative
    stake and some validator has active stake, the HHI that each of the two
    SFDP collectors reports lies between [1 / n] and 1, [n] being the number of
    active validators. *)
Theorem hhi_between_inverse_and_one
        (lookup : string -> @Enhanced.Metadata Qc) (accounts : list Rpc.Account) :
  Forall (fun d => (0 <= Rpc.stake d)%Z) (Spec.delegations accounts) ->
  let a := Sfdp.analyzeStakeAccounts (N:=Qc) accounts in
  let e := Enhanced.analyze lookup accounts in
  (0 < Sfdp.activeValidators a)%nat ->
  let n := of_Z (Z.of_nat (Sfdp.activeValidators a)) in
  let h := Sfdp.hhi (Sfdp.decentralization a) in
  Enhanced.hhi (Enhanced.decentralization e) = h /\
  1 / n <= h /\ h <= 1.
Proof.
  intros Hall a e Hactive n h.
  destruct (sfdp_reading lookup accounts) as (Hpos & _ & Hn & _ & _ & _ & Ha & He).
  fold a in Hn, Ha. fold e in He. subst h. rewrite Ha, He.
  cbn [Spec.sfdp_metrics Spec.enhanced_metrics Sfdp.hhi Enhanced.hhi].
  split; [ reflexivity | ].
  pose proof (@ReportFacts.total_is_distribution_sum accounts Hall) as Et.
  fold (Views.active_stakes (N:=Qc) accounts) in Et.
  set (stakes := Views.active_stakes (N:=Qc) accounts) in *.
  assert (Hne : stakes <> []) by (intro E; rewrite E in Hn; cbn [List.length] in Hn; lia).
  assert (Hs : 0 < Sfdp.totalActive (Sfdp.aggregate (N:=Qc) accounts))
    by (rewrite Et; apply sum_pos; assumption).
  subst n. rewrite Hn. apply hhi_range; [ apply positive_nonneg, Hpos | exact Hs | exact Et ].
Qed.

Lemma hhi_between_inverse_and_one_witness :
  let h := Sfdp.hhi (Sfdp.decentralization
                       (Sfdp.analyzeStakeAccounts (N:=Qc) Samples.six_three_one)) in
  1 / of_Z 3 <= h /\ h <= 1.
Proof.
  assert (Hall : Forall (fun d => (0 <= Rpc.stake d)%Z)
                        (Spec.delegations Samples.six_three_one))
    by (repeat constructor; discriminate).
  assert (Hactive : (0 < Sfdp.activeValidators
                           (Sfdp.analyzeStakeAccounts (N:=Qc) Samples.six_three_one))%nat)
    by (vm_compute; lia).
  destruct (@hhi_between_inverse_and_one Samples.unknown Samples.six_three_one Hall Hactive)
    as (_ & H0 & H1).
  split; [ exact H0 | exact H1 ].
Defined.

Lemma sum_firstn_le (k : nat) (l : list Qc) :
  Forall (fun s => 0 <= s) l -> sum (firstn k l) <= sum l.
Proof.
  intro Hnn. rewrite <- (firstn_skipn k l) at 2. rewrite sum_app.
  assert (Hs : 0 <= sum (skipn k l)).
  { apply ReportFacts.sum_nonnegative. rewrite <- (firstn_skipn k l) in Hnn.
    apply Forall_app in Hnn. apply Hnn. }
  set (a := sum (firstn k l)) in *. set (b := sum (skipn k l)) in *. qc_lra.
Qed.

Lemma sum_firstn_mono (j k : nat) (l : list Qc) :
  Forall (fun s => 0 <= s) l -> (j <= k)%nat -> sum (firstn j l) <= sum (firstn k l).
Proof.
  intros Hnn Hjk. replace (firstn j l) with (firstn j (firstn k l)).
  - apply sum_firstn_le. rewrite <- (firstn_skipn k l) in Hnn.
    apply Forall_app in Hnn. apply Hnn.
  - rewrite firstn_firstn. f_equal. lia.
Qed.

Lemma percent_mono (x y total : Qc) :
  0 < total -> x <= y -> Spec.percent x total <= Spec.percent y total.
Proof.
  intros Ht Hxy. unfold Spec.percent. cbn [mul div of_Z exact_number]. unfold Qcdiv.
  apply Qcmult_le_compat_r; [ | discriminate ].
  apply Qcmult_le_compat_r; [ exact Hxy | apply Qclt_le_weak, inv_pos, Ht ].
Qed.

Lemma percent_full (total : Qc) : 0 < total -> Spec.percent total total = of_Z 100.
Proof.
  intro Ht. unfold Spec.percent. cbn [mul div exact_number].
  field. apply not_eq_sym, Qclt_not_eq, Ht.
Qed.

Lemma percent_none (total : Qc) : Spec.percent 0 total = 0.
Proof. unfold Spec.percent. cbn [mul div exact_number]. unfold Qcdiv. ring. Qed.

Lemma truthy_positive (x : Qc) : 0 < x -> truthy x = true.
Proof.
  intro Hx. unfold truthy. cbn [decode exact_number].
  destruct (Qeq_bool x 0) eqn:E; [ | reflexivity ].
  apply Qeq_bool_iff in E. exfalso. unfold Qclt in Hx. cbn [this Q2Qc] in Hx.
  change (Qred 0) with 0%Q in Hx. rewrite E in Hx. exact (Qlt_irrefl _ Hx).
Qed.

Lemma sum_single (x : Qc) : sum [x] = x.
Proof. rewrite sum_cons, sum_nil. ring. Qed.

(** X13.  The shares of the largest validators in a report of
    [collect-enhanced.js].  In exact arithmetic, when no record has a negative
    stake and some validator has active stake, [topValidatorPct] is above 0 and
    at most [top10Pct], which is at most 100; it is 100 when there are 10
    active validators at most. *)
Theorem enhanced_top_shares
        (lookup : string -> @Enhanced.Metadata Qc) (accounts : list Rpc.Account) :
  Forall (fun d => (0 <= Rpc.stake d)%Z) (Spec.delegations accounts) ->
  let e := Enhanced.analyze lookup accounts in
  (0 < Enhanced.activeValidators e)%nat ->
  let d := Enhanced.decentralization e in
  0 < Enhanced.topValidatorPct d /\
  Enhanced.topValidatorPct d <= Enhanced.top10Pct d /\
  Enhanced.top10Pct d <= of_Z 100 /\
  ((Enhanced.activeValidators e <= 10)%nat -> Enhanced.top10Pct d = of_Z 100).
Proof.
  intros Hall e Hactive d.
  destruct (sfdp_reading lookup accounts) as (Hpos & _ & _ & Hn & _ & _ & _ & He).
  fold e in Hn, He. subst d. rewrite He.
  cbn [Spec.enhanced_metrics Enhanced.topValidatorPct Enhanced.top10Pct].
  pose proof (@ReportFacts.total_is_distribution_sum accounts Hall) as Et.
  fold (Views.active_stakes (N:=Qc) accounts) in Et.
  remember (Views.active_stakes (N:=Qc) accounts) as stakes eqn:Es.
  remember (Sfdp.totalActive (Sfdp.aggregate (N:=Qc) accounts)) as total eqn:Etot.
  clear Es Etot He.
  destruct stakes as [ | s0 rest ]; [ cbn [List.length] in Hn; lia | ].
  assert (Ht : 0 < total) by (rewrite Et; apply sum_pos; [ discriminate | exact Hpos ]).
  pose proof (positive_nonneg Hpos) as Hnn.
  assert (H0 : 0 < s0) by (inversion Hpos; assumption).
  assert (E1 : sum (firstn 1 (s0 :: rest)) = s0) by (cbn [firstn]; apply sum_single).
  unfold Metrics.top_stake, Arr.slice0. cbn [nth_error]. rewrite (truthy_positive H0).
  split.
  { unfold Spec.percent. cbn [mul div of_Z exact_number]. unfold Qcdiv.
    apply mult_pos; [ apply mult_pos; [ exact H0 | apply inv_pos, Ht ] | reflexivity ]. }
  split.
  { rewrite <- E1 at 1. apply percent_mono; [ exact Ht | ].
    apply sum_firstn_mono; [ exact Hnn | lia ]. }
  split.
  { rewrite <- (percent_full Ht). apply percent_mono; [ exact Ht | ].
    rewrite Et. apply sum_firstn_le, Hnn. }
  intro Hfew. rewrite firstn_all2 by lia. rewrite <- Et. apply percent_full, Ht.
Qed.

Lemma enhanced_top_shares_witness :
  let d := Enhanced.decentralization
             (Enhanced.analyze (N:=Qc) Samples.unknown Samples.six_three_one) in
  Enhanced.topValidatorPct d <= Enhanced.top10Pct d /\ Enhanced.top10Pct d = of_Z 100.
Proof.
  assert (Hall : Forall (fun d => (0 <= Rpc.stake d)%Z)
                        (Spec.delegations Samples.six_three_one))
    by (repeat constructor; discriminate).
  assert (Hactive : (0 < Enhanced.activeValidators
                           (Enhanced.analyze (N:=Qc) Samples.unknown Samples.six_three_one))%nat)
    by (vm_compute; lia).
  destruct (@enhanced_top_shares Samples.unknown Samples.six_three_one Hall Hactive)
    as (_ & H1 & _ & H2).
  split; [ exact H1 | apply H2; vm_compute; lia ].
Defined.

Lemma sum_percent (total : Qc) (l : list Qc) :
  sum (map (fun x => Spec.percent x total) l) = Spec.percent (sum l) total.
Proof.
  induction l as [ | x l IH ]; cbn [map].
  - rewrite !sum_nil. symmetry. apply percent_none.
  - rewrite !sum_cons, IH. unfold Spec.percent. cbn [mul div exact_number]. unfold Qcdiv. ring.
Qed.

Lemma enhanced_total_all (accounts : list Rpc.Account) :
  Enhanced.totalActive (Enhanced.aggregate (N:=Qc) accounts)
  = sum (map (@Enhanced.activeStake Qc) (Enhanced.validators (Enhanced.aggregate accounts))).
Proof.
  destruct (AggregateFacts.sfdp_is_enhanced (N:=Qc) accounts) as (_ & <- & _).
  rewrite DistributionFacts.enhanced_stakes.
  destruct (InvariantFacts.exact_invariants accounts) as (_ & Ha & _). exact Ha.
Qed.

(** X14.  The shares of the pool.  In exact arithmetic, the [pctOfPool] of the
    validators that a report of [collect-enhanced.js] lists add up to 100 when
    the total active stake is above zero, and every one of them is 0 when it is
    not: no share is undefined. *)
Theorem pool_shares_add_up
        (lookup : string -> @Enhanced.Metadata Qc) (accounts : list Rpc.Account) :
  let e := Enhanced.analyze lookup accounts in
  let shares := map (@Enhanced.pctOfPool Qc) (Enhanced.r_validators e) in
  (0 < Enhanced.r_totalActive e -> sum shares = of_Z 100) /\
  (~ 0 < Enhanced.r_totalActive e -> Forall (fun s => s = 0) shares).
Proof.
  intros e shares. subst shares e.
  cbn [Enhanced.analyze Enhanced.r_validators Enhanced.r_totalActive].
  rewrite map_map. cbn [Enhanced.pctOfPool].
  set (total := Enhanced.totalActive (Enhanced.aggregate (N:=Qc) accounts)).
  set (sorted := Arr.sort (fun a b => sub (Enhanced.activeStake b) (Enhanced.activeStake a))
                          (Enhanced.validators (Enhanced.aggregate (N:=Qc) accounts))).
  split; intro Ht.
  - assert (E : gtb total zero = true) by (apply gtb_gt; exact Ht).
    transitivity (sum (map (fun x => Spec.percent x total)
                           (map (@Enhanced.activeStake Qc) sorted))).
    { rewrite map_map. f_equal. apply map_ext. intro v. rewrite E. reflexivity. }
    rewrite sum_percent.
    replace (sum (map (@Enhanced.activeStake Qc) sorted)) with total.
    + apply percent_full, Ht.
    + subst total sorted. rewrite enhanced_total_all.
      apply sum_perm, Permutation_map, Permutation_sym, SortFacts.sort_perm.
  - assert (E : gtb total zero = false).
    { destruct (gtb total zero) eqn:E; [ | reflexivity ]. apply gtb_gt in E. contradiction. }
    apply Forall_map, Forall_forall. intros v _. rewrite E. reflexivity.
Qed.

Lemma pool_shares_add_up_witness :
  sum (map (@Enhanced.pctOfPool Qc)
           (Enhanced.r_validators
              (Enhanced.analyze (N:=Qc) Samples.unknown Samples.six_three_one)))
  = of_Z 100.
Proof.
  apply (proj1 (@pool_shares_add_up Samples.unknown Samples.six_three_one)).
  vm_compute. reflexivity.
Defined.

(** [a[Math.floor(x)]] for a quotient [x] of integers that is not negative. *)
Lemma at_floor_quotient (l : list Qc) (x : Qc) (a : Z) (p : positive) :
  (this x == a # p)%Q -> (0 <= a)%Z ->
  at_floor l x = nth_error l (Z.to_nat (a / Zpos p)).
Proof.
  intros E Ha. unfold at_floor. cbn [decode exact_number]. cbv zeta.
  rewrite (Qfloor_comp _ _ E). change (Qfloor (a # p)) with (a / Zpos p)%Z.
  assert (H0 : (0 <= a / Zpos p)%Z) by (apply Z.div_pos; lia).
  destruct (a / Zpos p <? 0)%Z eqn:El; [ apply Z.ltb_lt in El; lia | reflexivity ].
Qed.

Lemma half_quotient (n : nat) :
  (this (div (of_Z (Z.of_nat n)) (of_Z 2) : Qc) == Z.of_nat n # 2)%Q.
Proof.
  cbn [div of_Z exact_number]. unfold Qcdiv, Qcmult, Qcinv. cbn [this Q2Qc].
  rewrite !Qred_correct. unfold Qeq, inject_Z. cbn. lia.
Qed.

Lemma tenth_quotient (n : nat) (k : Z) :
  (this (mul (of_Z (Z.of_nat n)) (decimal k 1) : Qc) == k * Z.of_nat n # 10)%Q.
Proof.
  unfold decimal. cbn [mul div of_Z exact_number]. unfold Qcdiv, Qcmult, Qcinv.
  cbn [this Q2Qc]. rewrite !Qred_correct. unfold Qeq, inject_Z. cbn. lia.
Qed.

Lemma descending_nth (l : list Qc) :
  StronglySorted Spec.descending l ->
  forall i j u v, (i <= j)%nat -> nth_error l i = Some u -> nth_error l j = Some v -> v <= u.
Proof.
  induction 1 as [ | x l Hs IH Hx ]; intros i j u v Hij Hi Hj.
  - destruct i; discriminate.
  - destruct i as [ | i ], j as [ | j ]; cbn [nth_error] in Hi, Hj.
    + injection Hi as <-. injection Hj as <-. apply Qcle_refl.
    + injection Hi as <-. apply nth_error_In in Hj.
      rewrite Forall_forall in Hx. exact (Hx v Hj).
    + lia.
    + eapply IH; [ | eassumption | eassumption ]. lia.
Qed.

Lemma sum_at_most (x : Qc) (l : list Qc) :
  Forall (fun y => y <= x) l -> sum l <= of_Z (Z.of_nat (List.length l)) * x.
Proof.
  induction 1 as [ | y l Hy _ IH ].
  - rewrite sum_nil. change (of_Z (Z.of_nat (List.length (@nil Qc)))) with 0.
    rewrite Qcmult_0_l. apply Qcle_refl.
  - cbn [List.length]. rewrite HhiFacts.of_nat_S, sum_cons.
    replace ((of_Z (Z.of_nat (List.length l)) + 1) * x)
      with (of_Z (Z.of_nat (List.length l)) * x + x) by ring.
    set (nx := of_Z (Z.of_nat (List.length l)) * x) in *. qc_lra.
Qed.

Lemma or_zero_positive (x : Qc) : 0 < x -> or_zero (Some x) = x.
Proof. intro Hx. unfold or_zero. rewrite (truthy_positive Hx). reflexivity. Qed.

(** The statistics of a non-empty descending list of positive stakes, as
    [analyzeStakeAccounts] reads them. *)
Lemma stats_of_descending (stakes : list Qc) :
  stakes <> [] -> Forall (fun s => 0 < s) stakes -> StronglySorted Spec.descending stakes ->
  let n := List.length stakes in
  let median := or_zero (at_floor stakes (div (of_Z (Z.of_nat n)) (of_Z 2))) in
  let max := or_zero (nth_error stakes 0) in
  let min := or_zero (if (0 <? n)%nat then nth_error stakes (n - 1) else None) in
  let p10 := or_zero (at_floor stakes (mul (of_Z (Z.of_nat n)) (decimal 1 1))) in
  let p90 := or_zero (at_floor stakes (mul (of_Z (Z.of_nat n)) (decimal 9 1))) in
  In min stakes /\ In max stakes /\
  Forall (fun x => min <= x /\ x <= max) stakes /\
  0 < min /\ min <= p90 /\ p90 <= median /\ median <= p10 /\ p10 <= max.
Proof.
  intros Hne Hpos Hsorted n median max min p10 p90.
  assert (Hn : (1 <= n)%nat) by (subst n; destruct stakes; [ congruence | cbn; lia ]).
  assert (Hat : forall i, (i < n)%nat ->
                          exists x, nth_error stakes i = Some x /\ 0 < x /\ In x stakes).
  { intros i Hi. destruct (nth_error stakes i) as [ x | ] eqn:E.
    - exists x. split; [ reflexivity | ]. apply nth_error_In in E.
      split; [ | exact E ]. rewrite Forall_forall in Hpos. exact (Hpos x E).
    - apply nth_error_None in E. subst n. lia. }
  pose (i50 := Z.to_nat (Z.of_nat n / 2)).
  pose (i10 := Z.to_nat (1 * Z.of_nat n / 10)).
  pose (i90 := Z.to_nat (9 * Z.of_nat n / 10)).
  assert (Hidx : (i10 <= i50 /\ i50 <= i90 /\ i90 <= n - 1)%nat).
  { subst i10 i50 i90.
    assert (H10 : (0 <= 1 * Z.of_nat n / 10)%Z) by (apply Z.div_pos; lia).
    assert (H50 : (0 <= Z.of_nat n / 2)%Z) by (apply Z.div_pos; lia).
    assert (H90 : (0 <= 9 * Z.of_nat n / 10)%Z) by (apply Z.div_pos; lia).
    assert (Hz : (1 * Z.of_nat n / 10 <= Z.of_nat n / 2
                  /\ Z.of_nat n / 2 <= 9 * Z.of_nat n / 10
                  /\ 9 * Z.of_nat n / 10 <= Z.of_nat n - 1)%Z).
    { generalize (Z.of_nat n) (Nat2Z.is_nonneg n) (inj_le _ _ Hn). intros z Hz0 Hz1.
      Z.div_mod_to_equations. lia. }
    lia. }
  destruct Hidx as (H1050 & H5090 & H90n).
  destruct (Hat 0%nat ltac:(lia)) as (xmax & Emax & Pmax & Imax).
  destruct (Hat (n - 1)%nat ltac:(lia)) as (xmin & Emin & Pmin & Imin).
  destruct (Hat i50 ltac:(lia)) as (x50 & E50 & P50 & _).
  destruct (Hat i10 ltac:(lia)) as (x10 & E10 & P10 & _).
  destruct (Hat i90 ltac:(lia)) as (x90 & E90 & P90 & _).
  assert (Vmax : max = xmax) by (subst max; rewrite Emax; apply or_zero_positive, Pmax).
  assert (Vmin : min = xmin).
  { subst min. destruct (0 <? n)%nat eqn:E0; [ | apply Nat.ltb_ge in E0; lia ].
    rewrite Emin. apply or_zero_positive, Pmin. }
  assert (V50 : median = x50).
  { subst median. rewrite (@at_floor_quotient stakes _ _ _ (half_quotient n)) by lia.
    fold i50. rewrite E50. apply or_zero_positive, P50. }
  assert (V10 : p10 = x10).
  { subst p10. rewrite (@at_floor_quotient stakes _ _ _ (tenth_quotient n 1)) by lia.
    fold i10. rewrite E10. apply or_zero_positive, P10. }
  assert (V90 : p90 = x90).
  { subst p90. rewrite (@at_floor_quotient stakes _ _ _ (tenth_quotient n 9)) by lia.
    fold i90. rewrite E90. apply or_zero_positive, P90. }
  rewrite Vmax, Vmin, V50, V10, V90.
  split; [ exact Imin | ]. split; [ exact Imax | ].
  split.
  { apply Forall_forall. intros x Hx. apply In_nth_error in Hx. destruct Hx as (i & Ei).
    assert (Hi : (i < n)%nat) by (subst n; apply nth_error_Some; congruence).
    split.
    - exact (descending_nth Hsorted (i:=i) (j:=n - 1) ltac:(lia) Ei Emin).
    - exact (descending_nth Hsorted (i:=0) (j:=i) ltac:(lia) Emax Ei). }
  split; [ exact Pmin | ].
  split; [ exact (descending_nth Hsorted (i:=i90) (j:=n - 1) ltac:(lia) E90 Emin) | ].
  split; [ exact (descending_nth Hsorted (i:=i50) (j:=i90) ltac:(lia) E50 E90) | ].
  split; [ exact (descending_nth Hsorted (i:=i10) (j:=i50) ltac:(lia) E10 E50) | ].
  exact (descending_nth Hsorted (i:=0) (j:=i10) ltac:(lia) Emax E10).
Qed.

Lemma sfdp_stats_read (accounts : list Rpc.Account) :
  let stakes := Views.active_stakes (N:=Qc) accounts in
  let n := List.length stakes in
  Sfdp.stakeStats (Sfdp.analyzeStakeAccounts (N:=Qc) accounts)
  = {| Sfdp.mean := div (Sfdp.totalActive (Sfdp.aggregate accounts)) (of_Z (Z.of_nat n));
       Sfdp.median := or_zero (at_floor stakes (div (of_Z (Z.of_nat n)) (of_Z 2)));
       Sfdp.max := or_zero (nth_error stakes 0);
       Sfdp.min := or_zero (if (0 <? n)%nat then nth_error stakes (n - 1) else None);
       Sfdp.p10 := or_zero (at_floor stakes (mul (of_Z (Z.of_nat n)) (decimal 1 1)));
       Sfdp.p90 := or_zero (at_floor stakes (mul (of_Z (Z.of_nat n)) (decimal 9 1))) |}.
Proof.
  cbv zeta. unfold Views.active_stakes.
  rewrite <- (DistributionFacts.stakes_read (@Sfdp.activeStake Qc)).
  cbn [Sfdp.analyzeStakeAccounts Sfdp.stakeStats]. unfold Sfdp.active, Sfdp.sortValidators,
    Sfdp.of_nat. rewrite !length_map. reflexivity.
Qed.

(** X15.  The stake statistics of [analyzeStakeAccounts].  In exact arithmetic,
    when no record has a negative stake and some validator has active stake:
    [min] and [max] are the smallest and the largest active stake above zero,
    the mean lies between them, and [min <= p90 <= median <= p10 <= max]: the
    statistics are read from the descending list, so [p10] is a stake near its
    top and [p90] a stake near its end. *)
Theorem stake_stats_ordered (accounts : list Rpc.Account) :
  Forall (fun d => (0 <= Rpc.stake d)%Z) (Spec.delegations accounts) ->
  let a := Sfdp.analyzeStakeAccounts (N:=Qc) accounts in
  (0 < Sfdp.activeValidators a)%nat ->
  let s := Sfdp.stakeStats a in
  let stakes := filter (fun x => gtb x zero)
                       (map (@Sfdp.l_activeStake Qc) (Sfdp.allValidators a)) in
  In (Sfdp.min s) stakes /\ In (Sfdp.max s) stakes /\
  Forall (fun x => Sfdp.min s <= x /\ x <= Sfdp.max s) stakes /\
  0 < Sfdp.min s /\
  Sfdp.min s <= Sfdp.p90 s /\ Sfdp.p90 s <= Sfdp.median s /\
  Sfdp.median s <= Sfdp.p10 s /\ Sfdp.p10 s <= Sfdp.max s /\
  Sfdp.min s <= Sfdp.mean s /\ Sfdp.mean s <= Sfdp.max s.
Proof.
  intros Hall a Hactive s stakes.
  destruct (sfdp_reading Samples.unknown accounts) as (Hpos & Hsorted & Hn & _).
  fold a in Hn.
  assert (Es : stakes = Views.active_stakes (N:=Qc) accounts)
    by apply ReportFacts.listed_distribution.
  pose proof (@ReportFacts.total_is_distribution_sum accounts Hall) as Et.
  fold (Views.active_stakes (N:=Qc) accounts) in Et.
  subst s a. rewrite sfdp_stats_read. cbv zeta.
  cbn [Sfdp.mean Sfdp.median Sfdp.max Sfdp.min Sfdp.p10 Sfdp.p90].
  rewrite Es, Et. clear Es Et stakes.
  set (stakes := Views.active_stakes (N:=Qc) accounts) in *.
  assert (Hne : stakes <> []) by (intro E; rewrite E in Hn; cbn [List.length] in Hn; lia).
  destruct (stats_of_descending Hne Hpos Hsorted)
    as (Imin & Imax & Hall' & Pmin & H1 & H2 & H3 & H4).
  cbv zeta in Imin, Imax, Hall', Pmin, H1, H2, H3, H4.
  repeat (split; [ assumption | ]).
  assert (Hnpos : 0 < of_Z (Z.of_nat (List.length stakes)))
    by (apply HhiFacts.of_nat_pos; lia).
  assert (Hlo : Forall (fun y => or_zero (if (0 <? List.length stakes)%nat
                                          then nth_error stakes (List.length stakes - 1)
                                          else None) <= y) stakes)
    by (revert Hall'; apply Forall_impl; intros y Hy; apply Hy).
  assert (Hhi : Forall (fun y => y <= or_zero (nth_error stakes 0)) stakes)
    by (revert Hall'; apply Forall_impl; intros y Hy; apply Hy).
  pose proof (sum_at_least Hlo) as Slo. pose proof (sum_at_most Hhi) as Shi.
  rewrite Qcmult_comm in Slo. rewrite Qcmult_comm in Shi.
  apply div_bounds; assumption.
Qed.

Lemma stake_stats_ordered_witness :
  let s := Sfdp.stakeStats (Sfdp.analyzeStakeAccounts (N:=Qc) Samples.six_three_one) in
  Sfdp.p90 s <= Sfdp.median s /\ Sfdp.median s <= Sfdp.p10 s /\
  Sfdp.min s <= Sfdp.mean s /\ Sfdp.mean s <= Sfdp.max s.
Proof.
  assert (Hall : Forall (fun d => (0 <= Rpc.stake d)%Z)
                        (Spec.delegations Samples.six_three_one))
    by (repeat constructor; discriminate).
  assert (Hactive : (0 < Sfdp.activeValidators
                           (Sfdp.analyzeStakeAccounts (N:=Qc) Samples.six_three_one))%nat)
    by (vm_compute; lia).
  destruct (@stake_stats_ordered Samples.six_three_one Hall Hactive)
    as (_ & _ & _ & _ & _ & H1 & H2 & _ & H3 & H4).
  repeat split; assumption.
Defined.

(** The thresholds of the two prefix loops, for a total above zero. *)
Lemma thresholds (total : Qc) :
  0 < total ->
  let third := div total (of_Z 3) in
  let line := mul total (decimal 33 2) in
  0 < line /\ line <= third /\ third <= total.
Proof.
  intros Ht third line. subst third line. unfold decimal.
  cbn [mul div of_Z exact_number]. repeat split; qc_lra.
Qed.

Lemma prefix_reaches (thr : Qc) (stakes : list Qc) :
  0 < thr -> thr <= sum stakes ->
  let k := Metrics.prefix_loop thr zero 0 stakes in
  (1 <= k <= List.length stakes)%nat /\
  thr <= sum (firstn k stakes) /\ sum (firstn (k - 1) stakes) < thr.
Proof.
  intros Hthr Hsum k.
  assert (Hne : stakes <> []).
  { intro E. rewrite E, sum_nil in Hsum. exact (Qclt_not_le _ _ Hthr Hsum). }
  destruct (NakamotoFacts.prefix_loop_smallest Hne Hthr Hsum) as (Hk & Hge & Hshort).
  cbv zeta in Hk, Hge, Hshort. fold k in Hk, Hge, Hshort.
  split; [ exact Hk | ]. split; [ exact Hge | apply Hshort; lia ].
Qed.

(** What the whole-network collector computes, in terms of the stakes of the
    validators it lists. *)
Lemma network_reading (lookup : string -> Network.Metadata)
      (current delinquents : list Network.VoteAccount) :
  let r := Network.main (N:=Qc) lookup current delinquents in
  let stakes := Views.network_stakes r in
  let total := Network.totalStake r in
  total = sum stakes /\
  StronglySorted Spec.descending stakes /\
  List.length stakes = Network.totalValidators r /\
  (Forall (fun a => (0 <= Network.activatedStake a)%Z) (current ++ delinquents) ->
   Forall (fun s => 0 <= s) stakes) /\
  Network.decentralization r
  = {| Network.nakamotoCoeff33 := Metrics.nakamoto33 stakes total;
       Network.superminorityCount := Metrics.superminority stakes total;
       Network.hhi := Metrics.hhi stakes total;
       Network.gini := Metrics.gini stakes;
       Network.topValidatorPct :=
         Spec.percent (match nth_error stakes 0 with
                       | Some s => s
                       | None => Network.of_undefined
                       end) total;
       Network.top10Pct := Spec.percent (Metrics.top_stake 10 stakes) total;
       Network.top20Pct := Spec.percent (Metrics.top_stake 20 stakes) total;
       Network.top50Pct := Spec.percent (Metrics.top_stake 50 stakes) total |}.
Proof.
  intros r stakes total.
  assert (Es : stakes = map (@Network.stake Qc)
                            (Arr.sort (fun a b => sub (Network.stake b) (Network.stake a))
                                      (fst (Network.build lookup current delinquents)))).
  { subst stakes r. unfold Views.network_stakes, Network.main, Network.build.
    cbn [fst Network.validators]. rewrite map_map. reflexivity. }
  split; [ apply TallyFacts.network_total_sum | ].
  split.
  { rewrite Es, (DistributionFacts.sort_keys (@Network.stake Qc)).
    apply DistributionFacts.sort_descending. }
  split.
  { subst stakes r. unfold Views.network_stakes, Network.main, Network.build.
    cbn [Network.validators Network.totalValidators]. rewrite !length_map. reflexivity. }
  split.
  { intro Hall. rewrite Es. apply Forall_map.
    eapply Permutation_Forall; [ apply Permutation_sym, SortFacts.sort_perm | ].
    unfold Network.build. cbn [fst]. apply Forall_app in Hall. destruct Hall as [ Hc Hd ].
    apply Forall_app. split; apply Forall_map;
      [ revert Hc | revert Hd ]; apply Forall_impl; intros x Hx;
      cbn [Network.stake]; apply BucketFacts.stake_nonneg, Hx. }
  subst total. rewrite Es. subst r. unfold Network.main, Network.build.
  cbn [fst snd Network.decentralization Network.totalStake]. reflexivity.
Qed.

(** X16.  The prefix metrics of the whole-network collector.  In exact arithmetic,
    when the total stake is above zero, [nakamotoCoeff33] is the smallest number
    of leading validators of the listing whose stakes reach a third of the
    total, [superminorityCount] the smallest number whose stakes reach 0.33
    times the total, and the second is at most the first. *)
Theorem network_prefix_metrics (lookup : string -> Network.Metadata)
        (current delinquents : list Network.VoteAccount) :
  let r := Network.main (N:=Qc) lookup current delinquents in
  0 < Network.totalStake r ->
  let stakes := Views.network_stakes r in
  let k := Network.nakamotoCoeff33 (Network.decentralization r) in
  let m := Network.superminorityCount (Network.decentralization r) in
  let third := div (Network.totalStake r) (of_Z 3) in
  let line := mul (Network.totalStake r) (decimal 33 2) in
  (1 <= m /\ m <= k /\ k <= Network.totalValidators r)%nat /\
  third <= sum (firstn k stakes) /\ sum (firstn (k - 1) stakes) < third /\
  line <= sum (firstn m stakes) /\ sum (firstn (m - 1) stakes) < line.
Proof.
  intros r Ht stakes k m third line.
  destruct (network_reading lookup current delinquents) as (Et & _ & Hn & _ & Ed).
  fold r in Et, Hn, Ed. fold stakes in Et, Hn, Ed.
  destruct (thresholds Ht) as (Hline & Hlt & Hthird). fold third in Hlt, Hthird.
  fold line in Hline, Hlt.
  assert (Ek : k = Metrics.prefix_loop third zero 0 stakes) by (subst k; rewrite Ed; reflexivity).
  assert (Em : m = Metrics.prefix_loop line zero 0 stakes) by (subst m; rewrite Ed; reflexivity).
  assert (H3 : 0 < third) by (eapply Qclt_le_trans; eassumption).
  assert (Hl : line <= sum stakes)
    by (rewrite <- Et; eapply Qcle_trans; eassumption).
  rewrite Et in Hthird.
  destruct (@prefix_reaches third stakes H3 Hthird) as (Hk & Hk1 & Hk2).
  destruct (@prefix_reaches line stakes Hline Hl) as (Hm & Hm1 & Hm2).
  cbv zeta in Hk, Hk1, Hk2, Hm, Hm1, Hm2.
  rewrite <- Ek in Hk, Hk1, Hk2. rewrite <- Em in Hm, Hm1, Hm2.
  pose proof (ReportFacts.prefix_loop_mono stakes Hlt zero 0) as Hmono.
  rewrite <- Ek, <- Em in Hmono.
  split; [ lia | ]. repeat split; assumption.
Qed.

Lemma network_prefix_metrics_witness :
  let r := Network.main (N:=Qc) Samples.unlisted
             [Samples.vote 3000000000 "A"; Samples.vote 1000000000 "B"]
             [Samples.vote 6000000000 "C"] in
  (Network.superminorityCount (Network.decentralization r)
   <= Network.nakamotoCoeff33 (Network.decentralization r))%nat /\
  div (Network.totalStake r) (of_Z 3)
  <= sum (firstn (Network.nakamotoCoeff33 (Network.decentralization r))
                 (Views.network_stakes r)).
Proof.
  intro r.
  assert (Ht : 0 < Network.totalStake r) by (vm_compute; reflexivity).
  destruct (@network_prefix_metrics Samples.unlisted _ _ Ht) as ((_ & Hmk & _) & Hk & _).
  split; [ exact Hmk | exact Hk ].
Defined.

(** X17.  The ranges of the metrics of the whole-network collector.  In exact
    arithmetic, when no vote account has a negative stake and the total stake is
    above zero: the Gini coefficient lies between 0 and [1 - 1 / n] and the HHI
    between [1 / n] and 1, [n] being the number of validators, and
    [0 <= topValidatorPct <= top10Pct <= top20Pct <= top50Pct <= 100]. *)
Theorem network_metric_ranges (lookup : string -> Network.Metadata)
        (current delinquents : list Network.VoteAccount) :
  Forall (fun a => (0 <= Network.activatedStake a)%Z) (current ++ delinquents) ->
  let r := Network.main (N:=Qc) lookup current delinquents in
  0 < Network.totalStake r ->
  let d := Network.decentralization r in
  let n := of_Z (Z.of_nat (Network.totalValidators r)) in
  (0 <= Network.gini d /\ Network.gini d <= 1 - 1 / n) /\
  (1 / n <= Network.hhi d /\ Network.hhi d <= 1) /\
  (0 <= Network.topValidatorPct d /\
   Network.topValidatorPct d <= Network.top10Pct d /\
   Network.top10Pct d <= Network.top20Pct d /\
   Network.top20Pct d <= Network.top50Pct d /\
   Network.top50Pct d <= of_Z 100).
Proof.
  intros Hall r Ht d n.
  destruct (network_reading lookup current delinquents) as (Et & _ & Hn & Hnn & Ed).
  fold r in Et, Hn, Hnn, Ed. specialize (Hnn Hall).
  subst d n. rewrite Ed, <- Hn.
  cbn [Network.gini Network.hhi Network.topValidatorPct Network.top10Pct Network.top20Pct
       Network.top50Pct].
  remember (Views.network_stakes r) as stakes eqn:Es.
  remember (Network.totalStake r) as total eqn:Etot. clear Es Etot Ed Hn.
  assert (Hs : 0 < sum stakes) by (rewrite <- Et; exact Ht).
  split; [ apply gini_range; assumption | ].
  split; [ apply hhi_range; assumption | ].
  unfold Metrics.top_stake, Arr.slice0.
  destruct stakes as [ | s0 rest ]; [ rewrite sum_nil in Hs; discriminate | ].
  cbn [nth_error].
  assert (E1 : sum (firstn 1 (s0 :: rest)) = s0) by (cbn [firstn]; apply sum_single).
  assert (H0 : 0 <= s0) by (inversion Hnn; assumption).
  split.
  { rewrite <- (percent_none total). apply percent_mono; assumption. }
  split.
  { rewrite <- E1 at 1. apply percent_mono; [ exact Ht | ].
    apply sum_firstn_mono; [ exact Hnn | lia ]. }
  split; [ apply percent_mono; [ exact Ht | apply sum_firstn_mono; [ exact Hnn | lia ] ] | ].
  split; [ apply percent_mono; [ exact Ht | apply sum_firstn_mono; [ exact Hnn | lia ] ] | ].
  rewrite <- (percent_full Ht). apply percent_mono; [ exact Ht | ].
  rewrite Et. apply sum_firstn_le, Hnn.
Qed.

Lemma network_metric_ranges_witness :
  let d := Network.decentralization
             (Network.main (N:=Qc) Samples.unlisted
                [Samples.vote 3000000000 "A"; Samples.vote 1000000000 "B"]
                [Samples.vote 6000000000 "C"]) in
  0 <= Network.gini d /\ Network.hhi d <= 1 /\ Network.top50Pct d <= of_Z 100.
Proof.
  intro d.
  assert (Hall : Forall (fun a => (0 <= Network.activatedStake a)%Z)
                        ([Samples.vote 3000000000 "A"; Samples.vote 1000000000 "B"]
                         ++ [Samples.vote 6000000000 "C"]))
    by (repeat constructor; discriminate).
  assert (Ht : 0 < Network.totalStake
                     (Network.main (N:=Qc) Samples.unlisted
                        [Samples.vote 3000000000 "A"; Samples.vote 1000000000 "B"]
                        [Samples.vote 6000000000 "C"])) by (vm_compute; reflexivity).
  destruct (@network_metric_ranges Samples.unlisted _ _ Hall Ht)
    as ((Hg & _) & (_ & Hh) & (_ & _ & _ & _ & H50)).
  split; [ exact Hg | ]. split; [ exact Hh | exact H50 ].
Defined.

(** X18.  The Nakamoto coefficient of the combined section of [collect].  In exact
    arithmetic, when the combined stake is above zero, it is the smallest number
    of leading identities of the merged list, sorted by stake in descending
    order, whose stakes reach a third of the combined total; the stakes of
    [topValidators] are the first 25 of that list. *)
Theorem combined_nakamoto_smallest_prefix (sources : list (string * @Sfdp.Analysis Qc)) :
  let c := Sfdp.combined sources in
  0 < Sfdp.totalActiveStake c ->
  let stakes := Arr.sort (fun a b => sub b a)
                         (map (@Sfdp.m_totalStake Qc) (Sfdp.mergeAll sources)) in
  let k := Sfdp.c_nakamotoCoeff33 c in
  let third := div (Sfdp.totalActiveStake c) (of_Z 3) in
  StronglySorted Spec.descending stakes /\
  Sfdp.totalActiveStake c = sum stakes /\
  List.length stakes = Sfdp.c_uniqueValidators c /\
  map (@Sfdp.c_totalStake Qc) (Sfdp.c_topValidators c) = firstn 25 stakes /\
  (1 <= k <= Sfdp.c_uniqueValidators c)%nat /\
  third <= sum (firstn k stakes) /\ sum (firstn (k - 1) stakes) < third.
Proof.
  intros c Ht stakes k third.
  assert (Et : Sfdp.totalActiveStake c = sum stakes).
  { subst c stakes. cbn [Sfdp.combined Sfdp.totalActiveStake]. unfold Sfdp.combinedTotal.
    apply sum_perm, Permutation_sym, SortFacts.sort_perm. }
  assert (En : List.length stakes = Sfdp.c_uniqueValidators c).
  { subst c stakes. cbn [Sfdp.combined Sfdp.c_uniqueValidators]. unfold Sfdp.combinedSorted.
    rewrite !SortFacts.sort_length, length_map. reflexivity. }
  assert (Ek : k = Metrics.prefix_loop third zero 0 stakes).
  { subst k c. rewrite CombinedFacts.combined_nakamoto. reflexivity. }
  split; [ apply DistributionFacts.sort_descending | ].
  split; [ exact Et | ]. split; [ exact En | ].
  split.
  { subst c stakes. cbn [Sfdp.combined Sfdp.c_topValidators]. unfold Sfdp.combinedSorted.
    rewrite map_map. cbn [Sfdp.c_totalStake]. unfold Arr.slice0.
    rewrite <- (DistributionFacts.sort_keys (@Sfdp.m_totalStake Qc)). symmetry. apply firstn_map. }
  destruct (thresholds Ht) as (Hline & Hlt & Hthird). fold third in Hlt, Hthird.
  assert (H3 : 0 < third) by (eapply Qclt_le_trans; eassumption).
  rewrite Et in Hthird.
  destruct (@prefix_reaches third stakes H3 Hthird) as (Hk & Hk1 & Hk2).
  cbv zeta in Hk, Hk1, Hk2. rewrite <- Ek in Hk, Hk1, Hk2. rewrite <- En.
  repeat split; try assumption; lia.
Qed.

Lemma combined_nakamoto_smallest_prefix_witness :
  let c := snd (Sfdp.collect (N:=Qc)
                  [("firep"%string, Samples.two_to_one);
                   ("mpa4"%string, [Samples.delegation 4000000000 "B" true])]) in
  (1 <= Sfdp.c_nakamotoCoeff33 c <= Sfdp.c_uniqueValidators c)%nat.
Proof.
  intro c.
  assert (Ht : 0 < Sfdp.totalActiveStake c) by (vm_compute; reflexivity).
  destruct (@combined_nakamoto_smallest_prefix _ Ht) as (_ & _ & _ & _ & Hk & _).
  exact Hk.
Defined.
End BoundFacts.

(** ** The contents of the stake buckets *)

Module BucketContents.
Import Exact.
Open Scope Qc_scope.

Lemma bucket_of_outside (v : Qc) (stakes : list Qc) (b : Metrics.bucket Qc) :
  Metrics.in_bucket v b = false -> Views.bucket_of (v :: stakes) b = Views.bucket_of stakes b.
Proof. intro E. unfold Views.bucket_of. cbn [filter]. rewrite E. reflexivity. Qed.

Lemma bucket_of_inside (v : Qc) (stakes : list Qc) (b : Metrics.bucket Qc) :
  Metrics.in_bucket v b = true ->
  Views.bucket_of (v :: stakes) b = Views.bucket_of stakes (Spec.credited v b).
Proof.
  intro E. unfold Views.bucket_of. cbn [filter]. rewrite E.
  change (fun x => Metrics.in_bucket x (Spec.credited v b))
    with (fun x => Metrics.in_bucket x b).
  cbn [Spec.credited Metrics.label Metrics.min Metrics.max Metrics.count Metrics.stake
       List.length fold_left].
  f_equal. lia.
Qed.

(** In a table of ranges every bucket ends up with the stakes of its
    range. *)
Lemma fill_contents (lo : Qc) (stakes : list Qc) :
  forall bs, Spec.ranges lo bs -> Forall (fun v => lo <= v) stakes ->
             Metrics.fill bs stakes = map (Views.bucket_of stakes) bs.
Proof.
  unfold Metrics.fill. induction stakes as [ | v stakes IH ]; intros bs Hr Hall.
  - cbn [fold_left]. symmetry. rewrite <- (map_id bs) at 2. apply map_ext.
    intros [ l mn mx c s ]. unfold Views.bucket_of.
    cbn [filter List.length fold_left Metrics.label Metrics.min Metrics.max Metrics.count
         Metrics.stake]. f_equal. lia.
  - inversion Hall as [ | ? ? Hv Hrest ]; subst. cbn [fold_left].
    rewrite IH; [ | apply BucketFacts.place_ranges, Hr | exact Hrest ].
    destruct (BucketFacts.place_spec Hr Hv)
      as (pre & b & post & -> & Hb & Hpre & Hpost & ->).
    rewrite !map_app. cbn [map]. f_equal; [ | f_equal ].
    + apply map_ext_in. intros b' Hb'. symmetry. apply bucket_of_outside.
      rewrite Forall_forall in Hpre. exact (Hpre b' Hb').
    + symmetry. apply bucket_of_inside, Hb.
    + apply map_ext_in. intros b' Hb'. symmetry. apply bucket_of_outside.
      rewrite Forall_forall in Hpost. exact (Hpost b' Hb').
Qed.

Lemma staked_app (l1 l2 : list (Metrics.bucket Qc)) :
  sum (map (@Metrics.stake Qc) (l1 ++ l2))
  = sum (map (@Metrics.stake Qc) l1) + sum (map (@Metrics.stake Qc) l2).
Proof. rewrite map_app. apply sum_app. Qed.

Lemma fill_staked (lo : Qc) (stakes : list Qc) :
  forall bs, Spec.ranges lo bs -> Forall (fun v => lo <= v) stakes ->
             sum (map (@Metrics.stake Qc) (Metrics.fill bs stakes))
             = sum (map (@Metrics.stake Qc) bs) + sum stakes.
Proof.
  unfold Metrics.fill. induction stakes as [ | v stakes IH ]; intros bs Hr Hall.
  - cbn [fold_left]. rewrite sum_nil. ring.
  - inversion Hall as [ | ? ? Hv Hrest ]; subst. cbn [fold_left].
    rewrite IH; [ | apply BucketFacts.place_ranges, Hr | exact Hrest ].
    destruct (BucketFacts.place_spec Hr Hv) as (pre & b & post & -> & _ & _ & _ & ->).
    rewrite !staked_app. cbn [map Spec.credited Metrics.stake].
    rewrite !sum_cons. cbn [add exact_number]. ring.
Qed.

(** X19.  The stake buckets of the three collectors.  In exact arithmetic every
    bucket counts the validators whose stake lies in its range
    ([min <= stake < max]) and holds the sum of their stakes: over the
    validators with active stake in the two SFDP collectors, and over all
    validators in the whole-network collector when no vote account has a
    negative stake.  So the stakes of the buckets add up to the sum of the
    stakes bucketed. *)
Theorem buckets_hold_their_ranges
        (accounts : list Rpc.Account) (lookup : string -> @Enhanced.Metadata Qc)
        (network_lookup : string -> Network.Metadata)
        (current delinquents : list Network.VoteAccount) :
  Forall (fun a => (0 <= Network.activatedStake a)%Z) (current ++ delinquents) ->
  let a := Sfdp.analyzeStakeAccounts (N:=Qc) accounts in
  let e := Enhanced.analyze lookup accounts in
  let r := Network.main (N:=Qc) network_lookup current delinquents in
  let active := Views.active_stakes (N:=Qc) accounts in
  let all := Views.network_stakes r in
  (Sfdp.stakeBuckets a = map (Views.bucket_of active) Metrics.sfdp_buckets /\
   sum (map (@Metrics.stake Qc) (Sfdp.stakeBuckets a)) = sum active) /\
  (Enhanced.stakeBuckets e = map (Views.bucket_of active) Metrics.enhanced_buckets /\
   sum (map (@Metrics.stake Qc) (Enhanced.stakeBuckets e)) = sum active) /\
  (Network.stakeBuckets r = map (Views.bucket_of all) Metrics.network_buckets /\
   sum (map (@Metrics.stake Qc) (Network.stakeBuckets r)) = Network.totalStake r).
Proof.
  intros Hall a e r active all.
  destruct (BoundFacts.sfdp_reading lookup accounts) as (Hpos & _).
  fold active in Hpos. pose proof (BoundFacts.positive_nonneg Hpos) as Hnn.
  destruct (BoundFacts.network_reading network_lookup current delinquents)
    as (Et & _ & _ & Hnn' & _).
  fold r in Et, Hnn'. fold all in Et, Hnn'. specialize (Hnn' Hall).
  assert (Ea : Sfdp.stakeBuckets a = Metrics.fill Metrics.sfdp_buckets active).
  { subst a active. cbn [Sfdp.analyzeStakeAccounts Sfdp.stakeBuckets].
    unfold Sfdp.active, Sfdp.sortValidators, Views.active_stakes.
    rewrite (DistributionFacts.stakes_read (@Sfdp.activeStake Qc)). reflexivity. }
  assert (Ee : Enhanced.stakeBuckets e = Metrics.fill Metrics.enhanced_buckets active).
  { subst e active. cbn [Enhanced.analyze Enhanced.stakeBuckets]. unfold Views.active_stakes.
    rewrite (DistributionFacts.stakes_read (@Enhanced.activeStake Qc)),
      DistributionFacts.enhanced_stakes. reflexivity. }
  assert (Er : Network.stakeBuckets r = Metrics.fill Metrics.network_buckets all).
  { subst r all. unfold Views.network_stakes, Network.main, Network.build.
    cbn [Network.stakeBuckets Network.validators]. rewrite map_map. reflexivity. }
  rewrite Ea, Ee, Er, Et.
  split; [ | split ]; (split; [ eapply fill_contents | erewrite fill_staked ]);
    eauto using BucketFacts.sfdp_ranges, BucketFacts.enhanced_ranges,
                BucketFacts.network_ranges;
    cbn [map Metrics.stake Metrics.sfdp_buckets Metrics.enhanced_buckets
         Metrics.network_buckets Metrics.empty_bucket];
    rewrite !sum_cons, sum_nil; change zero with 0; ring.
Qed.

Lemma buckets_hold_their_ranges_witness :
  let a := Sfdp.analyzeStakeAccounts (N:=Qc) Samples.two_to_one in
  Sfdp.stakeBuckets a
  = map (Views.bucket_of (Views.active_stakes (N:=Qc) Samples.two_to_one))
        Metrics.sfdp_buckets.
Proof.
  intro a.
  assert (Hs : Forall (fun a => (0 <= Network.activatedStake a)%Z)
                      ([Samples.vote 1000000000 "A"] ++ []))
    by (repeat constructor; discriminate).
  destruct (@buckets_hold_their_ranges Samples.two_to_one Samples.unknown Samples.unlisted
              _ _ Hs) as ((Ha & _) & _).
  exact Ha.
Defined.
End BucketContents.

(** ** The two SFDP collectors side by side *)

Module AgreementFacts.
Section Generic.
Context {N : Type} `{Number N}.

Lemma insert_map {A B : Type} (f : A -> B) (cmp : A -> A -> N) (cmp' : B -> B -> N) :
  (forall a b, cmp' (f a) (f b) = cmp a b) ->
  forall x l, Arr.insert cmp' (f x) (map f l) = map f (Arr.insert cmp x l).
Proof.
  intros Hc x l. induction l as [ | y l IH ]; cbn [map Arr.insert]; [ reflexivity | ].
  rewrite Hc. destruct (gtb (cmp x y) zero); cbn [map]; [ rewrite IH | ]; reflexivity.
Qed.

(** Sorting commutes with a map that the comparison sees through. *)
Lemma sort_map {A B : Type} (f : A -> B) (cmp : A -> A -> N) (cmp' : B -> B -> N) :
  (forall a b, cmp' (f a) (f b) = cmp a b) ->
  forall l, Arr.sort cmp' (map f l) = map f (Arr.sort cmp l).
Proof.
  intros Hc l. induction l as [ | x l IH ]; cbn [map Arr.sort fold_right]; [ reflexivity | ].
  fold (Arr.sort cmp' (map f l)). fold (Arr.sort cmp l).
  rewrite IH. apply insert_map, Hc.
Qed.

(** The validators with active stake of [collect-enhanced.js] are those of
    [analyzeStakeAccounts], in the same order. *)
Lemma active_agree (accounts : list Rpc.Account) :
  Arr.sort (fun a b => sub (Enhanced.activeStake b) (Enhanced.activeStake a))
           (Enhanced.validators (Enhanced.aggregate (N:=N) accounts))
  = map Spec.listed (Sfdp.sortValidators (Sfdp.validators (Sfdp.aggregate accounts))) /\
  map (@Enhanced.activeStake N)
      (filter (fun v => gtb (Enhanced.activeStake v) zero)
              (Arr.sort (fun a b => sub (Enhanced.activeStake b) (Enhanced.activeStake a))
                        (Enhanced.validators (Enhanced.aggregate accounts))))
  = map (@Sfdp.activeStake N)
        (Sfdp.active (Sfdp.sortValidators (Sfdp.validators (Sfdp.aggregate accounts)))).
Proof.
  destruct (AggregateFacts.sfdp_is_enhanced (N:=N) accounts) as (<- & _).
  assert (Es : Arr.sort (fun a b => sub (Enhanced.activeStake b) (Enhanced.activeStake a))
                        (map Spec.listed (Sfdp.validators (Sfdp.aggregate (N:=N) accounts)))
               = map Spec.listed
                     (Sfdp.sortValidators (Sfdp.validators (Sfdp.aggregate accounts)))).
  { unfold Sfdp.sortValidators. apply sort_map. intros a b. reflexivity. }
  split; [ exact Es | ].
  rewrite Es, TallyFacts.filter_map, map_map. reflexivity.
Qed.
End Generic.

(** X20.  The two SFDP collectors agree, in every arithmetic.  From the same
    stake accounts, the per-authority section of [collect-enhanced.js] and
    [analyzeStakeAccounts] report the same counts and totals, the same
    Nakamoto coefficient, HHI and Gini coefficient, the same stake statistics,
    the same bucket counts and stakes, and list the same validators in the
    same order with the same stakes and numbers of accounts. *)
Theorem collectors_agree (N : Type) (H : Number N)
        (lookup : string -> @Enhanced.Metadata N) (accounts : list Rpc.Account) :
  let a := Sfdp.analyzeStakeAccounts (N:=N) accounts in
  let e := Enhanced.analyze lookup accounts in
  (Enhanced.totalAccounts e = Sfdp.totalAccounts a /\
   Enhanced.emptyAccounts e = Sfdp.emptyAccounts a /\
   Enhanced.r_totalActive e = Sfdp.a_totalActive a /\
   Enhanced.r_totalDeactivating e = Sfdp.a_totalDeactivating a /\
   Enhanced.activeValidators e = Sfdp.activeValidators a /\
   List.length (Enhanced.r_validators e) = Sfdp.uniqueValidators a) /\
  (Enhanced.nakamotoCoeff33 (Enhanced.decentralization e)
   = Sfdp.nakamotoCoeff33 (Sfdp.decentralization a) /\
   Enhanced.hhi (Enhanced.decentralization e) = Sfdp.hhi (Sfdp.decentralization a) /\
   Enhanced.gini (Enhanced.decentralization e) = Sfdp.gini (Sfdp.decentralization a)) /\
  (Enhanced.mean (Enhanced.stakeStats e) = Sfdp.mean (Sfdp.stakeStats a) /\
   Enhanced.median (Enhanced.stakeStats e) = Sfdp.median (Sfdp.stakeStats a) /\
   Enhanced.max (Enhanced.stakeStats e) = Sfdp.max (Sfdp.stakeStats a) /\
   Enhanced.min (Enhanced.stakeStats e) = Sfdp.min (Sfdp.stakeStats a) /\
   Enhanced.p10 (Enhanced.stakeStats e) = Sfdp.p10 (Sfdp.stakeStats a) /\
   Enhanced.p90 (Enhanced.stakeStats e) = Sfdp.p90 (Sfdp.stakeStats a)) /\
  map (fun b => (Metrics.min b, Metrics.max b, Metrics.count b, Metrics.stake b))
      (Enhanced.stakeBuckets e)
  = map (fun b => (Metrics.min b, Metrics.max b, Metrics.count b, Metrics.stake b))
        (Sfdp.stakeBuckets a) /\
  map (fun v => (Enhanced.voter (Enhanced.base v), Enhanced.activeStake (Enhanced.base v),
                 Enhanced.deactivatingStake (Enhanced.base v),
                 Enhanced.accounts (Enhanced.base v)))
      (Enhanced.r_validators e)
  = map (fun l => (Sfdp.l_voter l, Sfdp.l_activeStake l, Sfdp.l_deactivatingStake l,
                   Sfdp.l_stakeAccounts l))
        (Sfdp.allValidators a).
Proof.
  intros a e.
  destruct (AggregateFacts.sfdp_is_enhanced (N:=N) accounts) as (Ev & Ea & Ed & Ee).
  destruct (active_agree (N:=N) accounts) as (Es & Est).
  assert (El : List.length (filter (fun v => gtb (Enhanced.activeStake v) zero)
                 (Arr.sort (fun a b => sub (Enhanced.activeStake b) (Enhanced.activeStake a))
                           (Enhanced.validators (Enhanced.aggregate (N:=N) accounts))))
               = List.length (Sfdp.active (Sfdp.sortValidators
                                (Sfdp.validators (Sfdp.aggregate (N:=N) accounts))))).
  { rewrite <- (length_map (@Enhanced.activeStake N)), Est, length_map. reflexivity. }
  subst a e.
  cbn [Enhanced.analyze Sfdp.analyzeStakeAccounts
       Enhanced.totalAccounts Sfdp.totalAccounts Enhanced.emptyAccounts Sfdp.emptyAccounts
       Enhanced.r_totalActive Sfdp.a_totalActive Enhanced.r_totalDeactivating
       Sfdp.a_totalDeactivating Enhanced.activeValidators Sfdp.activeValidators
       Enhanced.r_validators Sfdp.uniqueValidators
       Enhanced.decentralization Sfdp.decentralization
       Enhanced.nakamotoCoeff33 Sfdp.nakamotoCoeff33 Enhanced.hhi Sfdp.hhi
       Enhanced.gini Sfdp.gini Enhanced.stakeStats Sfdp.stakeStats
       Enhanced.mean Sfdp.mean Enhanced.median Sfdp.median Enhanced.max Sfdp.max
       Enhanced.min Sfdp.min Enhanced.p10 Sfdp.p10 Enhanced.p90 Sfdp.p90
       Enhanced.stakeBuckets Sfdp.stakeBuckets Sfdp.allValidators].
  rewrite Est, El, <- Ea, <- Ed, <- Ee.
  split.
  { repeat (split; [ reflexivity | ]).
    rewrite length_map, SortFacts.sort_length, <- Ev, length_map. reflexivity. }
  split; [ repeat split; reflexivity | ].
  split; [ unfold Enhanced.of_nat, Sfdp.of_nat; rewrite !length_map;
           repeat split; reflexivity | ].
  split.
  { unfold Metrics.fill. generalize (map (@Sfdp.activeStake N)
      (Sfdp.active (Sfdp.sortValidators (Sfdp.validators (Sfdp.aggregate (N:=N) accounts))))).
    intro stakes.
    assert (Hfill : forall bs bs' : list (Metrics.bucket N),
               map (fun b => (Metrics.min b, Metrics.max b, Metrics.count b, Metrics.stake b)) bs
               = map (fun b => (Metrics.min b, Metrics.max b, Metrics.count b, Metrics.stake b))
                     bs' ->
               map (fun b => (Metrics.min b, Metrics.max b, Metrics.count b, Metrics.stake b))
                   (fold_left (fun bs v => Metrics.place v bs) stakes bs)
               = map (fun b => (Metrics.min b, Metrics.max b, Metrics.count b, Metrics.stake b))
                     (fold_left (fun bs v => Metrics.place v bs) stakes bs')).
    { induction stakes as [ | v stakes IH ]; intros bs bs' E; cbn [fold_left]; [ exact E | ].
      apply IH. revert bs' E. induction bs as [ | b bs IHb ]; intros [ | b' bs' ] E;
        cbn [map] in E; try discriminate; [ reflexivity | ].
      injection E as Emin Emax Ecount Estake Erest. cbn [Metrics.place].
      unfold Metrics.in_bucket. rewrite Emin, Emax.
      destruct (geb v (Metrics.min b') && _); cbn [map Metrics.min Metrics.max Metrics.count
                                                     Metrics.stake].
      - rewrite ?Emin, ?Emax, ?Ecount, ?Estake, ?Erest. reflexivity.
      - rewrite ?Emin, ?Emax, ?Ecount, ?Estake, (IHb bs' Erest). reflexivity. }
    apply Hfill. reflexivity. }
  rewrite Es, !map_map. reflexivity.
Qed.
End AgreementFacts.

(** ** The merged validators of [collect] *)

Module MergeFacts.
Section Generic.
Context {N : Type} `{Number N}.

(** The two nested loops of [collect] run over the listings. *)
Lemma mergeAll_listings (sources : list (string * @Sfdp.Analysis N)) :
  Sfdp.mergeAll sources
  = fold_left (fun all kv => Sfdp.merge1 (fst kv) (snd kv) all) (Views.listings sources) [].
Proof.
  unfold Sfdp.mergeAll, Views.listings. generalize (@nil (@Sfdp.Merged N)).
  induction sources as [ | kd sources IH ]; intro all; cbn [fold_left flat_map];
    [ reflexivity | ].
  rewrite fold_left_app, IH. f_equal. rewrite TallyFacts.fold_left_map. reflexivity.
Qed.

Lemma merged_of_snoc (items : list (string * @Sfdp.Listed N)) (kv : string * @Sfdp.Listed N)
      (k : string) :
  Views.merged_of (items ++ [kv]) k
  = if String.eqb (Sfdp.l_voter (snd kv)) k
    then {| Sfdp.m_voter := k;
            Sfdp.m_totalStake := add (Sfdp.m_totalStake (Views.merged_of items k))
                                     (Sfdp.l_activeStake (snd kv));
            Sfdp.sources := Sfdp.assign (fst kv) (Sfdp.l_activeStake (snd kv))
                                        (Sfdp.sources (Views.merged_of items k)) |}
    else Views.merged_of items k.
Proof.
  unfold Views.merged_of. rewrite filter_app. cbn [filter].
  destruct (String.eqb (Sfdp.l_voter (snd kv)) k).
  - rewrite map_app, fold_left_app. cbn [map fold_left].
    rewrite AggregateFacts.sum_snoc. reflexivity.
  - rewrite app_nil_r. reflexivity.
Qed.

Lemma merged_of_unseen (items : list (string * @Sfdp.Listed N)) (k : string) :
  ~ In k (map (fun kv : string * @Sfdp.Listed N => Sfdp.l_voter (snd kv)) items) ->
  Views.merged_of items k
  = {| Sfdp.m_voter := k; Sfdp.m_totalStake := zero; Sfdp.sources := [] |}.
Proof.
  intro Hk. unfold Views.merged_of. rewrite AggregateFacts.filter_none; [ reflexivity | ].
  intros kv Hin. destruct (String.eqb (Sfdp.l_voter (snd kv)) k) eqn:E; [ | reflexivity ].
  apply String.eqb_eq in E. exfalso. apply Hk. rewrite <- E.
  apply (in_map (fun kv : string * @Sfdp.Listed N => Sfdp.l_voter (snd kv))), Hin.
Qed.

Lemma merge1_seen (key : string) (v : @Sfdp.Listed N) (f : string -> @Sfdp.Merged N)
      (ks : list string) :
  (forall k, Sfdp.m_voter (f k) = k) -> NoDup ks -> In (Sfdp.l_voter v) ks ->
  Sfdp.merge1 key v (map f ks)
  = map (fun k => if String.eqb (Sfdp.l_voter v) k
                  then {| Sfdp.m_voter := k;
                          Sfdp.m_totalStake := add (Sfdp.m_totalStake (f k))
                                                   (Sfdp.l_activeStake v);
                          Sfdp.sources := Sfdp.assign key (Sfdp.l_activeStake v)
                                                      (Sfdp.sources (f k)) |}
                  else f k) ks.
Proof.
  intro Hf. induction 1 as [ | k ks Hk Hnd IH ]; intro Hin; [ destruct Hin | ].
  cbn [map Sfdp.merge1]. rewrite Hf, (String.eqb_sym (Sfdp.l_voter v) k).
  destruct (String.eqb k (Sfdp.l_voter v)) eqn:E.
  - apply String.eqb_eq in E. subst k. f_equal.
    apply map_ext_in. intros x Hx. destruct (String.eqb (Sfdp.l_voter v) x) eqn:Ex;
      [ | reflexivity ].
    apply String.eqb_eq in Ex. subst x. contradiction.
  - f_equal. apply IH. destruct Hin as [ -> | Hin ]; [ | exact Hin ].
    rewrite String.eqb_refl in E. discriminate.
Qed.

Lemma merge1_unseen (key : string) (v : @Sfdp.Listed N) (f : string -> @Sfdp.Merged N)
      (ks : list string) :
  (forall k, Sfdp.m_voter (f k) = k) -> ~ In (Sfdp.l_voter v) ks ->
  Sfdp.merge1 key v (map f ks)
  = (map f ks
     ++ [{| Sfdp.m_voter := Sfdp.l_voter v;
            Sfdp.m_totalStake := add zero (Sfdp.l_activeStake v);
            Sfdp.sources := [(key, Sfdp.l_activeStake v)] |}])%list.
Proof.
  intro Hf. induction ks as [ | k ks IH ]; intro Hk; [ reflexivity | ].
  cbn [map Sfdp.merge1 app]. rewrite Hf. destruct (String.eqb k (Sfdp.l_voter v)) eqn:E.
  - apply String.eqb_eq in E. subst k. exfalso. apply Hk. left. reflexivity.
  - f_equal. apply IH. intro Hin. apply Hk. right. exact Hin.
Qed.

(** The merged list holds one entry for each voter that some source lists,
    in the order of the first listings, and the entry of a voter holds what
    the sources list for it. *)
Lemma merge_spec (items : list (string * @Sfdp.Listed N)) :
  fold_left (fun all kv => Sfdp.merge1 (fst kv) (snd kv) all) items []
  = map (Views.merged_of items) (Views.categories (map (fun kv : string * @Sfdp.Listed N => Sfdp.l_voter (snd kv)) items)).
Proof.
  induction items as [ | kv items IH ] using rev_ind; [ reflexivity | ].
  rewrite fold_left_app. cbn [fold_left]. rewrite IH, map_app. cbn [map].
  rewrite TallyFacts.categories_snoc. unfold Views.note.
  destruct (existsb (String.eqb (Sfdp.l_voter (snd kv)))
                    (Views.categories (map (fun kv : string * @Sfdp.Listed N => Sfdp.l_voter (snd kv)) items))) eqn:E.
  - apply AggregateFacts.seen_iff in E.
    rewrite merge1_seen; [ | reflexivity | apply TallyFacts.categories_nodup | exact E ].
    apply map_ext. intro k. rewrite merged_of_snoc.
    destruct (String.eqb (Sfdp.l_voter (snd kv)) k); reflexivity.
  - assert (Hnot : ~ In (Sfdp.l_voter (snd kv)) (Views.categories (map (fun kv : string * @Sfdp.Listed N => Sfdp.l_voter (snd kv)) items)))
      by (intro Hin; apply AggregateFacts.seen_iff in Hin; congruence).
    rewrite merge1_unseen; [ | reflexivity | exact Hnot ].
    rewrite map_app. cbn [map]. f_equal.
    + apply map_ext_in. intros k Hk. rewrite merged_of_snoc.
      destruct (String.eqb (Sfdp.l_voter (snd kv)) k) eqn:Ek; [ | reflexivity ].
      apply String.eqb_eq in Ek. subst k. contradiction.
    + rewrite merged_of_snoc, String.eqb_refl.
      rewrite merged_of_unseen; [ reflexivity | ].
      intro Hin. apply Hnot, TallyFacts.categories_in, Hin.
Qed.

Lemma assign_fresh (key : string) (x : N) (o : list (string * N)) :
  ~ In key (map fst o) -> Sfdp.assign key x o = (o ++ [(key, x)])%list.
Proof.
  induction o as [ | [ k y ] o IH ]; intro Hk; [ reflexivity | ].
  cbn [Sfdp.assign app]. destruct (String.eqb k key) eqn:E.
  - apply String.eqb_eq in E. subst k. exfalso. apply Hk. left. reflexivity.
  - f_equal. apply IH. intro Hin. apply Hk. right. exact Hin.
Qed.

(** When the keys of the items are distinct, no assignment replaces an
    earlier one. *)
Lemma assign_all (mine : list (string * @Sfdp.Listed N)) :
  NoDup (map fst mine) ->
  fold_left (fun o kv => Sfdp.assign (fst kv) (Sfdp.l_activeStake (snd kv)) o) mine []
  = map (fun kv => (fst kv, Sfdp.l_activeStake (snd kv))) mine.
Proof.
  induction mine as [ | kv mine IH ] using rev_ind; intro Hnd; [ reflexivity | ].
  rewrite map_app in Hnd. cbn [map] in Hnd.
  assert (Hmine : NoDup (map fst mine)) by (eapply NoDup_app_remove_r, Hnd).
  assert (Hkv : ~ In (fst kv) (map fst mine)).
  { intro Hin. apply NoDup_remove_2 in Hnd. rewrite app_nil_r in Hnd. contradiction. }
  rewrite fold_left_app. cbn [fold_left]. rewrite (IH Hmine), assign_fresh.
  - rewrite map_app. reflexivity.
  - rewrite map_map. cbn [fst]. exact Hkv.
Qed.

(** The keys under which a voter is listed are distinct, when the sources
    have distinct keys and each lists a voter once at most. *)
Lemma keys_of_voter (sources : list (string * @Sfdp.Analysis N)) (k : string) :
  NoDup (map fst sources) ->
  Forall (fun kd => NoDup (map (@Sfdp.l_voter N) (Sfdp.allValidators (snd kd)))) sources ->
  NoDup (map fst (filter (fun kv => String.eqb (Sfdp.l_voter (snd kv)) k)
                         (Views.listings sources))).
Proof.
  unfold Views.listings.
  induction sources as [ | [ key d ] sources IH ]; intros Hkeys Hall; [ constructor | ].
  cbn [map fst] in Hkeys. inversion Hkeys as [ | ? ? Hkey Hrest ]; subst.
  inversion Hall as [ | ? ? Hd Hall' ]; subst. cbn [snd] in Hd.
  cbn [flat_map fst snd]. rewrite filter_app, map_app.
  assert (Hin : forall key' vs,
             incl (map fst (filter (fun kv : string * @Sfdp.Listed N =>
                                      String.eqb (Sfdp.l_voter (snd kv)) k)
                                   (map (fun v => (key', v)) vs))) [key']).
  { intros key' vs x Hx. apply in_map_iff in Hx. destruct Hx as ([ k' v ] & <- & Hx).
    apply filter_In in Hx. destruct Hx as [ Hx _ ]. apply in_map_iff in Hx.
    destruct Hx as (v' & E & _). injection E as <- _. left. reflexivity. }
  apply NoDup_app.
  - clear - Hd. induction (Sfdp.allValidators d) as [ | v vs IHv ];
      cbn [map filter]; [ constructor | ].
    cbn [map] in Hd. inversion Hd as [ | ? ? Hv Hvs ]; subst. cbn [snd].
    destruct (String.eqb (Sfdp.l_voter v) k) eqn:E; [ | apply IHv, Hvs ].
    apply String.eqb_eq in E. cbn [map fst].
    rewrite AggregateFacts.filter_none; [ constructor; [ intros [] | constructor ] | ].
    intros [ key' v' ] Hv'. cbn [snd]. apply in_map_iff in Hv'.
    destruct Hv' as (v'' & E' & Hv''). injection E' as _ <-.
    destruct (String.eqb (Sfdp.l_voter v'') k) eqn:E''; [ | reflexivity ].
    apply String.eqb_eq in E''. exfalso. apply Hv. rewrite E, <- E''.
    apply in_map, Hv''.
  - apply IH; assumption.
  - intros x Hx Hx'. apply Hin in Hx. destruct Hx as [ <- | [] ].
    apply Hkey. apply in_map_iff in Hx'. destruct Hx' as ([ k' v ] & E & Hx').
    cbn [fst] in E. subst k'. apply filter_In in Hx'. destruct Hx' as [ Hx' _ ].
    apply in_flat_map in Hx'. destruct Hx' as ([ key' d' ] & Hsrc & Hv).
    apply in_map_iff in Hv. destruct Hv as (v' & E & _). injection E as <- _.
    apply (in_map fst) in Hsrc. exact Hsrc.
Qed.

(** An analysis lists every voter once. *)
Lemma listed_once (accounts : list Rpc.Account) :
  NoDup (map (@Sfdp.l_voter N) (Sfdp.allValidators (Sfdp.analyzeStakeAccounts accounts))).
Proof.
  cbn [Sfdp.analyzeStakeAccounts Sfdp.allValidators]. rewrite map_map. cbn [Sfdp.l_voter].
  eapply Permutation_NoDup;
    [ apply Permutation_map, Permutation_sym, SortFacts.sort_perm | ].
  destruct (AggregateFacts.sfdp_is_enhanced (N:=N) accounts) as (E & _).
  replace (map (@Sfdp.voter N) (Sfdp.validators (Sfdp.aggregate accounts)))
    with (map (@Enhanced.voter N)
              (map Spec.listed (Sfdp.validators (Sfdp.aggregate accounts))))
    by (rewrite map_map; reflexivity).
  rewrite E, AggregateFacts.validators_spec, map_map. cbn [Spec.aggregate_of Enhanced.voter].
  rewrite map_id. apply AggregateFacts.voters_nodup.
Qed.
End Generic.

(** X21.  The merged validators of [collect], in every arithmetic.  The merged
    list holds one entry for each voter that some authority lists, in the order
    of the first listings.  When the authorities have distinct keys, the
    [sources] of an entry hold the active stake that each authority lists for
    the voter, under the key of the authority and in the order of the
    authorities, and [totalStake] is their sum, added in that order; so it is
    for the validators of [combined.topValidators]. *)
Theorem merged_sources_add_up (N : Type) (H : Number N)
        (fetched : list (string * list Rpc.Account)) :
  NoDup (map fst fetched) ->
  let r := Sfdp.collect (N:=N) fetched in
  let items := Views.listings (fst r) in
  let listed_for m :=
    map (fun kv => (fst kv, Sfdp.l_activeStake (snd kv)))
        (filter (fun kv => String.eqb (Sfdp.l_voter (snd kv)) (Sfdp.m_voter m)) items) in
  Sfdp.mergeAll (fst r)
  = map (Views.merged_of items)
        (Views.categories (map (fun kv => Sfdp.l_voter (snd kv)) items)) /\
  Forall (fun m => Sfdp.sources m = listed_for m /\
                   Sfdp.m_totalStake m = sum (map snd (Sfdp.sources m)))
         (Sfdp.mergeAll (fst r)) /\
  Forall (fun t => Sfdp.c_totalStake t = sum (map snd (Sfdp.c_sources t)))
         (Sfdp.c_topValidators (snd r)).
Proof.
  intros Hkeys r items listed_for.
  assert (Espec : Sfdp.mergeAll (fst r)
                  = map (Views.merged_of items)
                        (Views.categories (map (fun kv => Sfdp.l_voter (snd kv)) items))).
  { rewrite mergeAll_listings. apply merge_spec. }
  assert (Hsrc : NoDup (map fst (fst r))).
  { subst r. unfold Sfdp.collect. cbn [fst]. rewrite map_map. exact Hkeys. }
  assert (Hlisted : Forall (fun kd => NoDup (map (@Sfdp.l_voter N)
                                                (Sfdp.allValidators (snd kd)))) (fst r)).
  { subst r. unfold Sfdp.collect. cbn [fst]. apply Forall_map, Forall_forall.
    intros kf _. apply listed_once. }
  assert (Hall : Forall (fun m => Sfdp.sources m = listed_for m /\
                                  Sfdp.m_totalStake m = sum (map snd (Sfdp.sources m)))
                        (Sfdp.mergeAll (fst r))).
  { rewrite Espec. apply Forall_map, Forall_forall. intros k _.
    assert (E : Sfdp.sources (Views.merged_of items k) = listed_for (Views.merged_of items k)).
    { subst listed_for. cbn [Views.merged_of Sfdp.sources Sfdp.m_voter].
      apply assign_all, keys_of_voter; assumption. }
    split; [ exact E | ]. rewrite E. subst listed_for. cbv beta.
    cbn [Views.merged_of Sfdp.m_totalStake Sfdp.m_voter]. rewrite map_map. reflexivity. }
  split; [ exact Espec | ]. split; [ exact Hall | ].
  subst r. unfold Sfdp.collect in *. cbn [fst snd] in *.
  cbn [Sfdp.combined Sfdp.c_topValidators]. apply Forall_map, Forall_forall.
  intros m Hm. cbn [Sfdp.c_totalStake Sfdp.c_sources].
  unfold Arr.slice0, Sfdp.combinedSorted in Hm.
  assert (Hin : In m (Sfdp.mergeAll
                        (map (fun kf => (fst kf, Sfdp.analyzeStakeAccounts (N:=N) (snd kf)))
                             fetched))).
  { eapply Permutation_in; [ apply SortFacts.sort_perm | ].
    rewrite <- (firstn_skipn 25 (Arr.sort _ _)). apply in_or_app. left. exact Hm. }
  rewrite Forall_forall in Hall. apply (Hall m Hin).
Qed.

Lemma merged_sources_add_up_witness :
  let r := Sfdp.collect (N:=float)
             [("firep"%string, Samples.two_to_one);
              ("mpa4"%string, [Samples.delegation 4000000000 "B" true])] in
  Forall (fun t => Sfdp.c_totalStake t = sum (map snd (Sfdp.c_sources t)))
         (Sfdp.c_topValidators (snd r)).
Proof.
  intro r.
  assert (Hkeys : NoDup (map fst [("firep"%string, Samples.two_to_one);
                                  ("mpa4"%string, [Samples.delegation 4000000000 "B" true])]))
    by (repeat constructor; cbn; intuition discriminate).
  exact (proj2 (proj2 (@merged_sources_add_up float _ _ Hkeys))).
Defined.
End MergeFacts.

(** ** The combined section of [collect-enhanced.js] *)

Module TrackedFacts.
Section Generic.
Context {N : Type} `{Number N}.

(** The loop of lines 296-305, for validators whose metadata were looked up
    by voter: a voter counts once, at its first listing. *)
Lemma tracked_fold (lookup : string -> @Enhanced.Metadata N)
      (vals : list (@Enhanced.Enriched N)) :
  Forall (fun v => Enhanced.meta v = lookup (Enhanced.voter (Enhanced.base v))) vals ->
  let have := filter (fun k => gtb (Enhanced.totalNetworkStake (lookup k)) zero)
                     (Views.categories (map (fun v => Enhanced.voter (Enhanced.base v)) vals)) in
  fold_left
    (fun acc v =>
       let '(total, seen) := acc in
       if negb (existsb (String.eqb (Enhanced.voter (Enhanced.base v))) seen)
          && gtb (Enhanced.totalNetworkStake (Enhanced.meta v)) zero
       then (add total (Enhanced.totalNetworkStake (Enhanced.meta v)),
             Enhanced.voter (Enhanced.base v) :: seen)
       else acc)
    vals (zero, [])
  = (sum (map (fun k => Enhanced.totalNetworkStake (lookup k)) have), rev have).
Proof.
  induction vals as [ | v vals IH ] using rev_ind; intro Hmeta; [ reflexivity | ].
  apply Forall_app in Hmeta. destruct Hmeta as [ Hvals Hv ].
  inversion Hv as [ | ? ? Ev _ ]; subst. specialize (IH Hvals). cbv zeta in IH.
  cbv zeta. rewrite fold_left_app, IH. cbn [fold_left]. rewrite Ev.
  rewrite map_app. cbn [map]. rewrite TallyFacts.categories_snoc. unfold Views.note.
  set (k := Enhanced.voter (Enhanced.base v)).
  set (cats := Views.categories (map (fun v => Enhanced.voter (Enhanced.base v)) vals)).
  set (pos := fun k => gtb (Enhanced.totalNetworkStake (lookup k)) zero).
  destruct (existsb (String.eqb k) cats) eqn:E.
  - apply AggregateFacts.seen_iff in E.
    destruct (pos k) eqn:Ek; fold (pos k); rewrite Ek, ?andb_false_r; [ | reflexivity ].
    assert (Hseen : existsb (String.eqb k) (rev (filter pos cats)) = true).
    { apply AggregateFacts.seen_iff. rewrite <- in_rev.
      apply filter_In. split; assumption. }
    rewrite Hseen. reflexivity.
  - assert (Hnot : ~ In k cats) by (intro Hin; apply AggregateFacts.seen_iff in Hin; congruence).
    assert (Hseen : existsb (String.eqb k) (rev (filter pos cats)) = false).
    { destruct (existsb (String.eqb k) (rev (filter pos cats))) eqn:Es; [ | reflexivity ].
      apply AggregateFacts.seen_iff in Es. rewrite <- in_rev in Es.
      apply filter_In in Es. destruct Es as [ Es _ ]. contradiction. }
    rewrite Hseen, filter_app. cbn [negb andb filter]. fold (pos k).
    destruct (pos k).
    + rewrite map_app. cbn [map]. rewrite AggregateFacts.sum_snoc, rev_unit. reflexivity.
    + rewrite app_nil_r. reflexivity.
Qed.
End Generic.

(** X22.  The network stake that the combined section tracks, in every
    arithmetic.  A validator that several authorities stake to is counted
    once: [trackedNetworkStake] is the sum of the network stakes of the
    distinct voters listed that have network stake above zero, added in the
    order of their first listings. *)
Theorem tracked_stake_counts_once (N : Type) (H : Number N)
        (lookup : string -> @Enhanced.Metadata N)
        (fetched : list (string * list Rpc.Account)) (c : @Enhanced.Combined N) :
  snd (Enhanced.main lookup fetched) = Some c ->
  Enhanced.c_trackedNetworkStake c
  = Views.tracked lookup (Views.listed_voters (fst (Enhanced.main lookup fetched))).
Proof.
  unfold Enhanced.main. cbn [fst snd]. intro Hc.
  set (accounts := map (fun kf => (fst kf, Enhanced.analyze lookup (snd kf))) fetched) in *.
  assert (Et : Enhanced.c_trackedNetworkStake c = Enhanced.trackedNetworkStake accounts).
  { unfold Enhanced.combined in Hc. destruct (Enhanced.get "mpa4" accounts); [ | discriminate ].
    injection Hc as <-. reflexivity. }
  rewrite Et. unfold Enhanced.trackedNetworkStake, Views.tracked, Views.listed_voters.
  assert (Hmeta : Forall (fun v => Enhanced.meta v = lookup (Enhanced.voter (Enhanced.base v)))
                         (flat_map (fun kd => Enhanced.r_validators (snd kd)) accounts)).
  { apply Forall_forall. intros v Hv. apply in_flat_map in Hv.
    destruct Hv as (kd & Hkd & Hv). subst accounts. apply in_map_iff in Hkd.
    destruct Hkd as (kf & <- & _). cbn [snd Enhanced.analyze Enhanced.r_validators] in Hv.
    apply in_map_iff in Hv. destruct Hv as (b & <- & _). reflexivity. }
  pose proof (tracked_fold lookup Hmeta) as Hfold. cbv zeta in Hfold.
  rewrite Hfold. reflexivity.
Qed.

Lemma tracked_stake_counts_once_witness :
  let lookup := Sources.metadata (N:=float) (Sources.valMap Samples.wiz)
                  (Sources.voteMap Samples.voting Samples.lagging) in
  exists c, snd (Enhanced.main lookup Samples.two_pools) = Some c /\
            Enhanced.c_trackedNetworkStake c
            = Views.tracked lookup
                (Views.listed_voters (fst (Enhanced.main lookup Samples.two_pools))) /\
            Enhanced.c_trackedNetworkStake c = of_Z 10.
Proof.
  intro lookup. eexists. split; [ vm_compute; reflexivity | ].
  split; [ | vm_compute; reflexivity ].
  apply tracked_stake_counts_once. vm_compute. reflexivity.
Defined.
End TrackedFacts.

(** ** The metadata maps and the files *)

Module SourceFacts.
Open Scope string_scope.

Section Obj.
Context {V : Type}.

Lemma get_set_same (k : string) (v : V) (o : list (string * V)) :
  Enhanced.get k (Sources.set k v o) = Some v.
Proof.
  induction o as [ | [ k' v' ] o IH ]; cbn [Sources.set Enhanced.get].
  - rewrite String.eqb_refl. reflexivity.
  - destruct (String.eqb k' k) eqn:E; cbn [Enhanced.get]; rewrite E; [ reflexivity | exact IH ].
Qed.

Lemma get_set_other (k k' : string) (v : V) (o : list (string * V)) :
  k <> k' -> Enhanced.get k' (Sources.set k v o) = Enhanced.get k' o.
Proof.
  intro Hk. induction o as [ | [ k0 v0 ] o IH ]; cbn [Sources.set Enhanced.get].
  - destruct (String.eqb k k') eqn:E; [ | reflexivity ].
    apply String.eqb_eq in E. contradiction.
  - destruct (String.eqb k0 k) eqn:E; cbn [Enhanced.get].
    + apply String.eqb_eq in E. subst k0.
      destruct (String.eqb k k') eqn:E'; [ | reflexivity ].
      apply String.eqb_eq in E'. contradiction.
    + rewrite IH. reflexivity.
Qed.

(** A map filled by assignments answers with the last entry for the key. *)
Lemma get_fold_set {A : Type} (key : A -> string) (val : A -> V) (l : list A) (k : string) :
  Enhanced.get k (fold_left (fun m x => Sources.set (key x) (val x) m) l [])
  = option_map val (find (fun x => String.eqb (key x) k) (rev l)).
Proof.
  induction l as [ | x l IH ] using rev_ind; [ reflexivity | ].
  rewrite fold_left_app, rev_unit. cbn [fold_left find].
  destruct (String.eqb (key x) k) eqn:E.
  - apply String.eqb_eq in E. subst k. apply get_set_same.
  - rewrite get_set_other; [ exact IH | ].
    intro Ek. rewrite Ek, String.eqb_refl in E. discriminate.
Qed.
End Obj.

(** The second loop of lines 65-67 flags the entries of the delinquent vote
    accounts, and changes nothing else. *)
Lemma flagged (delinquents : list Network.VoteAccount) (k : string) :
  forall m : list (string * Sources.VoteInfo),
    Enhanced.get k
      (fold_left (fun m v => match Enhanced.get (Network.votePubkey v) m with
                             | Some i => Sources.set (Network.votePubkey v)
                                           {| Sources.vi_commission := Sources.vi_commission i;
                                              Sources.vi_activatedStake :=
                                                Sources.vi_activatedStake i;
                                              Sources.vi_delinquent := true |} m
                             | None => m
                             end) delinquents m)
    = option_map
        (fun i => {| Sources.vi_commission := Sources.vi_commission i;
                     Sources.vi_activatedStake := Sources.vi_activatedStake i;
                     Sources.vi_delinquent :=
                       Sources.vi_delinquent i
                       || existsb (String.eqb k) (map Network.votePubkey delinquents) |})
        (Enhanced.get k m).
Proof.
  induction delinquents as [ | v delinquents IH ]; intro m; cbn [fold_left map existsb].
  - destruct (Enhanced.get k m) as [ [ c s d ] | ]; cbn [option_map]; [ | reflexivity ].
    cbn [Sources.vi_commission Sources.vi_activatedStake Sources.vi_delinquent].
    rewrite orb_false_r. reflexivity.
  - rewrite IH. destruct (String.eqb k (Network.votePubkey v)) eqn:E.
    + apply String.eqb_eq in E. subst k.
      destruct (Enhanced.get (Network.votePubkey v) m) as [ i | ] eqn:Em.
      * rewrite get_set_same. cbn [option_map Sources.vi_commission Sources.vi_activatedStake
                                     Sources.vi_delinquent].
        rewrite !orb_true_l, orb_true_r. reflexivity.
      * rewrite Em. reflexivity.
    + assert (Hk : Network.votePubkey v <> k)
        by (intro Ek; rewrite Ek, String.eqb_refl in E; discriminate).
      destruct (Enhanced.get (Network.votePubkey v) m) as [ i | ];
        [ rewrite (get_set_other _ _ Hk) | ]; reflexivity.
Qed.

(** X23.  The three maps as lookups.  [valMap], [voteMap] and [bpMap] answer for a
    key with the last entry of the list that carries the key, and with nothing
    when there is none; the answer of [voteMap] is flagged as delinquent
    exactly when the key is the address of a delinquent vote account. *)
Theorem maps_answer_with_last_entry (N : Type) (H : Number N)
        (stakewizData : list (@Sources.Stakewiz N))
        (current delinquents : list Network.VoteAccount)
        (byIdentity : list (string * (Z * Z))) (k : string) :
  Enhanced.get k (Sources.valMap stakewizData)
  = find (fun s => String.eqb (Sources.vote_identity s) k) (rev stakewizData) /\
  Enhanced.get k (Sources.voteMap current delinquents)
  = option_map
      (fun v => {| Sources.vi_commission := Network.va_commission v;
                   Sources.vi_activatedStake := Network.activatedStake v;
                   Sources.vi_delinquent :=
                     existsb (String.eqb k) (map Network.votePubkey delinquents) |})
      (find (fun v => String.eqb (Network.votePubkey v) k) (rev (current ++ delinquents))) /\
  Enhanced.get k (Sources.bpMap (N:=N) byIdentity)
  = option_map
      (fun e => {| Sources.leaderSlots := fst (snd e);
                   Sources.blocksProduced := snd (snd e);
                   Sources.skipRate := Sources.skip_rate (fst (snd e)) (snd (snd e)) |})
      (find (fun e => String.eqb (fst e) k) (rev byIdentity)).
Proof.
  split; [ | split ].
  - unfold Sources.valMap. rewrite (get_fold_set (@Sources.vote_identity N) (fun s => s)).
    destruct (find _ _); reflexivity.
  - unfold Sources.voteMap. rewrite flagged.
    rewrite (get_fold_set Network.votePubkey
               (fun v => {| Sources.vi_commission := Network.va_commission v;
                            Sources.vi_activatedStake := Network.activatedStake v;
                            Sources.vi_delinquent := false |})).
    destruct (find _ _); reflexivity.
  - unfold Sources.bpMap.
    apply (get_fold_set (fun e : string * (Z * Z) => fst e)).
Qed.

Section Enrichment.
Context {N : Type} `{Number N}.

Lemma find_absent {A : Type} (f : A -> bool) (l : list A) :
  (forall x, In x l -> f x = false) -> find f l = None.
Proof.
  induction l as [ | x l IH ]; intro Hf; [ reflexivity | ].
  cbn [find]. rewrite (Hf x (or_introl eq_refl)). apply IH. intros y Hy. apply Hf. right. exact Hy.
Qed.

(** A vote address that heads no vote account is none of the delinquent
    ones. *)
Lemma unlisted_not_delinquent (current delinquents : list Network.VoteAccount) (k : string) :
  find (fun v => String.eqb (Network.votePubkey v) k) (rev (current ++ delinquents)) = None ->
  existsb (String.eqb k) (map Network.votePubkey delinquents) = false.
Proof.
  intro Hnone. destruct (existsb _ _) eqn:E; [ | reflexivity ].
  apply existsb_exists in E. destruct E as (pk & Hin & Ek).
  apply String.eqb_eq in Ek. subst pk. apply in_map_iff in Hin. destruct Hin as (v & Ev & Hin).
  pose proof (find_none _ _ Hnone v) as Hv. cbv beta in Hv.
  rewrite Ev, String.eqb_refl in Hv. apply Hv.
  rewrite <- in_rev. apply in_or_app. right. exact Hin.
Qed.

(** What the enrichment reads for a voter, from the lists that were fetched. *)
Lemma metadata_reads (stakewizData : list (@Sources.Stakewiz N))
      (current delinquents : list Network.VoteAccount) (k : string) :
  let m := Sources.metadata (Sources.valMap stakewizData)
                            (Sources.voteMap current delinquents) k in
  let sw := find (fun s => String.eqb (Sources.vote_identity s) k) (rev stakewizData) in
  let va := find (fun v => String.eqb (Network.votePubkey v) k)
                 (rev (current ++ delinquents)) in
  Enhanced.get k (Sources.valMap stakewizData) = sw /\
  Enhanced.commission m
  = Sources.nullish (match va with Some v => Network.va_commission v | None => None end)
                    (match sw with Some s => Sources.commission s | None => None end) /\
  Enhanced.totalNetworkStake m
  = div (of_Z (match va with Some v => Network.activatedStake v | None => 0%Z end))
        (of_Z 1000000000) /\
  Enhanced.delinquent m
  = existsb (String.eqb k) (map Network.votePubkey delinquents)
    || match sw with Some s => Sources.delinquent s | None => false end.
Proof.
  intros m sw va.
  assert (Esw : Enhanced.get k (Sources.valMap stakewizData) = sw).
  { unfold Sources.valMap. rewrite (get_fold_set (@Sources.vote_identity N) (fun s => s)).
    fold sw. destruct sw; reflexivity. }
  assert (Eva : Enhanced.get k (Sources.voteMap current delinquents)
                = option_map
                    (fun v => {| Sources.vi_commission := Network.va_commission v;
                                 Sources.vi_activatedStake := Network.activatedStake v;
                                 Sources.vi_delinquent :=
                                   existsb (String.eqb k)
                                           (map Network.votePubkey delinquents) |}) va).
  { unfold Sources.voteMap. rewrite flagged.
    rewrite (get_fold_set Network.votePubkey
               (fun v => {| Sources.vi_commission := Network.va_commission v;
                            Sources.vi_activatedStake := Network.activatedStake v;
                            Sources.vi_delinquent := false |})).
    fold va. destruct va; reflexivity. }
  split; [ exact Esw | ].
  subst m. unfold Sources.metadata.
  cbn [Enhanced.commission Enhanced.totalNetworkStake Enhanced.delinquent].
  rewrite Esw, Eva.
  pose proof (unlisted_not_delinquent current delinquents k) as Hnot. fold va in Hnot.
  destruct va as [ v | ]; cbn [option_map Sources.vi_commission
                                 Sources.vi_activatedStake Sources.vi_delinquent].
  - repeat split; reflexivity.
  - rewrite (Hnot eq_refl). repeat split; reflexivity.
Qed.
End Enrichment.

(** X24.  What the enhanced collector lists for a validator of a pool.  The
    commission is that of the last vote account with the voter's address,
    also when it is 0; without one, or when that has none, it is that of the
    last stakewiz entry of the address, or [null].  The network stake is
    the activated stake of that vote account in SOL, 0 without one.  The
    validator is delinquent exactly when its address is that of a delinquent
    vote account or its stakewiz entry says so. *)
Theorem enrichment_prefers_vote_accounts (N : Type) (H : Number N)
        (stakewizData : list (@Sources.Stakewiz N))
        (current delinquents : list Network.VoteAccount)
        (accounts : list Rpc.Account) :
  let lookup := Sources.metadata (Sources.valMap stakewizData)
                                 (Sources.voteMap current delinquents) in
  Forall
    (fun v =>
       let k := Enhanced.voter (Enhanced.base v) in
       let sw := find (fun s => String.eqb (Sources.vote_identity s) k) (rev stakewizData) in
       let va := find (fun a => String.eqb (Network.votePubkey a) k)
                      (rev (current ++ delinquents)) in
       Enhanced.commission (Enhanced.meta v)
       = match va with
         | Some a => match Network.va_commission a with
                     | Some c => Some c
                     | None => match sw with Some s => Sources.commission s | None => None end
                     end
         | None => match sw with Some s => Sources.commission s | None => None end
         end /\
       Enhanced.totalNetworkStake (Enhanced.meta v)
       = div (of_Z (match va with Some a => Network.activatedStake a | None => 0%Z end))
             (of_Z 1000000000) /\
       Enhanced.delinquent (Enhanced.meta v)
       = existsb (String.eqb k) (map Network.votePubkey delinquents)
         || match sw with Some s => Sources.delinquent s | None => false end)
    (Enhanced.r_validators (Enhanced.analyze lookup accounts)).
Proof.
  intro lookup. apply Forall_forall. intros v Hv.
  cbn [Enhanced.analyze Enhanced.r_validators] in Hv.
  apply in_map_iff in Hv. destruct Hv as (b & <- & _).
  cbn [Enhanced.base Enhanced.meta]. subst lookup.
  destruct (metadata_reads stakewizData current delinquents (Enhanced.voter b))
    as (_ & Hc & Hs & Hd).
  cbv zeta in Hc, Hs, Hd. rewrite Hc, Hs, Hd. unfold Sources.nullish.
  destruct (find _ (rev (current ++ delinquents))) as [ a | ];
    [ destruct (Network.va_commission a) | ]; repeat split; reflexivity.
Qed.

Section Unlisted.
Context {N : Type} `{Number N}.

Lemma filter_all {A : Type} (f : A -> bool) (l : list A) :
  (forall x, In x l -> f x = true) -> filter f l = l.
Proof.
  induction l as [ | x l IH ]; intro Hf; [ reflexivity | ].
  cbn [filter]. rewrite (Hf x (or_introl eq_refl)). f_equal. apply IH.
  intros y Hy. apply Hf. right. exact Hy.
Qed.

Lemma one_key (a : string) (l : list string) :
  NoDup l -> (forall x, In x l -> x = a) -> In a l -> l = [a].
Proof.
  intros Hnd Hall Hin. destruct l as [ | x l ]; [ destruct Hin | ].
  assert (Ex : x = a) by (apply Hall; left; reflexivity). subst x.
  destruct l as [ | y l ]; [ reflexivity | ].
  assert (Ey : y = a) by (apply Hall; right; left; reflexivity). subst y.
  inversion Hnd as [ | ? ? Hnot _ ]. exfalso. apply Hnot. left. reflexivity.
Qed.

(** The breakdown of items that all carry the key [name]. *)
Lemma lone_rows (total : N) (name : string) (items : list (string * N)) :
  (forall kv, In kv items -> fst kv = name) ->
  Breakdown.sortObj total (Views.tally items) = Views.lone name total (map snd items).
Proof.
  intro Hall. destruct items as [ | kv items ]; [ reflexivity | ].
  set (l := kv :: items) in *.
  assert (Ecat : Views.categories (map fst l) = [name]).
  { apply one_key.
    - apply TallyFacts.categories_nodup.
    - intros x Hx. apply (proj1 (TallyFacts.categories_in _ _)) in Hx. apply in_map_iff in Hx.
      destruct Hx as (kv' & <- & Hin). apply Hall, Hin.
    - apply TallyFacts.categories_in. apply in_map_iff. exists kv. split.
      + apply Hall. left. reflexivity.
      + left. reflexivity. }
  assert (Emine : filter (fun kv' : string * N => String.eqb (fst kv') name) l = l).
  { apply filter_all. intros kv' Hin. rewrite (Hall kv' Hin). apply String.eqb_refl. }
  rewrite TallyFacts.tally_spec, Ecat. cbn [map]. unfold Views.tally_of. rewrite Emine.
  unfold Breakdown.sortObj.
  pose proof (TallyFacts.entries_perm
                [(name, {| Breakdown.count := List.length l;
                           Breakdown.stake := sum (map snd l) |})]) as Hp.
  apply Permutation_sym, Permutation_length_1_inv in Hp. rewrite Hp.
  cbn [map Arr.sort fold_right Arr.insert fst snd Breakdown.count Breakdown.stake].
  unfold Views.lone. subst l. cbn [map List.length]. rewrite length_map. reflexivity.
Qed.

Lemma slice_lone (n : nat) (name : string) (total : N) (stakes : list N) :
  Arr.slice0 (S n) (Views.lone name total stakes) = Views.lone name total stakes.
Proof.
  unfold Views.lone, Arr.slice0. destruct stakes; [ reflexivity | ].
  cbn [firstn]. rewrite firstn_nil. reflexivity.
Qed.

(** What the enrichment reads for a voter that stakewiz does not list. *)
Lemma unlisted_metadata (stakewizData : list (@Sources.Stakewiz N))
      (voteMap : list (string * Sources.VoteInfo)) (k : string) :
  (forall s, In s stakewizData -> Sources.vote_identity s <> k) ->
  let m := Sources.metadata (Sources.valMap stakewizData) voteMap k in
  Enhanced.name m = None /\ Enhanced.country m = None /\ Enhanced.city m = None /\
  Enhanced.asn m = None /\ Enhanced.asnOrg m = None /\ Enhanced.version m = None /\
  Enhanced.isJito m = false /\ Enhanced.jitoCommission m = None.
Proof.
  intros Hnot m. subst m. unfold Sources.metadata, Sources.valMap.
  rewrite (get_fold_set (@Sources.vote_identity N) (fun s => s)).
  rewrite find_absent; [ cbn; repeat split; reflexivity | ].
  intros s Hs. apply in_rev in Hs. apply String.eqb_neq, Hnot, Hs.
Qed.

Lemma unlisted_network_metadata (stakewizData : list (@Sources.Stakewiz N)) (k : string) :
  (forall s, In s stakewizData -> Sources.vote_identity s <> k) ->
  Sources.network_metadata (Sources.valMap stakewizData) k = Samples.unlisted k.
Proof.
  intros Hnot. unfold Sources.network_metadata, Sources.valMap.
  rewrite (get_fold_set (@Sources.vote_identity N) (fun s => s)).
  rewrite find_absent; [ reflexivity | ].
  intros s Hs. apply in_rev in Hs. apply String.eqb_neq, Hnot, Hs.
Qed.
End Unlisted.

(** X25.  A pool that stakewiz knows nothing of.  When no stakewiz entry carries
    the vote address of a delegation of the authority, the breakdowns by
    country, city, ASN and version of the enhanced collector are empty for a
    pool without a staked validator, and else hold the one row ["Unknown"]
    that counts the validators that are tallied and adds up their active
    stakes.  No validator counts as a Jito validator, and none has a name. *)
Theorem unlisted_pool_is_unknown (N : Type) (H : Number N)
        (stakewizData : list (@Sources.Stakewiz N))
        (current delinquents : list Network.VoteAccount)
        (accounts : list Rpc.Account) :
  (forall s d, In s stakewizData -> In d (Spec.delegations accounts) ->
               Sources.vote_identity s <> Rpc.voter d) ->
  let e := Enhanced.analyze (Sources.metadata (Sources.valMap stakewizData)
                                              (Sources.voteMap current delinquents))
                            accounts in
  let staked := map (@Enhanced.e_active N)
                    (filter (fun v => negb (leb (Enhanced.e_active v) zero))
                            (Enhanced.r_validators e)) in
  let unknown := Views.lone "Unknown" (Enhanced.r_totalActive e) staked in
  Enhanced.geo_countries e = unknown /\
  Enhanced.geo_topCities e = unknown /\
  Enhanced.geo_topASNs e = unknown /\
  Enhanced.software_versions e = unknown /\
  Enhanced.j_validators (Enhanced.jitoStats e) = 0%nat /\
  Forall (fun v => Enhanced.name (Enhanced.meta v) = None) (Enhanced.r_validators e).
Proof.
  intros Hnone e staked unknown.
  assert (Hmeta : forall v, In v (Enhanced.r_validators e) ->
                    let m := Enhanced.meta v in
                    Enhanced.name m = None /\ Enhanced.country m = None /\
                    Enhanced.city m = None /\ Enhanced.asn m = None /\
                    Enhanced.asnOrg m = None /\ Enhanced.version m = None /\
                    Enhanced.isJito m = false /\ Enhanced.jitoCommission m = None).
  { intros v Hv. subst e. cbn [Enhanced.analyze Enhanced.r_validators] in Hv.
    apply in_map_iff in Hv. destruct Hv as (b & <- & Hb). cbn [Enhanced.meta].
    apply unlisted_metadata. intros s Hs.
    eapply Permutation_in in Hb; [ | apply SortFacts.sort_perm ].
    rewrite AggregateFacts.validators_spec in Hb. apply in_map_iff in Hb.
    destruct Hb as (k & <- & Hk). cbn [Spec.aggregate_of Enhanced.voter].
    apply AggregateFacts.voters_in in Hk. destruct Hk as (d & Hd & <-).
    apply Hnone; assumption. }
  assert (Hrows : forall key : @Enhanced.Metadata N -> string,
             (forall v, In v (Enhanced.r_validators e) -> key (Enhanced.meta v) = "Unknown") ->
             Breakdown.sortObj (Enhanced.r_totalActive e)
               (Views.tally (Views.enhanced_items key (Enhanced.r_validators e)))
             = unknown).
  { intros key Hkey. subst unknown staked.
    rewrite (@lone_rows N H (Enhanced.r_totalActive e) "Unknown").
    - unfold Views.enhanced_items. rewrite map_map. reflexivity.
    - intros kv Hkv. unfold Views.enhanced_items in Hkv. apply in_map_iff in Hkv.
      destruct Hkv as (v & <- & Hv). apply filter_In in Hv. apply Hkey, Hv. }
  assert (Ec : Enhanced.geo_countries e = unknown).
  { rewrite <- (Hrows Views.e_country).
    - subst e. cbn [Enhanced.analyze Enhanced.geo_countries Enhanced.r_totalActive
                      Enhanced.r_validators].
      match goal with
      | |- context [Enhanced.tallies ?vals] =>
          destruct (TallyFacts.enhanced_tallies vals) as (-> & _)
      end. reflexivity.
    - intros v Hv. destruct (Hmeta v Hv) as (_ & Ecn & _). unfold Views.e_country.
      rewrite Ecn. reflexivity. }
  assert (Ev : Enhanced.software_versions e = unknown).
  { rewrite <- (Hrows Views.e_version).
    - subst e. cbn [Enhanced.analyze Enhanced.software_versions Enhanced.r_totalActive
                      Enhanced.r_validators].
      match goal with
      | |- context [Enhanced.tallies ?vals] =>
          destruct (TallyFacts.enhanced_tallies vals) as (_ & _ & _ & -> & _)
      end. reflexivity.
    - intros v Hv. destruct (Hmeta v Hv) as (_ & _ & _ & _ & _ & Evn & _).
      unfold Views.e_version. rewrite Evn. reflexivity. }
  assert (Eci : Enhanced.geo_topCities e = unknown).
  { subst unknown. rewrite <- (slice_lone 19 "Unknown"), <- (Hrows Views.e_city).
    - subst e. cbn [Enhanced.analyze Enhanced.geo_topCities Enhanced.r_totalActive
                      Enhanced.r_validators].
      match goal with
      | |- context [Enhanced.tallies ?vals] =>
          destruct (TallyFacts.enhanced_tallies vals) as (_ & -> & _)
      end. reflexivity.
    - intros v Hv. destruct (Hmeta v Hv) as (_ & _ & Ect & _). unfold Views.e_city.
      rewrite Ect. reflexivity. }
  assert (Ea : Enhanced.geo_topASNs e = unknown).
  { subst unknown. rewrite <- (slice_lone 19 "Unknown"), <- (Hrows Views.e_asn).
    - subst e. cbn [Enhanced.analyze Enhanced.geo_topASNs Enhanced.r_totalActive
                      Enhanced.r_validators].
      match goal with
      | |- context [Enhanced.tallies ?vals] =>
          destruct (TallyFacts.enhanced_tallies vals) as (_ & _ & -> & _)
      end. reflexivity.
    - intros v Hv. destruct (Hmeta v Hv) as (_ & _ & _ & Ea1 & Ea2 & _).
      unfold Views.e_asn. rewrite Ea1, Ea2. reflexivity. }
  repeat split; try assumption.
  - assert (Ej : filter (fun v => Enhanced.isJito (Enhanced.meta v)
                                  && gtb (Enhanced.e_active v) zero)
                        (Enhanced.r_validators e) = []).
    { apply AggregateFacts.filter_none. intros v Hv.
      destruct (Hmeta v Hv) as (_ & _ & _ & _ & _ & _ & Ej & _). rewrite Ej. reflexivity. }
    subst e. cbn [Enhanced.analyze Enhanced.jitoStats Enhanced.j_validators
                    Enhanced.r_validators] in Ej |- *.
    rewrite Ej. reflexivity.
  - apply Forall_forall. intros v Hv. apply (Hmeta v Hv).
Qed.

Lemma unlisted_pool_is_unknown_witness :
  let e := Enhanced.analyze (N:=float)
             (Sources.metadata (Sources.valMap [Samples.listing "Z" (Some "Germany") true])
                               (Sources.voteMap Samples.voting Samples.lagging))
             Samples.two_to_one in
  Enhanced.geo_countries e
  = [{| Breakdown.name := "Unknown"; Breakdown.r_count := 2%nat; Breakdown.r_stake := of_Z 3;
        Breakdown.pct := Str "100.00" |}] /\
  Enhanced.j_validators (Enhanced.jitoStats e) = 0%nat.
Proof.
  intro e.
  destruct (@unlisted_pool_is_unknown float _
              [Samples.listing "Z" (Some "Germany") true]
              Samples.voting Samples.lagging Samples.two_to_one) as (Ec & _ & _ & _ & Ej & _).
  - intros s d [ <- | [] ] [ <- | [ <- | [] ] ]; discriminate.
  - split; [ | exact Ej ]. fold e in Ec. rewrite Ec. vm_compute. reflexivity.
Defined.

(** X26.  A network that stakewiz knows nothing of.  When no stakewiz entry
    carries the address of a vote account, the breakdowns by country, city,
    ASN and version of the whole-network collector hold the one row
    ["Unknown"], and the breakdown by continent the one row ["Other"], with
    all the validators and the sum of their stakes in the order of the
    listing; without a vote account they are empty.  No validator counts as a
    Jito validator. *)
Theorem unlisted_network_is_unknown (N : Type) (H : Number N)
        (stakewizData : list (@Sources.Stakewiz N))
        (current delinquents : list Network.VoteAccount) :
  (forall s a, In s stakewizData -> In a (current ++ delinquents) ->
               Sources.vote_identity s <> Network.votePubkey a) ->
  let r := Sources.network stakewizData current delinquents in
  let stakes := Views.network_stakes r in
  let unknown := Views.lone "Unknown" (Network.totalStake r) stakes in
  Network.geo_countries r = unknown /\
  Network.geo_topCities r = unknown /\
  Network.geo_topASNs r = unknown /\
  Network.software_versions r = unknown /\
  Continents.continents (Sources.network_metadata (Sources.valMap stakewizData))
                        current delinquents
  = Views.lone "Other" (Network.totalStake r) stakes /\
  Network.jito_validators r = 0%nat.
Proof.
  intros Hnone r stakes unknown. subst unknown stakes r.
  unfold Sources.network, Views.network_stakes.
  set (lookup := Sources.network_metadata (Sources.valMap stakewizData)).
  destruct (TallyFacts.network_listing (N:=N) lookup current delinquents) as (Ev & Et).
  cbv zeta in Ev, Et. rewrite <- (map_map (@Network.listed N) (@Network.stake N)), Ev, Et.
  set (vals := Arr.sort (fun a b => sub (Network.stake b) (Network.stake a))
                        (fst (Network.build lookup current delinquents))).
  set (total := snd (Network.build lookup current delinquents)).
  assert (Hmeta : forall v, In v vals -> Network.meta v = Samples.unlisted (Network.voter v)).
  { intros v Hv. subst vals. eapply Permutation_in in Hv; [ | apply SortFacts.sort_perm ].
    unfold Network.build in Hv. cbn [fst] in Hv. rewrite <- map_app in Hv || idtac.
    apply in_app_or in Hv.
    assert (Hin : exists d a, In a (current ++ delinquents)
                              /\ v = {| Network.voter := Network.votePubkey a;
                                        Network.stake := div (of_Z (Network.activatedStake a))
                                                             (of_Z 1000000000);
                                        Network.commission := Network.va_commission a;
                                        Network.delinquent := d;
                                        Network.meta := lookup (Network.votePubkey a) |}).
    { destruct Hv as [ Hv | Hv ]; apply in_map_iff in Hv; destruct Hv as (a & <- & Ha).
      - exists false, a. split; [ apply in_or_app; left; exact Ha | reflexivity ].
      - exists true, a. split; [ apply in_or_app; right; exact Ha | reflexivity ]. }
    destruct Hin as (d & a & Ha & ->). cbn [Network.meta Network.voter]. subst lookup.
    apply unlisted_network_metadata. intros s Hs. apply Hnone; assumption. }
  assert (Hrows : forall (key : @Network.Validator N -> string) (name : string),
             (forall v, In v vals -> key v = name) ->
             Breakdown.sortObj total (Views.tally (Views.network_items key vals))
             = Views.lone name total (map (@Network.stake N) vals)).
  { intros key name Hkey. rewrite (@lone_rows N H total name).
    - unfold Views.network_items. rewrite map_map. reflexivity.
    - intros kv Hkv. unfold Views.network_items in Hkv. apply in_map_iff in Hkv.
      destruct Hkv as (v & <- & Hv). apply Hkey, Hv. }
  assert (Ec : Continents.continents lookup current delinquents
               = Breakdown.sortObj total (Views.tally (Views.network_items Views.n_continent vals))).
  { unfold Continents.continents, Network.build, Views.tally, Views.network_items.
    cbn [fst snd]. rewrite TallyFacts.fold_left_map. reflexivity. }
  rewrite Ec. clear Ec Ev Et.
  assert (Er : Network.geo_countries (Network.main lookup current delinquents)
               = Arr.slice0 30 (Breakdown.sortObj total
                                  (Views.tally (Views.network_items Views.n_country vals))) /\
               Network.geo_topCities (Network.main lookup current delinquents)
               = Arr.slice0 30 (Breakdown.sortObj total
                                  (Views.tally (Views.network_items Views.n_city vals))) /\
               Network.geo_topASNs (Network.main lookup current delinquents)
               = Arr.slice0 30 (Breakdown.sortObj total
                                  (Views.tally (Views.network_items Views.n_asn vals))) /\
               Network.software_versions (Network.main lookup current delinquents)
               = Breakdown.sortObj total
                   (Views.tally (Views.network_items Views.n_version vals)) /\
               Network.jito_validators (Network.main lookup current delinquents)
               = List.length (filter (fun v => Network.isJito (Network.meta v)) vals)).
  { subst vals total. unfold Network.main, Network.build.
    cbn [fst snd Network.software_versions Network.geo_countries Network.geo_topCities
         Network.geo_topASNs Network.jito_validators].
    match goal with
    | |- context [Network.tallies ?vals] =>
        destruct (TallyFacts.network_tallies vals) as (-> & -> & -> & -> & _)
    end.
    repeat split; reflexivity. }
  destruct Er as (-> & -> & -> & -> & ->).
  rewrite (Hrows Views.n_country "Unknown");
    [ | intros v Hv; unfold Views.n_country; rewrite (Hmeta v Hv); reflexivity ].
  rewrite (Hrows Views.n_city "Unknown");
    [ | intros v Hv; unfold Views.n_city; rewrite (Hmeta v Hv); reflexivity ].
  rewrite (Hrows Views.n_asn "Unknown");
    [ | intros v Hv; unfold Views.n_asn; rewrite (Hmeta v Hv); reflexivity ].
  rewrite (Hrows Views.n_version "Unknown");
    [ | intros v Hv; unfold Views.n_version; rewrite (Hmeta v Hv); reflexivity ].
  rewrite (Hrows Views.n_continent "Other");
    [ | intros v Hv; unfold Views.n_continent; rewrite (Hmeta v Hv); reflexivity ].
  rewrite (slice_lone 29 "Unknown").
  rewrite AggregateFacts.filter_none;
    [ | intros v Hv; rewrite (Hmeta v Hv); reflexivity ].
  repeat split; reflexivity.
Qed.

Lemma unlisted_network_is_unknown_witness :
  let r := Sources.network (N:=float) [Samples.listing "Z" (Some "Germany") true]
                           Samples.voting Samples.lagging in
  Network.software_versions r
  = [{| Breakdown.name := "Unknown"; Breakdown.r_count := 2%nat;
        Breakdown.r_stake := of_Z 10; Breakdown.pct := Str "100.00" |}] /\
  Continents.continents (N:=float)
    (Sources.network_metadata (N:=float)
       (Sources.valMap [Samples.listing "Z" (Some "Germany") true]))
    Samples.voting Samples.lagging
  = [{| Breakdown.name := "Other"; Breakdown.r_count := 2%nat;
        Breakdown.r_stake := of_Z 10; Breakdown.pct := Str "100.00" |}].
Proof.
  intro r.
  destruct (@unlisted_network_is_unknown float _
              [Samples.listing "Z" (Some "Germany") true]
              Samples.voting Samples.lagging) as (_ & _ & _ & Ev & Ec & _).
  - intros s a [ <- | [] ] [ <- | [ <- | [] ] ]; discriminate.
  - fold r in Ev, Ec. rewrite Ev, Ec. split; vm_compute; reflexivity.
Defined.

Lemma continents_rows {N : Type} `{Number N} (lookup : string -> Network.Metadata)
      (current delinquents : list Network.VoteAccount) :
  Permutation (Continents.continents (N:=N) lookup current delinquents)
              (Views.rows_of (snd (Network.build lookup current delinquents))
                 (Views.network_items Views.n_continent
                    (Arr.sort (fun a b => sub (Network.stake b) (Network.stake a))
                              (fst (Network.build lookup current delinquents))))).
Proof.
  eapply Permutation_trans; [ | apply TallyFacts.sortObj_rows_of ].
  unfold Continents.continents, Network.build, Views.tally, Views.network_items.
  cbn [fst snd]. rewrite TallyFacts.fold_left_map. apply Permutation_refl.
Qed.

(** X27.  The continents of the whole-network collector: a row of the breakdown by
    continent is named after one of the six continents of the table, or
    ["Other"], whatever stakewiz says of the countries; no two rows have the
    same name, so that there are seven rows at most. *)
Theorem continents_are_seven (N : Type) (H : Number N)
        (lookup : string -> Network.Metadata)
        (current delinquents : list Network.VoteAccount) :
  let rows := Continents.continents (N:=N) lookup current delinquents in
  Forall (fun row => In (Breakdown.name row)
                        ["North America"; "South America"; "Europe"; "Asia"; "Africa";
                         "Oceania"; "Other"]) rows /\
  NoDup (map (@Breakdown.name N) rows) /\
  (List.length rows <= 7)%nat.
Proof.
  intro rows.
  set (names := ["North America"; "South America"; "Europe"; "Asia"; "Africa";
                 "Oceania"; "Other"]).
  assert (Hc : forall c, In (Continents.continent c) names).
  { intros [ c | ]; unfold Continents.continent; [ | subst names; cbn; tauto ].
    destruct (Enhanced.get c Continents.COUNTRY_CONTINENT) as [ k | ] eqn:E;
      [ | subst names; cbn; tauto ].
    assert (Hall : Forall (fun kv : string * string => In (snd kv) names)
                          Continents.COUNTRY_CONTINENT).
    { subst names. unfold Continents.COUNTRY_CONTINENT.
      repeat (constructor; [ cbn; tauto | ]). constructor. }
    clear rows. revert E. induction Hall as [ | [ k' v' ] l Hk _ IH ]; cbn [Enhanced.get].
    - discriminate.
    - destruct (String.eqb k' c); [ intro E; injection E as <-; exact Hk | exact IH ]. }
  pose proof (continents_rows (N:=N) lookup current delinquents) as Hp. fold rows in Hp.
  assert (Hin : Forall (fun row => In (Breakdown.name row) names) rows).
  { apply Forall_forall. intros row Hrow.
    eapply Permutation_in in Hrow; [ | exact Hp ].
    unfold Views.rows_of in Hrow. apply in_map_iff in Hrow.
    destruct Hrow as (k & <- & Hk). cbn [Breakdown.name].
    apply (proj1 (TallyFacts.categories_in _ _)) in Hk. apply in_map_iff in Hk.
    destruct Hk as (kv & <- & Hkv). unfold Views.network_items in Hkv.
    apply in_map_iff in Hkv. destruct Hkv as (v & <- & _). apply Hc. }
  assert (Hnd : NoDup (map (@Breakdown.name N) rows)).
  { eapply Permutation_NoDup; [ apply Permutation_sym, Permutation_map, Hp | ].
    rewrite TallyFacts.rows_of_names. apply TallyFacts.categories_nodup. }
  split; [ exact Hin | split; [ exact Hnd | ] ].
  rewrite <- (length_map (@Breakdown.name N)).
  change 7%nat with (List.length names).
  apply NoDup_incl_length; [ exact Hnd | ].
  intros k Hk. apply in_map_iff in Hk. destruct Hk as (row & <- & Hrow).
  rewrite Forall_forall in Hin. apply Hin, Hrow.
Qed.

Section SkipRate.
Import Exact.
Open Scope Qc_scope.

Lemma of_Z_le (a b : Z) : (a <= b)%Z -> (of_Z a : Qc) <= of_Z b.
Proof.
  intro Hab. cbn [of_Z exact_number]. unfold Qcle. cbn [this Q2Qc].
  rewrite !Qred_correct, <- Zle_Qle. exact Hab.
Qed.

Lemma of_Z_lt (a b : Z) : (a < b)%Z -> (of_Z a : Qc) < of_Z b.
Proof.
  intro Hab. cbn [of_Z exact_number]. unfold Qclt. cbn [this Q2Qc].
  rewrite !Qred_correct, <- Zlt_Qlt. exact Hab.
Qed.

Lemma skip_rate_range (slots blocks : Z) :
  (0 <= blocks <= slots)%Z ->
  0 <= Sources.skip_rate (N:=Qc) slots blocks /\
  Sources.skip_rate (N:=Qc) slots blocks <= of_Z 100 /\
  (blocks = slots -> Sources.skip_rate (N:=Qc) slots blocks = 0).
Proof.
  intros (Hb & Hs). unfold Sources.skip_rate.
  destruct (gtb (of_Z slots) zero) eqn:E.
  - apply gtb_gt in E. rewrite zero_0 in E.
    change (mul (div (sub (of_Z slots) (of_Z blocks)) (of_Z slots)) (of_Z 100))
      with (Spec.percent (N:=Qc) (of_Z slots - of_Z blocks) (of_Z slots)).
    pose proof (of_Z_le Hb) as Hb'. pose proof (of_Z_le Hs) as Hs'.
    change (of_Z 0 : Qc) with 0 in Hb'.
    split; [ | split ].
    + rewrite <- (BoundFacts.percent_none (of_Z slots)).
      apply BoundFacts.percent_mono; [ exact E | ].
      set (s := of_Z slots : Qc) in *. set (b := of_Z blocks : Qc) in *. qc_lra.
    + rewrite <- (BoundFacts.percent_full E).
      apply BoundFacts.percent_mono; [ exact E | ].
      set (s := of_Z slots : Qc) in *. set (b := of_Z blocks : Qc) in *. qc_lra.
    + intros ->. replace (of_Z slots - of_Z slots) with 0 by ring.
      apply BoundFacts.percent_none.
  - rewrite zero_0. split; [ apply Qcle_refl | split; [ discriminate | reflexivity ] ].
Qed.
End SkipRate.

(** X28.  The skip rates, in exact arithmetic.  When every identity of the block
    production has produced no more blocks than it had leader slots, a skip
    rate that [bpMap] holds lies between 0 and 100; it is 0 for an identity
    that produced a block in every slot, and for one without leader slots.
    A skip rate that a report shows for a validator is the one that stakewiz
    gave for it, or one of [bpMap]. *)
Theorem skip_rates_are_percentages
        (stakewizData : list (@Sources.Stakewiz Qc))
        (byIdentity : list (string * (Z * Z))) :
  Forall (fun e => (0 <= snd (snd e) <= fst (snd e))%Z) byIdentity ->
  (forall id p,
      Enhanced.get id (Sources.bpMap (N:=Qc) byIdentity) = Some p ->
      (0 <= Sources.skipRate p <= of_Z 100)%Qc /\
      (Sources.blocksProduced p = Sources.leaderSlots p -> Sources.skipRate p = 0%Qc) /\
      (Sources.leaderSlots p = 0%Z -> Sources.skipRate p = 0%Qc)) /\
  (forall k r,
      Sources.p_skipRate (Sources.performance (Sources.valMap stakewizData)
                                              (Sources.bpMap byIdentity) k) = Some r ->
      (exists s, In s stakewizData /\ Sources.vote_identity s = k /\
                 Sources.wiz_skip_rate s = Some r) \/
      (0 <= r <= of_Z 100)%Qc).
Proof.
  intro Hall.
  assert (Hbp : forall id p,
             Enhanced.get id (Sources.bpMap (N:=Qc) byIdentity) = Some p ->
             (0 <= Sources.skipRate p <= of_Z 100)%Qc /\
             (Sources.blocksProduced p = Sources.leaderSlots p ->
              Sources.skipRate p = 0%Qc) /\
             (Sources.leaderSlots p = 0%Z -> Sources.skipRate p = 0%Qc)).
  { intros id p Hp. unfold Sources.bpMap in Hp.
    rewrite (get_fold_set (fun e : string * (Z * Z) => fst e)) in Hp.
    destruct (find _ _) as [ e | ] eqn:Ef; [ | discriminate ].
    apply find_some in Ef. destruct Ef as (Hin & _). apply in_rev in Hin.
    rewrite Forall_forall in Hall. specialize (Hall e Hin).
    injection Hp as <-.
    cbn [Sources.skipRate Sources.blocksProduced Sources.leaderSlots].
    destruct (skip_rate_range Hall) as (H0 & H100 & Hfull).
    repeat split; try assumption.
    intro Hs. apply Hfull. lia. }
  split; [ exact Hbp | ].
  intros k r Hr. unfold Sources.performance in Hr. cbn [Sources.p_skipRate] in Hr.
  unfold Sources.valMap in Hr.
  rewrite (get_fold_set (@Sources.vote_identity Qc) (fun s => s)) in Hr.
  destruct (find _ (rev stakewizData)) as [ s | ] eqn:Ef; cbn [option_map] in Hr.
  - apply find_some in Ef. destruct Ef as (Hin & Ek). apply in_rev in Hin.
    apply String.eqb_eq in Ek.
    destruct (Sources.wiz_skip_rate s) as [ w | ] eqn:Ew; cbn [Sources.nullish] in Hr.
    + left. exists s. injection Hr as <-. auto.
    + right. destruct (Sources.identity s) as [ id | ]; [ | discriminate ].
      destruct (Enhanced.get id _) as [ p | ] eqn:Ep; [ | discriminate ].
      cbn [option_map] in Hr. injection Hr as <-. apply (Hbp id p Ep).
  - discriminate.
Qed.

Lemma skip_rates_are_percentages_witness :
  exists p, Enhanced.get "I" (Sources.bpMap (N:=Qc) [("I", (8, 6)%Z)]) = Some p /\
            (0 <= Sources.skipRate p <= of_Z 100)%Qc /\
            Sources.skipRate p = of_Z 25.
Proof.
  eexists. split; [ reflexivity | ]. split.
  - apply (proj1 (@skip_rates_are_percentages [] [("I", (8, 6)%Z)]
                    ltac:(repeat constructor; cbn; lia)) "I").
    reflexivity.
  - apply Qc_is_canon. reflexivity.
Defined.
End SourceFacts.

(** ** The files of the data directory *)

Module StoreFacts.
Open Scope string_scope.

Lemma length_append (a b : string) :
  String.length (a ++ b) = (String.length a + String.length b)%nat.
Proof. induction a as [ | c a IH ]; cbn; [ reflexivity | rewrite IH; reflexivity ]. Qed.

Lemma append_inv_tail (s a b : string) : a ++ s = b ++ s -> a = b.
Proof.
  revert b. induction a as [ | c a IH ]; intros [ | c' b ] E; cbn in E.
  - reflexivity.
  - apply (f_equal String.length) in E. cbn in E. rewrite length_append in E. lia.
  - apply (f_equal String.length) in E. cbn in E. rewrite length_append in E. lia.
  - injection E as -> E. f_equal. apply IH, E.
Qed.

Lemma digits_inj (n m : Z) : (0 <= n)%Z -> (0 <= m)%Z -> Fmt.digits n = Fmt.digits m -> n = m.
Proof.
  intros Hn Hm E. unfold Fmt.digits in E.
  assert (Hnil : forall k : BinNums.N, BinNat.N.to_uint k <> Decimal.Nil).
  { intros [ | p ]; cbn; [ discriminate | apply DecimalPos.Unsigned.to_uint_nonnil ]. }
  apply (f_equal NilZero.uint_of_string) in E.
  rewrite !NilZero.usu in E by apply Hnil.
  injection E as E. apply DecimalN.Unsigned.to_uint_inj in E.
  apply Z2N.inj; assumption.
Qed.

Lemma snapshot_inj (e e' : Z) :
  (0 <= e)%Z -> (0 <= e')%Z -> Store.snapshot e = Store.snapshot e' -> e = e'.
Proof.
  intros He He' E. unfold Store.snapshot in E. cbn in E.
  injection E as E. apply append_inv_tail in E. apply digits_inj; assumption.
Qed.

Lemma snapshot_not_latest (e : Z) :
  Store.snapshot e <> Store.latest /\ Store.latest <> Store.snapshot e.
Proof. unfold Store.snapshot, Store.latest. cbn. split; discriminate. Qed.

Section Files.
Context {C : Type}.

Lemma sfdp_save_reads (epoch : Z) (text : C) (files : @Store.Files C) (name : string) :
  Enhanced.get name (Store.sfdp_save epoch text files)
  = if String.eqb name Store.latest then Some text
    else if String.eqb name (Store.snapshot epoch)
         then match Enhanced.get name files with
              | Some old => Some old
              | None => Some text
              end
         else Enhanced.get name files.
Proof.
  destruct (snapshot_not_latest epoch) as (Hsl & Hls).
  unfold Store.sfdp_save, Store.existsSync, Store.writeFileSync.
  rewrite (SourceFacts.get_set_other _ _ Hls).
  destruct (String.eqb name Store.latest) eqn:El.
  - apply String.eqb_eq in El. subst name.
    destruct (Enhanced.get (Store.snapshot epoch) files).
    + apply SourceFacts.get_set_same.
    + rewrite (SourceFacts.get_set_other _ _ Hsl). apply SourceFacts.get_set_same.
  - apply String.eqb_neq in El.
    destruct (String.eqb name (Store.snapshot epoch)) eqn:Es.
    + apply String.eqb_eq in Es. subst name.
      destruct (Enhanced.get (Store.snapshot epoch) files) as [ old | ] eqn:Eold.
      * rewrite (SourceFacts.get_set_other _ _ Hls). exact Eold.
      * apply SourceFacts.get_set_same.
    + apply String.eqb_neq in Es.
      destruct (Enhanced.get (Store.snapshot epoch) files).
      * apply SourceFacts.get_set_other. congruence.
      * rewrite !SourceFacts.get_set_other by congruence. reflexivity.
Qed.

Lemma enhanced_save_reads (epoch : Z) (text : C) (files : @Store.Files C) (name : string) :
  Enhanced.get name (Store.enhanced_save epoch text files)
  = if String.eqb name Store.latest || String.eqb name (Store.snapshot epoch)
    then Some text else Enhanced.get name files.
Proof.
  destruct (snapshot_not_latest epoch) as (Hsl & Hls).
  unfold Store.enhanced_save, Store.writeFileSync.
  destruct (String.eqb name (Store.snapshot epoch)) eqn:Es.
  - apply String.eqb_eq in Es. subst name. rewrite orb_true_r.
    apply SourceFacts.get_set_same.
  - apply String.eqb_neq in Es. rewrite orb_false_r.
    rewrite SourceFacts.get_set_other by congruence.
    destruct (String.eqb name Store.latest) eqn:El.
    + apply String.eqb_eq in El. subst name. apply SourceFacts.get_set_same.
    + apply String.eqb_neq in El. apply SourceFacts.get_set_other. congruence.
Qed.
End Files.

(** X29.  The snapshots of the SFDP collector are written once.  A run of
    [collect] in the epoch [epoch] replaces [latest.json]; it writes the
    snapshot of the epoch when there is none, so that a second run in the
    epoch leaves the snapshot of the first.  The snapshot of another epoch and
    every other file stay as they are.  The enhanced collector, on the same
    directory, replaces the snapshot of the epoch. *)
Theorem snapshots_are_written_once (C : Type) (epoch other : Z) (first second : C)
        (files : @Store.Files C) :
  (0 <= epoch)%Z -> (0 <= other)%Z -> other <> epoch ->
  let once := Store.sfdp_save epoch first files in
  let twice := Store.sfdp_save epoch second once in
  Enhanced.get Store.latest once = Some first /\
  Enhanced.get Store.latest twice = Some second /\
  Enhanced.get (Store.snapshot epoch) once
  = Some (match Enhanced.get (Store.snapshot epoch) files with
          | Some old => old
          | None => first
          end) /\
  Enhanced.get (Store.snapshot epoch) twice = Enhanced.get (Store.snapshot epoch) once /\
  Enhanced.get (Store.snapshot other) twice = Enhanced.get (Store.snapshot other) files /\
  (forall name, name <> Store.latest -> name <> Store.snapshot epoch ->
                Enhanced.get name twice = Enhanced.get name files) /\
  Enhanced.get (Store.snapshot epoch) (Store.enhanced_save epoch second once) = Some second /\
  Enhanced.get (Store.snapshot other) (Store.enhanced_save epoch second once)
  = Enhanced.get (Store.snapshot other) files.
Proof.
  intros He Ho Hne once twice. subst twice once.
  destruct (snapshot_not_latest epoch) as (Hsl & _).
  destruct (snapshot_not_latest other) as (Hol & _).
  assert (Hos : Store.snapshot other <> Store.snapshot epoch)
    by (intro E; apply Hne; apply snapshot_inj; assumption).
  apply String.eqb_neq in Hsl, Hol, Hos.
  assert (Hother : forall name, name <> Store.latest -> name <> Store.snapshot epoch ->
                     Enhanced.get name (Store.sfdp_save epoch second
                                          (Store.sfdp_save epoch first files))
                     = Enhanced.get name files).
  { intros name Hl Hs. apply String.eqb_neq in Hl, Hs.
    rewrite !sfdp_save_reads, Hl, Hs. reflexivity. }
  repeat split.
  - rewrite sfdp_save_reads, String.eqb_refl. reflexivity.
  - rewrite sfdp_save_reads, String.eqb_refl. reflexivity.
  - rewrite sfdp_save_reads, Hsl, String.eqb_refl.
    destruct (Enhanced.get (Store.snapshot epoch) files); reflexivity.
  - rewrite (sfdp_save_reads epoch second), Hsl, String.eqb_refl.
    rewrite sfdp_save_reads, Hsl, String.eqb_refl.
    destruct (Enhanced.get (Store.snapshot epoch) files); reflexivity.
  - apply Hother; apply String.eqb_neq; assumption.
  - exact Hother.
  - rewrite enhanced_save_reads, String.eqb_refl, orb_true_r. reflexivity.
  - rewrite enhanced_save_reads, Hol, Hos. cbn [orb].
    rewrite sfdp_save_reads, Hol, Hos. reflexivity.
Qed.

Lemma snapshots_are_written_once_witness :
  let once := Store.sfdp_save 700 "first" [(Store.snapshot 699, "earlier")] in
  let twice := Store.sfdp_save 700 "second" once in
  Enhanced.get Store.latest twice = Some "second" /\
  Enhanced.get (Store.snapshot 700) twice = Some "first" /\
  Enhanced.get (Store.snapshot 699) twice = Some "earlier".
Proof.
  intros once twice.
  destruct (@snapshots_are_written_once string 700 699 "first" "second"
              [(Store.snapshot 699, "earlier")])
    as (_ & El & Eo & Es & Ek & _); [ lia | lia | lia | ].
  fold once in El, Eo, Es, Ek. fold twice in El, Es, Ek.
  split; [ exact El | split ].
  - rewrite Es, Eo. reflexivity.
  - rewrite Ek. reflexivity.
Defined.
End StoreFacts.

(** ** The commission compliance of the enhanced collector *)

Module ComplianceFacts.
Open Scope string_scope.

Section Generic.
Context {N : Type} `{Number N}.

Lemma merge1_reads (lookup : string -> @Enhanced.Metadata N) (key : string)
      (v : @Enhanced.Enriched N) (all : list (@Enhanced.Merged N)) :
  Enhanced.meta v = lookup (Enhanced.voter (Enhanced.base v)) ->
  Forall (Views.reads lookup) all -> Forall (Views.reads lookup) (Enhanced.merge1 key v all).
Proof.
  intros Hv Hall. induction Hall as [ | m all Hm Hrest IH ]; cbn [Enhanced.merge1].
  - constructor; [ | constructor ]. unfold Views.reads. cbn. rewrite Hv. split; reflexivity.
  - destruct (String.eqb (Enhanced.m_voter m) (Enhanced.voter (Enhanced.base v))).
    + constructor; [ destruct Hm as (Hc & Hn); split; assumption | exact Hrest ].
    + constructor; [ exact Hm | exact IH ].
Qed.

Lemma merged_reads (lookup : string -> @Enhanced.Metadata N)
      (fetched : list (string * list Rpc.Account)) :
  Forall (Views.reads lookup)
         (Enhanced.mergeAll (map (fun kf => (fst kf, Enhanced.analyze lookup (snd kf)))
                                 fetched)).
Proof.
  unfold Enhanced.mergeAll. apply CombinedFacts.fold_invariant; [ | constructor ].
  intros all kd Hkd Hall. apply in_map_iff in Hkd. destruct Hkd as (kf & <- & _).
  apply CombinedFacts.fold_invariant; [ | exact Hall ].
  intros all' v Hv Hall'. apply merge1_reads; [ | exact Hall' ].
  cbn [snd Enhanced.analyze Enhanced.r_validators] in Hv.
  apply in_map_iff in Hv. destruct Hv as (b & <- & _). reflexivity.
Qed.

Lemma length_flat_map {A B : Type} (f : A -> list B) (l : list A) :
  List.length (flat_map f l) = list_sum (map (fun x => List.length (f x)) l).
Proof.
  induction l as [ | x l IH ]; [ reflexivity | ].
  cbn [flat_map map]. rewrite length_app, IH. reflexivity.
Qed.
End Generic.

(** X30.  The commission compliance of the enhanced collector, in every
    arithmetic.  [highCommission] lists the merged validators with a combined
    stake above zero whose commission is above 10, each once, with the
    commission and the name that the metadata gives for the voter;
    [highCommissionCount] is their number, at most [validatorsInProgram], which
    is at most [uniqueValidators].  [jitoOverCap] is filled from the lists of
    the authorities one after the other, so that [jitoOverCapCount] counts a
    validator once for every authority that lists it with stake. *)
Theorem high_commission_lists_each_once (N : Type) (H : Number N)
        (lookup : string -> @Enhanced.Metadata N)
        (fetched : list (string * list Rpc.Account)) (c : @Enhanced.Combined N) :
  snd (Enhanced.main lookup fetched) = Some c ->
  let accounts := fst (Enhanced.main lookup fetched) in
  let merged := Enhanced.mergeAll accounts in
  (Enhanced.highCommissionCount c <= Enhanced.validatorsInProgram c
   <= Enhanced.uniqueValidators c)%nat /\
  Enhanced.highCommissionCount c = List.length (Enhanced.highCommission c) /\
  NoDup (map (@Enhanced.hc_voter N) (Enhanced.highCommission c)) /\
  (forall h, In h (Enhanced.highCommission c) <->
             exists m, In m merged /\
                       gtb (Enhanced.m_totalStake m) zero = true /\
                       Enhanced.over 10 (Enhanced.commission (lookup (Enhanced.m_voter m)))
                       = true /\
                       h = {| Enhanced.hc_voter := Enhanced.m_voter m;
                              Enhanced.hc_name := Enhanced.name (lookup (Enhanced.m_voter m));
                              Enhanced.hc_commission :=
                                Enhanced.commission (lookup (Enhanced.m_voter m));
                              Enhanced.hc_stake := Enhanced.m_totalStake m |}) /\
  Enhanced.jitoOverCapCount c
  = list_sum
      (map (fun kd =>
              List.length
                (filter (fun v => Enhanced.isJito (lookup (Enhanced.voter (Enhanced.base v)))
                                  && Enhanced.over 1000
                                       (Enhanced.jitoCommission
                                          (lookup (Enhanced.voter (Enhanced.base v))))
                                  && gtb (Enhanced.e_active v) zero)
                        (Enhanced.r_validators (snd kd))))
           accounts).
Proof.
  unfold Enhanced.main. cbn [fst snd]. intro Hc.
  set (accounts := map (fun kf => (fst kf, Enhanced.analyze lookup (snd kf))) fetched) in *.
  cbv zeta.
  pose proof (merged_reads lookup fetched) as Hreads. fold accounts in Hreads.
  pose proof (CombinedFacts.enhanced_merged_nodup accounts) as Hnd.
  set (sorted := Enhanced.combinedSorted accounts).
  assert (Hperm : Permutation sorted (Enhanced.mergeAll accounts))
    by apply SortFacts.sort_perm.
  set (staked := filter (fun v => gtb (Enhanced.m_totalStake v) zero) sorted).
  set (high := filter (fun v => Enhanced.over 10 (Enhanced.m_commission v)) staked).
  assert (Ec : Enhanced.highCommissionCount c = List.length high /\
               Enhanced.validatorsInProgram c = List.length staked /\
               Enhanced.uniqueValidators c = List.length sorted /\
               Enhanced.highCommission c
               = map (fun v => {| Enhanced.hc_voter := Enhanced.m_voter v;
                                  Enhanced.hc_name := Enhanced.m_name v;
                                  Enhanced.hc_commission := Enhanced.m_commission v;
                                  Enhanced.hc_stake := Enhanced.m_totalStake v |}) high /\
               Enhanced.jitoOverCapCount c = List.length (Enhanced.jitoOverCap accounts)).
  { unfold Enhanced.combined in Hc. destruct (Enhanced.get "mpa4" accounts); [ | discriminate ].
    injection Hc as <-. repeat split; reflexivity. }
  destruct Ec as (Ehc & Evp & Euv & Eh & Ej). rewrite Ehc, Evp, Euv, Eh, Ej.
  assert (Hsorted : Forall (Views.reads lookup) sorted).
  { apply Forall_forall. intros m Hm. rewrite Forall_forall in Hreads.
    apply Hreads. eapply Permutation_in; [ exact Hperm | exact Hm ]. }
  split; [ split; apply filter_length_le | ].
  split; [ rewrite length_map; reflexivity | ].
  split.
  { rewrite map_map. cbn [Enhanced.hc_voter].
    assert (Hsub : forall (p : @Enhanced.Merged N -> bool) l,
               NoDup (map (@Enhanced.m_voter N) l) ->
               NoDup (map (@Enhanced.m_voter N) (filter p l))).
    { intros p l. induction l as [ | x l IH ]; intro Hl; cbn [filter map]; [ constructor | ].
      inversion Hl as [ | ? ? Hx Hl' ]. subst.
      destruct (p x); cbn [map]; [ | apply IH, Hl' ].
      constructor; [ | apply IH, Hl' ].
      intro Hin. apply Hx. apply in_map_iff in Hin. destruct Hin as (y & Ey & Hy).
      apply filter_In in Hy. apply in_map_iff. exists y. split; [ exact Ey | apply Hy ]. }
    subst high staked. apply Hsub, Hsub.
    eapply Permutation_NoDup; [ apply Permutation_sym, Permutation_map, Hperm | exact Hnd ]. }
  split.
  { intro h. rewrite in_map_iff. split.
    - intros (m & <- & Hm). subst high staked. apply filter_In in Hm.
      destruct Hm as (Hm & Hover). apply filter_In in Hm. destruct Hm as (Hm & Hpos).
      rewrite Forall_forall in Hsorted. destruct (Hsorted m Hm) as (Ecm & Enm).
      exists m. rewrite <- Ecm, <- Enm.
      repeat split; try assumption.
      eapply Permutation_in; [ exact Hperm | exact Hm ].
    - intros (m & Hm & Hpos & Hover & ->).
      assert (Hm' : In m sorted)
        by (eapply Permutation_in; [ apply Permutation_sym, Hperm | exact Hm ]).
      rewrite Forall_forall in Hsorted. destruct (Hsorted m Hm') as (Ecm & Enm).
      exists m. rewrite <- Ecm, <- Enm. split; [ reflexivity | ].
      subst high staked. apply filter_In. split; [ apply filter_In; split; assumption | ].
      rewrite Ecm. exact Hover. }
  unfold Enhanced.jitoOverCap. rewrite length_flat_map. f_equal.
  apply map_ext_in. intros kd Hkd. rewrite length_map. f_equal.
  apply filter_ext_in. intros v Hv. subst accounts. apply in_map_iff in Hkd.
  destruct Hkd as (kf & <- & _). cbn [snd Enhanced.analyze Enhanced.r_validators] in Hv.
  apply in_map_iff in Hv. destruct Hv as (b & <- & _). reflexivity.
Qed.

Lemma high_commission_lists_each_once_witness :
  exists c, snd (Enhanced.main (N:=float) Samples.greedy Samples.two_pools) = Some c /\
            Enhanced.uniqueValidators c = 2%nat /\
            Enhanced.highCommissionCount c = 2%nat /\
            NoDup (map (@Enhanced.hc_voter float) (Enhanced.highCommission c)) /\
            Enhanced.jitoOverCapCount c = 3%nat.
Proof.
  eexists. split; [ vm_compute; reflexivity | ].
  split; [ vm_compute; reflexivity | ]. split; [ vm_compute; reflexivity | ].
  split; [ | vm_compute; reflexivity ].
  eapply (@high_commission_lists_each_once float _ Samples.greedy Samples.two_pools).
  vm_compute. reflexivity.
Defined.
End ComplianceFacts.

(** ** The worked examples of the specification *)

Module SpecExamples.
Open Scope string_scope.

(** Two delegations of 500 SOL: total 1000, two validators with 500 each,
    HHI 0.5, Gini 0, Nakamoto coefficient 1, in binary64. *)
Example two_equal_binary64 :
  let a := Sfdp.analyzeStakeAccounts (N:=float) Samples.two_equal in
  Sfdp.a_totalActive a = of_Z 1000 /\
  map (@Sfdp.l_activeStake float) (Sfdp.allValidators a) = [of_Z 500; of_Z 500] /\
  Sfdp.decentralization a
  = {| Sfdp.nakamotoCoeff33 := 1; Sfdp.superminorityCount := 1;
       Sfdp.hhi := decimal 5 1; Sfdp.gini := zero |}.
Proof. cbv zeta. repeat split; vm_compute; reflexivity. Qed.

(** The same example in exact arithmetic. *)
Example two_equal_exact :
  let a := Sfdp.analyzeStakeAccounts (N:=Qc) Samples.two_equal in
  Sfdp.a_totalActive a = of_Z 1000 /\
  map (@Sfdp.l_activeStake Qc) (Sfdp.allValidators a) = [of_Z 500; of_Z 500] /\
  Sfdp.nakamotoCoeff33 (Sfdp.decentralization a) = 1%nat /\
  Sfdp.hhi (Sfdp.decentralization a) = decimal 5 1 /\
  Sfdp.gini (Sfdp.decentralization a) = zero.
Proof.
  cbv zeta. split; [ apply Qc_is_canon; vm_compute; reflexivity | ].
  split; [ vm_compute; repeat f_equal; apply Qc_is_canon; reflexivity | ].
  split; [ vm_compute; reflexivity | ].
  split; apply Qc_is_canon; vm_compute; reflexivity.
Qed.

(** Stakes of 600, 300 and 100 SOL: the first validator alone holds a third
    of the total, in both arithmetics and in both SFDP collectors. *)
Example six_three_one_nakamoto :
  Sfdp.nakamotoCoeff33
    (Sfdp.decentralization (Sfdp.analyzeStakeAccounts (N:=float) Samples.six_three_one))
  = 1%nat /\
  Sfdp.nakamotoCoeff33
    (Sfdp.decentralization (Sfdp.analyzeStakeAccounts (N:=Qc) Samples.six_three_one))
  = 1%nat /\
  Enhanced.nakamotoCoeff33
    (Enhanced.decentralization
       (Enhanced.analyze (N:=float) Samples.unknown Samples.six_three_one))
  = 1%nat.
Proof. repeat split; vm_compute; reflexivity. Qed.
End SpecExamples.
